(** * Civic Weave: matching and enrollment core

    A shallow embedding of the matching and enrollment code of the
    repository:

    - [backend/internal/enrollment/service.go] and
      [backend/internal/api/enrollment_handlers.go] (enrollment state
      machine and its HTTP front),
    - [backend/internal/matching/service.go] (skill vectors and cosine
      similarity over Go maps, great-circle distance, cached and on-demand
      matching, the helpers on matches),
    - the SQL functions [get_volunteer_skill_vector],
      [get_project_skill_vector], [haversine_distance_km],
      [find_matching_volunteers], [refresh_all_matches],
      [get_project_matches] and [get_volunteer_matches] of the migrations.

    Conventions.  Values computed in SQL [double precision] and in Go
    [float64] are idealised as real numbers ([R]), with two exceptions where
    the result depends on the representation: a value stored in a
    [DECIMAL(p, s)] column is rounded to [s] decimals, and the weights that
    [findMatchingVolunteersOnDemand] normalises are binary64 numbers divided
    in binary64.  Overflow is not modelled.  A SQL [NULL] is [None].  Go
    errors and HTTP bodies are the message strings the code builds.  [NOW()]
    and [gen_random_uuid()] are inputs of the operation that calls them.
    Tables are lists of rows in storage order.  An id is the text of a UUID in
    the form the server prints it. *)

From Stdlib Require Import Reals Machin Lra ZArith Ascii String Sorted Permutation.
From Stdlib Require PrimFloat FloatOps SpecFloat.
From stdpp Require Import gmap strings list pretty.
Import (notations) PrimFloat.

Set Warnings "-inexact-float".

Open Scope string_scope.

(* ================================================================== *)
(** ** Strings: the few library functions the code calls *)

Module Str.

(** [strings.ToLower] on ASCII letters; also the case folding of [ILIKE]. *)
Definition lower_ascii (c : ascii) : ascii :=
  let n := nat_of_ascii c in
  if (65 <=? n)%nat && (n <=? 90)%nat then ascii_of_nat (n + 32) else c.

Fixpoint ToLower (s : string) : string :=
  match s with
  | EmptyString => EmptyString
  | String c s' => String (lower_ascii c) (ToLower s')
  end.

(** [strings.HasPrefix s p]. *)
Definition HasPrefix (s p : string) : bool := String.prefix p s.

(** [strings.Contains s sub]. *)
Fixpoint Contains (s sub : string) : bool :=
  String.prefix sub s ||
  match s with
  | EmptyString => false
  | String _ s' => Contains s' sub
  end.

(** [x ILIKE '%pat%'] for a pattern without wildcards of its own. *)
Definition ilike_contains (x pat : string) : bool :=
  Contains (ToLower x) (ToLower pat).

Definition dquote : string := String (ascii_of_nat 34) EmptyString.

End Str.

(* ================================================================== *)
(** ** The database *)

(** [models.Enrollment] / a row of [volunteer_enrollments]. *)
Record Enrollment := mkEnrollment {
  ID : string;
  VolunteerID : string;
  ProjectID : string;
  Status : string;  (* "requested", "invited", "enrolled", "tl_rejected", "v_rejected" *)
  InitiatedBy : string;
  Message : option string;
  ResponseMessage : option string;
  CreatedAt : Z;
  UpdatedAt : Z;
  ApprovedAt : option Z;
  CompletedAt : option Z
}.

(** A row of [users] with the columns the core reads. *)
Record UserRow := mkUser {
  u_id : string;
  u_name : string;
  u_email : string;
  u_role : string;
  u_latitude : option R;
  u_longitude : option R;
  u_location_name : option string;
  u_location_point : option (R * R)  (* PostGIS geography, when installed *)
}.

(** A row of [projects]. *)
Record ProjectRow := mkProject {
  p_id : string;
  p_name : string;
  p_latitude : option R;
  p_longitude : option R;
  p_location_name : option string;
  p_location_point : option (R * R);
  p_status : string  (* 'draft', 'active', ... *)
}.

(** Rows of [volunteer_skills] and [project_skills]. *)
Record VolunteerSkillRow := mkVS {
  vs_volunteer_id : string;
  vs_skill_id : string;
  vs_claimed : bool;
  vs_score : R
}.

Record ProjectSkillRow := mkPS {
  ps_project_id : string;
  ps_skill_id : string;
  ps_required : bool;
  ps_weight : R
}.

(** A row of the [skills] catalog. *)
Record SkillRow := mkSkill {
  s_id : string;
  s_name : string
}.

(** A pgvector value. *)
Definition vector := list R.

(** A row of the materialized view [volunteer_skill_vectors]. *)
Record SkillVectorRow := mkVSV {
  vsv_volunteer_id : string;
  vsv_skill_vector : option vector
}.

(** A row of the match cache [project_volunteer_matches]. *)
Record MatchRecord := mkMatch {
  project_id : string;
  volunteer_id : string;
  skill_score : R;
  distance_km : R;
  combined_score : R;
  matched_skills : list string
}.

Record Database := mkDatabase {
  users : list UserRow;
  projects : list ProjectRow;
  skills : list SkillRow;
  volunteer_skills : list VolunteerSkillRow;
  project_skills : list ProjectSkillRow;
  volunteer_skill_vectors : list SkillVectorRow;
  volunteer_enrollments : list Enrollment;
  project_volunteer_matches : list MatchRecord;
  has_postgis : bool  (* EXISTS (SELECT 1 FROM pg_extension WHERE extname = 'postgis') *)
}.

Definition set_enrollments (db : Database) (rows : list Enrollment) : Database :=
  {| users := users db; projects := projects db; skills := skills db;
     volunteer_skills := volunteer_skills db;
     project_skills := project_skills db;
     volunteer_skill_vectors := volunteer_skill_vectors db;
     volunteer_enrollments := rows;
     project_volunteer_matches := project_volunteer_matches db;
     has_postgis := has_postgis db |}.

Definition set_matches (db : Database) (rows : list MatchRecord) : Database :=
  {| users := users db; projects := projects db; skills := skills db;
     volunteer_skills := volunteer_skills db;
     project_skills := project_skills db;
     volunteer_skill_vectors := volunteer_skill_vectors db;
     volunteer_enrollments := volunteer_enrollments db;
     project_volunteer_matches := rows;
     has_postgis := has_postgis db |}.

(** [chk_enrollment_status]: the CHECK constraint of the state-machine
    migration. *)
Definition valid_status (s : string) : bool :=
  bool_decide (s ∈ ["requested"; "invited"; "enrolled"; "tl_rejected"; "v_rejected"]).

Definition chk_enrollment_status (db : Database) : Prop :=
  Forall (fun e => valid_status (Status e) = true) (volunteer_enrollments db).

(* ================================================================== *)
(** ** Statements with placeholders, as lib/pq sends them *)

Module Pg.

(** The types of the columns and literals the placeholders of the service's
    statements meet. *)
Inductive ParamType := pg_uuid | pg_varchar | pg_text.

Definition same_type (a b : ParamType) : bool :=
  match a, b with
  | pg_uuid, pg_uuid | pg_varchar, pg_varchar | pg_text, pg_text => true
  | _, _ => false
  end.

(** A use of the placeholder [$n] in a context that asks for a type. *)
Definition ParamUse : Type := nat * ParamType.

Definition type_of_param (n : nat) (known : list ParamUse) : option ParamType :=
  snd <$> List.find (fun u => Nat.eqb (fst u) n) known.

(** lib/pq sends a statement with arguments to the server without the types
    of its parameters.  The server gives each placeholder the type its
    context asks for and refuses the statement when two uses of one
    placeholder ask for different types; [inconsistent_parameter] is the
    first such placeholder. *)
Fixpoint inconsistent_parameter (known uses : list ParamUse) : option nat :=
  match uses with
  | [] => None
  | (n, t) :: uses' =>
      match type_of_param n known with
      | Some t' => if same_type t t' then inconsistent_parameter known uses' else Some n
      | None => inconsistent_parameter ((n, t) :: known) uses'
      end
  end.

(** The error of [db.Exec] or [db.Query] for the statement, when the server
    refuses it. *)
Definition prepare (uses : list ParamUse) : option string :=
  (fun n => "pq: inconsistent types deduced for parameter $" ++ pretty n)
    <$> inconsistent_parameter [] uses.

(** The error of a text the server does not accept as a UUID. *)
Definition invalid_uuid (text : string) : string :=
  "pq: invalid input syntax for type uuid: " ++ Str.dquote ++ text ++ Str.dquote.

End Pg.

(* ================================================================== *)
(** ** Enrollment service (enrollment/service.go) *)

Module EnrollmentService.

(** Errors the driver reports for the INSERT. *)
Inductive PgError :=
| UniqueViolation (constraint : string)
| ForeignKeyViolation (table constraint : string).

Definition pq_message (e : PgError) : string :=
  match e with
  | UniqueViolation c =>
      "pq: duplicate key value violates unique constraint " ++ Str.dquote ++ c ++ Str.dquote
  | ForeignKeyViolation t c =>
      "pq: insert or update on table " ++ Str.dquote ++ t ++ Str.dquote ++
      " violates foreign key constraint " ++ Str.dquote ++ c ++ Str.dquote
  end.

Definition has_user (db : Database) (id : string) : bool :=
  existsb (fun u => bool_decide (u_id u = id)) (users db).

Definition has_project (db : Database) (id : string) : bool :=
  existsb (fun p => bool_decide (p_id p = id)) (projects db).

Definition has_pair (db : Database) (volunteerID projectID : string) : bool :=
  existsb (fun e => bool_decide (VolunteerID e = volunteerID) &&
                    bool_decide (ProjectID e = projectID))
          (volunteer_enrollments db).

Definition has_id (db : Database) (id : string) : bool :=
  existsb (fun e => bool_decide (ID e = id)) (volunteer_enrollments db).

(** [INSERT INTO volunteer_enrollments (volunteer_id, project_id, status,
    initiated_by, message) VALUES (...) RETURNING ...]: the primary key and
    the UNIQUE(volunteer_id, project_id) index are checked when the row is
    stored, the foreign keys after it. *)
Definition insert_enrollment (db : Database) (now : Z) (uuid : string)
    (volunteerID projectID status initiatedBy : string) (message : option string)
    : Database * (PgError + Enrollment) :=
  if has_id db uuid then
    (db, inl (UniqueViolation "volunteer_enrollments_pkey"))
  else if has_pair db volunteerID projectID then
    (db, inl (UniqueViolation "volunteer_enrollments_volunteer_id_project_id_key"))
  else if negb (has_user db volunteerID) then
    (db, inl (ForeignKeyViolation "volunteer_enrollments" "volunteer_enrollments_volunteer_id_fkey"))
  else if negb (has_project db projectID) then
    (db, inl (ForeignKeyViolation "volunteer_enrollments" "volunteer_enrollments_project_id_fkey"))
  else if negb (has_user db initiatedBy) then
    (db, inl (ForeignKeyViolation "volunteer_enrollments" "volunteer_enrollments_initiated_by_fkey"))
  else
    let row := {| ID := uuid; VolunteerID := volunteerID; ProjectID := projectID;
                  Status := status; InitiatedBy := initiatedBy; Message := message;
                  ResponseMessage := None; CreatedAt := now; UpdatedAt := now;
                  ApprovedAt := None; CompletedAt := None |} in
    (set_enrollments db (volunteer_enrollments db ++ [row]), inr row).

(** What the INSERT needs to succeed: an unused id, an unused pair, and
    existing volunteer, project and initiator. *)
Definition insertable (db : Database) (uuid volunteerID projectID initiatedBy : string) : Prop :=
  has_id db uuid = false /\ has_pair db volunteerID projectID = false /\
  has_user db volunteerID = true /\ has_project db projectID = true /\
  has_user db initiatedBy = true.

(** The error of an INSERT on an existing (volunteer, project) pair, as the
    service wraps it. *)
Definition duplicate_pair_error : string :=
  "failed to create enrollment: " ++
  pq_message (UniqueViolation "volunteer_enrollments_volunteer_id_project_id_key").

(** The error of a transition the guard refuses. *)
Definition invalid_transition_error (action currentStatus : string) : string :=
  "cannot " ++ action ++ " enrollment in status: " ++ currentStatus.

(** [Service.CreateEnrollment]; the result is the pair of the row and the error. *)
Definition CreateEnrollment (db : Database) (now : Z) (uuid : string)
    (volunteerID projectID action message initiatedBy : string)
    : Database * (string + Enrollment) :=
  if bool_decide (action = "request") || bool_decide (action = "invite") then
    let status := if bool_decide (action = "request") then "requested" else "invited" in
    let messagePtr := if bool_decide (message = "") then None else Some message in
    match insert_enrollment db now uuid volunteerID projectID status initiatedBy messagePtr with
    | (db', inl err) => (db', inl ("failed to create enrollment: " ++ pq_message err))
    | (db', inr enrollment) => (db', inr enrollment)
    end
  else
    (db, inl ("invalid action: " ++ action ++ " (must be 'request' or 'invite')")).

(** [SELECT status FROM volunteer_enrollments WHERE id = $1]. *)
Definition find_enrollment (db : Database) (enrollmentID : string) : option Enrollment :=
  List.find (fun e => bool_decide (ID e = enrollmentID)) (volunteer_enrollments db).

(** The status an action leads to, or the error of the transition guard. *)
Definition next_status (currentStatus action : string) : string + string :=
  if bool_decide (action = "accept") then
    if bool_decide (currentStatus = "requested") || bool_decide (currentStatus = "invited")
    then inr "enrolled"
    else inl ("cannot accept enrollment in status: " ++ currentStatus)
  else if bool_decide (action = "reject") then
    if bool_decide (currentStatus = "requested") then inr "tl_rejected"
    else if bool_decide (currentStatus = "invited") then inr "v_rejected"
    else inl ("cannot reject enrollment in status: " ++ currentStatus)
  else if bool_decide (action = "withdraw") then
    if bool_decide (currentStatus = "requested") then inr "v_rejected"
    else inl ("cannot withdraw enrollment in status: " ++ currentStatus)
  else inl ("invalid action: " ++ action ++ " (must be 'accept' or 'reject')").

(** The UPDATE of one row:
    [status = $2, response_message = $3, updated_at = NOW(),
     approved_at = CASE WHEN $2 = 'enrolled' THEN NOW() ELSE approved_at END]. *)
Definition update_row (now : Z) (newStatus : string) (responseMessageParam : option string)
    (e : Enrollment) : Enrollment :=
  {| ID := ID e; VolunteerID := VolunteerID e; ProjectID := ProjectID e;
     Status := newStatus; InitiatedBy := InitiatedBy e; Message := Message e;
     ResponseMessage := responseMessageParam;
     CreatedAt := CreatedAt e; UpdatedAt := now;
     ApprovedAt := if bool_decide (newStatus = "enrolled") then Some now else ApprovedAt e;
     CompletedAt := CompletedAt e |}.

Definition update_where_id (now : Z) (enrollmentID newStatus : string)
    (responseMessageParam : option string) (rows : list Enrollment) : list Enrollment :=
  List.map (fun e => if bool_decide (ID e = enrollmentID)
                     then update_row now newStatus responseMessageParam e else e) rows.

Definition rows_affected (enrollmentID : string) (rows : list Enrollment) : nat :=
  length (List.filter (fun e => bool_decide (ID e = enrollmentID)) rows).

(** The placeholders of the UPDATE, in the order the statement uses them:
    [SET status = $2] assigns to a VARCHAR(20) column,
    [response_message = $3] to a TEXT column,
    [CASE WHEN $2 = 'enrolled'] compares with a string literal, which makes
    both sides [text], and [WHERE id = $1] compares with the UUID key. *)
Definition update_status_uses : list Pg.ParamUse :=
  [ (2%nat, Pg.pg_varchar); (3%nat, Pg.pg_text); (2%nat, Pg.pg_text); (1%nat, Pg.pg_uuid) ].

Section Server.
(** Whether the server accepts a text as the input of a UUID.  An accepted
    text is compared with the stored ids as it is: ids are in the form the
    server prints. *)
Variable uuid_in : string -> bool.

(** [Service.UpdateEnrollmentStatus]; [None] is the nil error.  The SELECT
    fails on an id the server does not accept as a UUID; the UPDATE is sent
    with its three arguments and no parameter types. *)
Definition UpdateEnrollmentStatus (db : Database) (now : Z)
    (enrollmentID action responseMessage : string) : Database * option string :=
  if negb (uuid_in enrollmentID) then
    (db, Some ("failed to get current status: " ++ Pg.invalid_uuid enrollmentID))
  else
    match find_enrollment db enrollmentID with
    | None => (db, Some "enrollment not found")
    | Some cur =>
        match next_status (Status cur) action with
        | inl err => (db, Some err)
        | inr newStatus =>
            let responseMessageParam :=
              if bool_decide (responseMessage = "") then None else Some responseMessage in
            match Pg.prepare update_status_uses with
            | Some err => (db, Some ("failed to update enrollment status: " ++ err))
            | None =>
                let db' := set_enrollments db
                             (update_where_id now enrollmentID newStatus responseMessageParam
                                (volunteer_enrollments db)) in
                if (rows_affected enrollmentID (volunteer_enrollments db) =? 0)%nat
                then (db', Some "enrollment not found")
                else (db', None)
            end
        end
    end.

End Server.

(** The error every transition the guard allows ends with. *)
Definition update_refused_error : string :=
  "failed to update enrollment status: pq: inconsistent types deduced for parameter $2".

(** [Service.IsVolunteerEnrolled]. *)
Definition IsVolunteerEnrolled (db : Database) (volunteerID projectID : string) : bool :=
  existsb (fun e => bool_decide (VolunteerID e = volunteerID) &&
                    bool_decide (ProjectID e = projectID) &&
                    bool_decide (Status e ∈ ["requested"; "invited"; "enrolled"]))
          (volunteer_enrollments db).

End EnrollmentService.

(* ================================================================== *)
(** ** Enrollment handlers (api/enrollment_handlers.go) *)

Module EnrollmentHandler.
Import EnrollmentService.

(** [models.CreateEnrollmentRequest], decoded. *)
Record CreateEnrollmentRequest := mkCreateReq {
  req_ProjectID : string;
  req_Action : string;
  req_VolunteerID : option string;
  req_Message : option string
}.

(** [models.UpdateEnrollmentRequest], decoded. *)
Record UpdateEnrollmentRequest := mkUpdateReq {
  upd_Action : string;
  upd_ResponseMessage : option string
}.

Inductive Response :=
| Json (e : Enrollment)          (* 200 with the encoded enrollment *)
| Status200                      (* w.WriteHeader(http.StatusOK) *)
| HttpError (code : Z) (body : string).

Definition StatusBadRequest : Z := 400.
Definition StatusConflict : Z := 409.
Definition StatusInternalServerError : Z := 500.

(** [EnrollmentHandler.CreateEnrollment]; [userID] is the [userId] query
    parameter. *)
Definition CreateEnrollment (db : Database) (now : Z) (uuid : string)
    (req : CreateEnrollmentRequest) (userID : string) : Database * Response :=
  if bool_decide (userID = "") then
    (db, HttpError StatusBadRequest "User ID required")
  else if negb (bool_decide (req_Action req = "request")) &&
          negb (bool_decide (req_Action req = "invite")) then
    (db, HttpError StatusBadRequest "Invalid action (must be 'request' or 'invite')")
  else
    let invite := bool_decide (req_Action req = "invite") in
    if invite && match req_VolunteerID req with
                 | None => true
                 | Some v => bool_decide (v = "")
                 end then
      (db, HttpError StatusBadRequest "Volunteer ID required for invite action")
    else
      let volunteerID :=
        if invite then default userID (req_VolunteerID req) else userID in
      let message := default "" (req_Message req) in
      match EnrollmentService.CreateEnrollment db now uuid volunteerID
              (req_ProjectID req) (req_Action req) message userID with
      | (db', inl err) =>
          let errStr := Str.ToLower err in
          if Str.Contains errStr "duplicate key" &&
             Str.Contains errStr "volunteer_enrollments_volunteer_id_project_id_key" then
            (db', HttpError StatusConflict
               "This volunteer is already enrolled or has a pending enrollment for this project")
          else
            (db', HttpError StatusInternalServerError ("Failed to create enrollment: " ++ err))
      | (db', inr enrollment) => (db', Json enrollment)
      end.

(** [EnrollmentHandler.UpdateEnrollmentStatus]; [enrollmentID] is the path
    variable, passed on as it is. *)
Definition UpdateEnrollmentStatus (uuid_in : string -> bool) (db : Database) (now : Z)
    (enrollmentID : string) (req : UpdateEnrollmentRequest) : Database * Response :=
  if negb (bool_decide (upd_Action req = "accept")) &&
     negb (bool_decide (upd_Action req = "reject")) &&
     negb (bool_decide (upd_Action req = "withdraw")) then
    (db, HttpError StatusBadRequest "Invalid action (must be 'accept', 'reject' or 'withdraw')")
  else
    let responseMessage := default "" (upd_ResponseMessage req) in
    match EnrollmentService.UpdateEnrollmentStatus uuid_in db now enrollmentID
            (upd_Action req) responseMessage with
    | (db', Some err) =>
        if Str.HasPrefix err "cannot " || Str.Contains (Str.ToLower err) "invalid action" then
          (db', HttpError StatusBadRequest ("Bad request: " ++ err))
        else
          (db', HttpError StatusInternalServerError ("Failed to update enrollment: " ++ err))
    | (db', None) => (db', Status200)
    end.

End EnrollmentHandler.

(* ================================================================== *)
(** ** Real-number helpers for the scoring code *)

Module Num.
Open Scope R_scope.

#[export] Instance R_eq_dec : EqDecision R := Req_dec_T.
#[export] Instance Rlt_decision (a b : R) : Decision (a < b) := Rlt_dec a b.
#[export] Instance Rle_decision (a b : R) : Decision (a <= b) := Rle_dec a b.
#[export] Instance Rgt_decision (a b : R) : Decision (a > b) := Rgt_dec a b.

(** SQL [RADIANS]. *)
Definition RADIANS (deg : R) : R := deg * PI / 180.

(** SQL [GREATEST] and [LEAST] on two non-NULL arguments. *)
Definition GREATEST (a b : R) : R := Rmax a b.
Definition LEAST (a b : R) : R := Rmin a b.

(** [atan2(y, x)]. *)
Definition atan2 (y x : R) : R :=
  if Rlt_dec 0 x then atan (y / x)
  else if Rlt_dec x 0 then
    (if Rle_dec 0 y then atan (y / x) + PI else atan (y / x) - PI)
  else if Rlt_dec 0 y then PI / 2
  else if Rlt_dec y 0 then - (PI / 2)
  else 0.

(** A quotient is undefined (NaN or an infinity in [float64]) when the
    divisor is zero. *)
Definition fdiv (a b : R) : option R :=
  if Req_dec_T b 0 then None else Some (a / b).

(** [math.Sqrt] is NaN on a negative argument. *)
Definition fsqrt (a : R) : option R :=
  if Rlt_dec a 0 then None else Some (sqrt a).

(** [ORDER BY key DESC]: a stable insertion sort, rows with equal keys keep
    their input order. *)
Fixpoint insert_desc {A} (key : A -> R) (x : A) (l : list A) : list A :=
  match l with
  | [] => [x]
  | y :: l' => if Rlt_dec (key y) (key x) then x :: y :: l'
               else y :: insert_desc key x l'
  end.

Definition order_by_desc {A} (key : A -> R) (l : list A) : list A :=
  foldr (insert_desc key) [] l.

(** Rounding to the nearest integer, ties away from zero: the rounding of
    PostgreSQL's [numeric]. *)
Definition round_half_away (x : R) : Z :=
  if Rle_dec 0 x then Int_part (x + 1 / 2) else (- Int_part (- x + 1 / 2))%Z.

(** The value a [DECIMAL(p, scale)] column stores for [x]: [x] rounded to
    [scale] decimals.  The values stored here are far below the precision
    [p] of their columns. *)
Definition to_decimal (scale : nat) (x : R) : R :=
  IZR (round_half_away (x * 10 ^ scale)) / 10 ^ scale.

(** SQL [MAX] over a group: NULL on the empty group. *)
Fixpoint MAX (l : list R) : option R :=
  match l with
  | [] => None
  | x :: l' => match MAX l' with
               | None => Some x
               | Some m => Some (Rmax x m)
               end
  end.

End Num.

(* ================================================================== *)
(** ** Cosine similarity over Go maps (matching/service.go) *)

Module Matching.
Import Num.
Open Scope R_scope.

(** [type SkillVector map[string]float64]. *)
Abbreviation SkillVector := (gmap string R).

(** [Service.GetVolunteerSkillVector]: [vector[skillID] = score] for each
    claimed row of the volunteer. *)
Definition GetVolunteerSkillVector (db : Database) (volunteerID : string) : SkillVector :=
  foldl (fun vector row =>
           if vs_claimed row then <[vs_skill_id row := vs_score row]> vector else vector)
        ∅
        (List.filter (fun row => bool_decide (vs_volunteer_id row = volunteerID) && vs_claimed row)
                     (volunteer_skills db)).

(** [Service.GetProjectSkillVector]. *)
Definition GetProjectSkillVector (db : Database) (projectID : string) : SkillVector :=
  foldl (fun vector row => <[ps_skill_id row := ps_weight row]> vector)
        ∅
        (List.filter (fun row => bool_decide (ps_project_id row = projectID))
                     (project_skills db)).

(** The first loop of [CosineSimilarity]: dot product and squared
    magnitude of [v1], accumulated together. *)
Definition dot_and_magnitude (v1 v2 : SkillVector) : R * R :=
  map_fold (fun skillID val1 (acc : R * R) =>
              let magnitude1 := snd acc + val1 * val1 in
              match v2 !! skillID with
              | Some val2 => (fst acc + val1 * val2, magnitude1)
              | None => (fst acc, magnitude1)
              end)
           (0, 0) v1.

(** The second loop: squared magnitude of [v2]. *)
Definition sum_squares (v : SkillVector) : R :=
  map_fold (fun _ val (acc : R) => acc + val * val) 0 v.

(** The clamp at the end of [CosineSimilarity]. *)
Definition clamp01 (similarity : R) : R :=
  if Rlt_dec similarity 0 then 0
  else if Rgt_dec similarity 1 then 1
  else similarity.

(** [CosineSimilarity]; [None] stands for a NaN or otherwise undefined
    [float64]. *)
Definition CosineSimilarity (v1 v2 : SkillVector) : option R :=
  if bool_decide (size v1 = 0%nat) || bool_decide (size v2 = 0%nat) then Some 0
  else
    let '(dotProduct, magnitude1) := dot_and_magnitude v1 v2 in
    let magnitude2 := sum_squares v2 in
    magnitude1 ← fsqrt magnitude1;
    magnitude2 ← fsqrt magnitude2;
    if bool_decide (magnitude1 = 0) || bool_decide (magnitude2 = 0) then Some 0
    else
      similarity ← fdiv dotProduct (magnitude1 * magnitude2);
      Some (clamp01 similarity).

(** The magnitude of a skill vector. *)
Definition magnitude (v : SkillVector) : R := sqrt (sum_squares v).

End Matching.

(* ================================================================== *)
(** ** The SQL functions of the migrations *)

Module Sql.
Import Num.
Open Scope R_scope.

(** [generate_series(a, b)]. *)
Definition generate_series (a b : Z) : list Z := seqZ a (b - a + 1).

(** Default of the [p_dimension] parameter of both vector builders. *)
Definition default_dimension : Z := 1000.

(** [haversine_distance_km(lat1, lon1, lat2, lon2)]. *)
Definition haversine_distance_km (lat1 lon1 lat2 lon2 : R) : R :=
  let earth_radius := 6371 in
  let dlat := RADIANS (lat2 - lat1) in
  let dlon := RADIANS (lon2 - lon1) in
  let a := sin (dlat / 2) * sin (dlat / 2) +
           cos (RADIANS lat1) * cos (RADIANS lat2) *
           sin (dlon / 2) * sin (dlon / 2) in
  let c := 2 * atan2 (sqrt a) (sqrt (1 - a)) in
  earth_radius * c.

(** The distance expression written inline in [refresh_all_matches]. *)
Definition inline_haversine (p_lat p_lon u_lat u_lon : R) : R :=
  6371 * 2 * asin (LEAST 1 (sqrt (
    (sin (RADIANS (p_lat - u_lat) / 2)) ^ 2 +
    cos (RADIANS u_lat) * cos (RADIANS p_lat) *
    (sin (RADIANS (p_lon - u_lon) / 2)) ^ 2))).

(** The rows behind a volunteer's vector:
    [FROM volunteer_skills vs
     WHERE vs.volunteer_id = p_volunteer_id AND vs.claimed = TRUE]. *)
Definition volunteer_claims (db : Database) (p_volunteer_id : string)
    : list VolunteerSkillRow :=
  List.filter (fun vs => bool_decide (vs_volunteer_id vs = p_volunteer_id) && vs_claimed vs)
              (volunteer_skills db).

(** The rows behind a project's vector:
    [FROM project_skills ps WHERE ps.project_id = p_project_id]. *)
Definition project_demands (db : Database) (p_project_id : string)
    : list ProjectSkillRow :=
  List.filter (fun ps => bool_decide (ps_project_id ps = p_project_id))
              (project_skills db).

(** CTE [all_positions] of both vector builders: one value per position of
    [generate_series(1, p_dimension)], the MAX of the values that fall on the
    position, 0 where none does. *)
Definition all_positions (skill_positions : list (Z * R)) (p_dimension : Z) : list R :=
  List.map (fun i =>
              default 0 (MAX (List.map snd
                (List.filter (fun sp => bool_decide (fst sp = i)) skill_positions))))
    (generate_series 1 p_dimension).

(** ['[' || string_agg(value::text, ',') || ']'] cast to [vector]: the
    aggregate of no rows is NULL. *)
Definition vector_of_values (values : list R) : option vector :=
  match values with
  | [] => None
  | _ => Some values
  end.

(** [LEFT JOIN volunteer_skill_vectors vsv ON vsv.volunteer_id = u.id]: the
    view holds at most one row per volunteer; no row gives NULL. *)
Definition vsv_lookup (db : Database) (uid : string) : option vector :=
  match List.find (fun r => bool_decide (vsv_volunteer_id r = uid))
                  (volunteer_skill_vectors db) with
  | Some r => vsv_skill_vector r
  | None => None
  end.

(** Rows returned by [find_matching_volunteers] (its RETURNS TABLE). *)
Record FoundRow := mkFound {
  r_volunteer_id : string;
  r_volunteer_name : string;
  r_email : string;
  r_skill_score : R;
  r_distance_km : R;
  r_combined_score : R;
  r_latitude : option R;
  r_longitude : option R;
  r_location_name : option string
}.

(** Rows of the CTE [volunteer_matches]. *)
Record VolunteerMatchRow := mkVM {
  vm_user : UserRow;
  vm_skill_similarity : R;
  vm_distance : option R
}.

(** Rows of the CTE [volunteer_project_combinations]. *)
Record Combination := mkComb {
  c_project_id : string;
  c_volunteer_id : string;
  c_p_location : option string;
  c_u_location : option string;
  c_skill_score : R;
  c_distance_km : R;
  c_matched_skills : list string
}.

(** [(p_location ILIKE '%name%' AND u_location ILIKE '%name%')], true only
    when both sides are non-NULL and match. *)
Definition both_ilike (p_location u_location : option string) (name : string) : bool :=
  match p_location, u_location with
  | Some p, Some u => Str.ilike_contains p name && Str.ilike_contains u name
  | _, _ => false
  end.

(** The WHEN condition of the Tier 2 CASE. *)
Definition national_exception (p_location u_location : option string) : bool :=
  both_ilike p_location u_location "Canada"
  || both_ilike p_location u_location "Ontario"
  || both_ilike p_location u_location "Alberta"
  || both_ilike p_location u_location "British Columbia"
  || both_ilike p_location u_location "Quebec"
  || both_ilike p_location u_location "Manitoba"
  || both_ilike p_location u_location "Saskatchewan"
  || both_ilike p_location u_location "Nova Scotia"
  || both_ilike p_location u_location "New Brunswick"
  || both_ilike p_location u_location "Newfoundland"
  || both_ilike p_location u_location "Prince Edward Island"
  || both_ilike p_location u_location "Northwest Territories"
  || both_ilike p_location u_location "Yukon"
  || both_ilike p_location u_location "Nunavut".

(** The [combined_score] column of [tiered_matches]. *)
Definition tiered_score (c : Combination) : R :=
  if national_exception (c_p_location c) (c_u_location c)
  then 0.7 * c_skill_score c + 0.3 * GREATEST 0 (1 - c_distance_km c / 100)
  else 0.4 * c_skill_score c + 0.6 * GREATEST 0 (1 - c_distance_km c / 100).

(** The select list of [tiered_matches]: the values as they are computed,
    in double precision. *)
Definition match_of (c : Combination) : MatchRecord :=
  {| project_id := c_project_id c;
     volunteer_id := c_volunteer_id c;
     skill_score := c_skill_score c;
     distance_km := c_distance_km c;
     combined_score := tiered_score c;
     matched_skills := c_matched_skills c |}.

(** The row [INSERT INTO project_volunteer_matches] stores for a selected
    row: [skill_score] and [combined_score] are DECIMAL(5,4) columns and
    [distance_km] is a DECIMAL(10,2) column, so the three values are rounded
    to 4, 2 and 4 decimals. *)
Definition stored_match (m : MatchRecord) : MatchRecord :=
  {| project_id := project_id m;
     volunteer_id := volunteer_id m;
     skill_score := to_decimal 4 (skill_score m);
     distance_km := to_decimal 2 (distance_km m);
     combined_score := to_decimal 4 (combined_score m);
     matched_skills := matched_skills m |}.

(** The Tier 1 sub-query
    [NOT EXISTS (SELECT 1 FROM volunteer_enrollments ve
                 WHERE ve.volunteer_id = u.id AND ve.project_id = p.id
                   AND ve.status = 'active')]. *)
Definition tier1_not_enrolled (db : Database) (u : UserRow) (p : ProjectRow) : bool :=
  negb (existsb (fun ve => bool_decide (VolunteerID ve = u_id u) &&
                           bool_decide (ProjectID ve = p_id p) &&
                           bool_decide (Status ve = "active"))
                (volunteer_enrollments db)).

(** The [matched_skills] array of a pair. *)
Definition matched_skill_names (db : Database) (u : UserRow) (p : ProjectRow) : list string :=
  flat_map (fun vs =>
    flat_map (fun ps =>
      flat_map (fun s =>
        if bool_decide (vs_skill_id vs = ps_skill_id ps) &&
           bool_decide (vs_skill_id vs = s_id s) &&
           bool_decide (vs_volunteer_id vs = u_id u) &&
           bool_decide (ps_project_id ps = p_id p) &&
           vs_claimed vs
        then [s_name s] else [])
        (skills db))
      (project_skills db))
    (volunteer_skills db).

Section Engine.
(** Primitives of the storage engine and its extensions: PostgreSQL's
    [hashtext], pgvector's cosine-distance operator [<=>] and PostGIS's
    [ST_Distance] (in metres). *)
Variable hashtext : string -> Z.
Variable cosine_distance : vector -> vector -> R.
Variable ST_Distance : R * R -> R * R -> R.

(** [get_volunteer_skill_vector(p_volunteer_id, p_dimension)].  The
    aggregate over an empty series (p_dimension < 1) is NULL. *)
Definition get_volunteer_skill_vector (db : Database) (p_volunteer_id : string)
    (p_dimension : Z) : option vector :=
  let skill_positions :=
    List.map (fun vs =>
                ((Z.abs (Z.rem (hashtext (vs_skill_id vs)) p_dimension) + 1)%Z,
                 vs_score vs))
      (volunteer_claims db p_volunteer_id) in
  vector_of_values (all_positions skill_positions p_dimension).

(** [get_project_skill_vector(p_project_id, p_dimension)]. *)
Definition get_project_skill_vector (db : Database) (p_project_id : string)
    (p_dimension : Z) : option vector :=
  let skill_positions :=
    List.map (fun ps =>
                ((Z.abs (Z.rem (hashtext (ps_skill_id ps)) p_dimension) + 1)%Z,
                 ps_weight ps))
      (project_demands db p_project_id) in
  vector_of_values (all_positions skill_positions p_dimension).

(** The query of the materialized view [volunteer_skill_vectors]; a refresh
    of the view stores its rows. *)
Definition volunteer_skill_vectors_query (db : Database) : list SkillVectorRow :=
  List.map (fun u => {| vsv_volunteer_id := u_id u;
                        vsv_skill_vector :=
                          get_volunteer_skill_vector db (u_id u) default_dimension |})
    (List.filter (fun u => bool_decide (u_role u = "volunteer")) (users db)).

(** The [skill_similarity] CASE of [find_matching_volunteers]. *)
Definition skill_similarity (skill_vector project_vector : option vector) : R :=
  match skill_vector, project_vector with
  | Some v, Some pv => 1 - cosine_distance v pv
  | _, _ => 0
  end.

(** The [distance] CASE of [find_matching_volunteers], in either branch. *)
Definition on_demand_distance (postgis : bool) (u : UserRow) (pi : ProjectRow) : option R :=
  if postgis then
    match u_location_point u, p_location_point pi with
    | Some up, Some pp => Some (ST_Distance up pp / 1000)
    | _, _ => None
    end
  else
    match u_latitude u, u_longitude u, p_latitude pi, p_longitude pi with
    | Some ulat, Some ulon, Some plat, Some plon =>
        Some (haversine_distance_km ulat ulon plat plon)
    | _, _, _, _ => None
    end.

(** CTE [volunteer_matches]: users CROSS JOIN project_info, volunteers
    only. *)
Definition volunteer_matches (db : Database) (p_project_id : string)
    : list VolunteerMatchRow :=
  let project_info :=
    List.filter (fun p => bool_decide (p_id p = p_project_id)) (projects db) in
  flat_map (fun u =>
    List.map (fun pi =>
      {| vm_user := u;
         vm_skill_similarity :=
           skill_similarity (vsv_lookup db (u_id u))
                            (get_project_skill_vector db (p_id pi) default_dimension);
         vm_distance := on_demand_distance (has_postgis db) u pi |})
      project_info)
    (List.filter (fun u => bool_decide (u_role u = "volunteer")) (users db)).

(** The proximity factor of the combined score. *)
Definition distance_factor (distance : option R) (p_max_distance_km : R) : R :=
  match distance with
  | Some d => if bool_decide (p_max_distance_km > 0)
              then GREATEST 0 (1 - d / p_max_distance_km)
              else 0.5
  | None => 0.5
  end.

(** The WHERE clause [vm.distance IS NULL OR vm.distance <= p_max_distance_km]. *)
Definition within_radius (p_max_distance_km : R) (vm : VolunteerMatchRow) : bool :=
  match vm_distance vm with
  | None => true
  | Some d => bool_decide (d <= p_max_distance_km)
  end.

Definition found_row (p_skill_weight p_distance_weight p_max_distance_km : R)
    (vm : VolunteerMatchRow) : FoundRow :=
  {| r_volunteer_id := u_id (vm_user vm);
     r_volunteer_name := u_name (vm_user vm);
     r_email := u_email (vm_user vm);
     r_skill_score := vm_skill_similarity vm;
     r_distance_km := default 0 (vm_distance vm);
     r_combined_score :=
       p_skill_weight * vm_skill_similarity vm +
       p_distance_weight * distance_factor (vm_distance vm) p_max_distance_km;
     r_latitude := u_latitude (vm_user vm);
     r_longitude := u_longitude (vm_user vm);
     r_location_name := u_location_name (vm_user vm) |}.

(** The ranking of [find_matching_volunteers] before LIMIT.  Both
    branches of the function differ only in the distance CASE. *)
Definition find_matching_volunteers_ranked (db : Database) (p_project_id : string)
    (p_skill_weight p_distance_weight p_max_distance_km : R) : list FoundRow :=
  order_by_desc r_combined_score
    (List.map (found_row p_skill_weight p_distance_weight p_max_distance_km)
       (List.filter (within_radius p_max_distance_km)
          (volunteer_matches db p_project_id))).

(** [find_matching_volunteers(p_project_id, p_skill_weight,
    p_distance_weight, p_max_distance_km, p_limit)]. *)
Definition find_matching_volunteers (db : Database) (p_project_id : string)
    (p_skill_weight p_distance_weight p_max_distance_km : R) (p_limit : Z)
    : string + list FoundRow :=
  if bool_decide (p_limit < 0)%Z then inl "pq: LIMIT must not be negative"
  else inr (take (Z.to_nat p_limit)
              (find_matching_volunteers_ranked db p_project_id
                 p_skill_weight p_distance_weight p_max_distance_km)).

(** CTE [volunteer_project_combinations] of [refresh_all_matches]. *)
Definition volunteer_project_combinations (db : Database) : list Combination :=
  flat_map (fun p =>
    flat_map (fun u =>
      if bool_decide (p_status p = "active") &&
         bool_decide (u_role u = "volunteer") &&
         bool_decide (is_Some (u_latitude u)) &&
         bool_decide (is_Some (u_longitude u)) &&
         tier1_not_enrolled db u p
      then
        [ {| c_project_id := p_id p;
             c_volunteer_id := u_id u;
             c_p_location := p_location_name p;
             c_u_location := u_location_name u;
             c_skill_score :=
               match vsv_lookup db (u_id u),
                     get_project_skill_vector db (p_id p) default_dimension with
               | Some v, Some pv => 1 - cosine_distance v pv
               | _, _ => 0
               end;
             c_distance_km :=
               match p_latitude p, p_longitude p, u_latitude u, u_longitude u with
               | Some plat, Some plon, Some ulat, Some ulon =>
                   inline_haversine plat plon ulat ulon
               | _, _, _, _ => 999999
               end;
             c_matched_skills := matched_skill_names db u p |} ]
      else [])
      (users db))
    (projects db).

(** CTE [tiered_matches]: the Tier 2 score, within the 500 km radius. *)
Definition tiered_matches (db : Database) : list MatchRecord :=
  List.map match_of
    (List.filter (fun c => bool_decide (c_distance_km c <= 500))
                 (volunteer_project_combinations db)).

(** [refresh_all_matches()]: the cache is emptied and refilled with the
    rows whose computed score is above the 0.1 threshold, best first, each
    stored with the scale of its columns; the result is the number of rows
    inserted. *)
Definition refresh_all_matches (db : Database) : Database * Z :=
  let rows :=
    List.map stored_match
      (order_by_desc combined_score
         (List.filter (fun m => bool_decide (combined_score m > 0.1))
                      (tiered_matches db))) in
  (set_matches db rows, Z.of_nat (length rows)).

End Engine.

End Sql.

(* ================================================================== *)
(** ** On-demand matching wrapper (matching/service.go) *)

Module Float64.

(** Go's [float64] is IEEE 754 binary64, the primitive type
    [PrimFloat.float]; [of_spec] is the real number a finite binary64 value
    stands for. *)
Definition of_spec (f : SpecFloat.spec_float) : option R :=
  match f with
  | SpecFloat.S754_zero _ => Some 0%R
  | SpecFloat.S754_finite s m e =>
      let x := if (0 <=? e)%Z then IZR (Z.pos m * 2 ^ e)
               else (IZR (Z.pos m) / IZR (2 ^ (- e)))%R in
      Some (if s then (- x)%R else x)
  | SpecFloat.S754_infinity _ | SpecFloat.S754_nan => None
  end.

(** The value of a [float64] argument as the query reads it; [None] for a
    NaN or an infinity, which the model of the query has no place for. *)
Definition to_R (f : PrimFloat.float) : option R := of_spec (FloatOps.Prim2SF f).

End Float64.

Module OnDemand.
Import Num Sql.
Open Scope R_scope.

(** The end of [findMatchingVolunteersOnDemand]: a query error is wrapped,
    otherwise every row is scanned and appended. *)
Definition scan_rows (result : string + list FoundRow) : string + list FoundRow :=
  match result with
  | inl err => inl ("failed to find matches: " ++ err)
  | inr rows => inr rows
  end.

Section Engine.
Variable hashtext : string -> Z.
Variable cosine_distance : vector -> vector -> R.
Variable ST_Distance : R * R -> R * R -> R.

(** [Service.findMatchingVolunteersOnDemand].  The weights and the radius
    are [float64] values and the normalisation is done in [float64]; the
    query then reads the three numbers.  The outer [None] is an argument of
    the query that is a NaN or an infinity (the two weights cancel, or one is
    not finite); [inl] is the Go error.  The rows are the scanned columns;
    [MatchedSkills] is display only and left out. *)
Definition findMatchingVolunteersOnDemand (db : Database) (projectID : string)
    (skillWeight distanceWeight maxDistanceKm : PrimFloat.float) (limit : Z)
    : option (string + list FoundRow) :=
  let '(skillWeight, distanceWeight) :=
    if PrimFloat.eqb skillWeight 0 && PrimFloat.eqb distanceWeight 0
    then (0.7%float, 0.3%float) else (skillWeight, distanceWeight) in
  let totalWeight := PrimFloat.add skillWeight distanceWeight in
  let skillWeight := PrimFloat.div skillWeight totalWeight in
  let distanceWeight := PrimFloat.div distanceWeight totalWeight in
  let maxDistanceKm := if PrimFloat.eqb maxDistanceKm 0 then 100%float else maxDistanceKm in
  let limit := if bool_decide (limit = 0%Z) then 20%Z else limit in
  p_skill_weight ← Float64.to_R skillWeight;
  p_distance_weight ← Float64.to_R distanceWeight;
  p_max_distance_km ← Float64.to_R maxDistanceKm;
  Some (scan_rows (find_matching_volunteers hashtext cosine_distance ST_Distance
                     db projectID p_skill_weight p_distance_weight
                     p_max_distance_km limit)).

End Engine.

End OnDemand.

(* ================================================================== *)
(** ** Reference data for the examples *)

Module Ref.
Import Num Sql.
Open Scope R_scope.

(** Modelled from the spec: the skill position is "a deterministic hash of
    its id"; PostgreSQL's [hashtext] itself is not part of the repository.
    This instance adds the character codes of the id. *)
Fixpoint ref_hashtext (s : string) : Z :=
  match s with
  | EmptyString => 0%Z
  | String c s' => (Z.of_nat (nat_of_ascii c) + ref_hashtext s')%Z
  end.

Fixpoint dot (v1 v2 : vector) : R :=
  match v1, v2 with
  | x :: v1', y :: v2' => x * y + dot v1' v2'
  | _, _ => 0
  end.

(** Modelled from the spec: pgvector's [<=>] is not part of the repository;
    the spec has [cosine(v1, v2) = dot(v1,v2) / (|v1| * |v2|)], 0 when
    either magnitude is zero, and the operator is one minus it. *)
Definition ref_cosine_distance (v1 v2 : vector) : R :=
  let n1 := sqrt (dot v1 v1) in
  let n2 := sqrt (dot v2 v2) in
  if bool_decide (n1 = 0) || bool_decide (n2 = 0) then 1
  else 1 - dot v1 v2 / (n1 * n2).

(** Modelled from the spec: PostGIS's [ST_Distance] is not part of the
    repository; the spec lets a geodesic backend stand in for the haversine
    distance.  Points are (longitude, latitude); the result is in metres. *)
Definition ref_ST_Distance (a b : R * R) : R :=
  1000 * haversine_distance_km (snd a) (fst a) (snd b) (fst b).

(** The ids of the examples are short names that stand for UUIDs.  This
    instance of the server's check accepts the texts made of letters and
    digits and refuses every other text. *)
Definition is_alnum (c : ascii) : bool :=
  let n := nat_of_ascii c in
  ((48 <=? n) && (n <=? 57) || (65 <=? n) && (n <=? 90) || (97 <=? n) && (n <=? 122))%nat.

Definition ref_uuid_in (text : string) : bool :=
  negb (String.eqb text "") && forallb is_alnum (list_ascii_of_string text).

(** One active project and one volunteer at the same place in Toronto. *)
Definition toronto_project : ProjectRow :=
  {| p_id := "p1"; p_name := "Community Garden";
     p_latitude := Some 43; p_longitude := Some (-79);
     p_location_name := Some "Toronto, Ontario, Canada";
     p_location_point := None; p_status := "active" |}.

Definition toronto_volunteer : UserRow :=
  {| u_id := "v1"; u_name := "Vera"; u_email := "vera@volunteers.org";
     u_role := "volunteer";
     u_latitude := Some 43; u_longitude := Some (-79);
     u_location_name := Some "Toronto, Ontario, Canada";
     u_location_point := None |}.

(** A volunteer who never gave a location. *)
Definition nowhere_volunteer : UserRow :=
  {| u_id := "v2"; u_name := "Noor"; u_email := "noor@volunteers.org";
     u_role := "volunteer";
     u_latitude := None; u_longitude := None;
     u_location_name := None; u_location_point := None |}.

Definition coordinator : UserRow :=
  {| u_id := "c1"; u_name := "Cleo"; u_email := "coordinator@civicweave.org";
     u_role := "coordinator";
     u_latitude := None; u_longitude := None;
     u_location_name := None; u_location_point := None |}.

Definition enrollment_of (id v p status : string) : Enrollment :=
  {| ID := id; VolunteerID := v; ProjectID := p; Status := status;
     InitiatedBy := v; Message := None; ResponseMessage := None;
     CreatedAt := 0; UpdatedAt := 0; ApprovedAt := None; CompletedAt := None |}.

(** No enrollment yet. *)
Definition db_fresh : Database :=
  {| users := [toronto_volunteer; nowhere_volunteer; coordinator];
     projects := [toronto_project];
     skills := []; volunteer_skills := []; project_skills := [];
     volunteer_skill_vectors := [];
     volunteer_enrollments := [];
     project_volunteer_matches := [];
     has_postgis := false |}.


(** A volunteer due north of the project, at 0.7494 degrees of latitude
    (about 83.33 km), whose location names no region. *)
Definition far_volunteer : UserRow :=
  {| u_id := "v3"; u_name := "Bea"; u_email := "bea@volunteers.org";
     u_role := "volunteer";
     u_latitude := Some 43.7494; u_longitude := Some (-79);
     u_location_name := Some "Beaverton";
     u_location_point := None |}.

Definition db_threshold : Database :=
  {| users := [far_volunteer];
     projects := [toronto_project];
     skills := []; volunteer_skills := []; project_skills := [];
     volunteer_skill_vectors := [];
     volunteer_enrollments := [];
     project_volunteer_matches := [];
     has_postgis := false |}.

(** The volunteer "v1" has one enrollment on "p1" in the given status. *)
Definition db_with (status : string) : Database :=
  set_enrollments db_fresh [enrollment_of "e1" "v1" "p1" status].

(** The volunteer "v1" claims the skills "ab" (0.5) and "ba" (0.8), which
    [ref_hashtext] sends to the same position, and holds "zz" unclaimed. *)
Definition db_skilled : Database :=
  {| users := [toronto_volunteer; nowhere_volunteer; coordinator];
     projects := [toronto_project];
     skills := [ {| s_id := "ab"; s_name := "Python" |};
                 {| s_id := "ba"; s_name := "Teaching" |};
                 {| s_id := "zz"; s_name := "React" |} ];
     volunteer_skills :=
       [ {| vs_volunteer_id := "v1"; vs_skill_id := "ab"; vs_claimed := true; vs_score := 0.5 |};
         {| vs_volunteer_id := "v1"; vs_skill_id := "ba"; vs_claimed := true; vs_score := 0.8 |};
         {| vs_volunteer_id := "v1"; vs_skill_id := "zz"; vs_claimed := false; vs_score := 1 |} ];
     project_skills :=
       [ {| ps_project_id := "p1"; ps_skill_id := "ab"; ps_required := true; ps_weight := 0.9 |} ];
     volunteer_skill_vectors := [];
     volunteer_enrollments := [];
     project_volunteer_matches := [];
     has_postgis := false |}.

End Ref.

(* ================================================================== *)
(** ** The specification's tables, for comparison with the code *)

Module Spec.
Open Scope R_scope.

(** The transition table of the enrollment state machine:
    (from, action, to). *)
Definition transition_table : list (string * string * string) :=
  [ ("requested", "accept", "enrolled");
    ("requested", "reject", "tl_rejected");
    ("requested", "withdraw", "v_rejected");
    ("invited", "accept", "enrolled");
    ("invited", "reject", "v_rejected") ].

Definition transition (from action : string) : option string :=
  match List.find (fun row => bool_decide (row.1.1 = from) && bool_decide (row.1.2 = action))
                  transition_table with
  | Some row => Some row.2
  | None => None
  end.

(** The status an initiating action creates. *)
Definition initial_status (action : string) : option string :=
  if bool_decide (action = "request") then Some "requested"
  else if bool_decide (action = "invite") then Some "invited"
  else None.

Definition terminal_statuses : list string := ["enrolled"; "tl_rejected"; "v_rejected"].
Definition transition_actions : list string := ["accept"; "reject"; "withdraw"].

(** The configured region names of the regional override. *)
Definition designated_regions : list string :=
  [ "Canada"; "Ontario"; "Alberta"; "British Columbia"; "Quebec"; "Manitoba";
    "Saskatchewan"; "Nova Scotia"; "New Brunswick"; "Newfoundland";
    "Prince Edward Island"; "Northwest Territories"; "Yukon"; "Nunavut" ].

(** The region policy: some configured name occurs, whatever the case, in
    both location strings. *)
Definition same_designated_region (task_location seeker_location : option string) : bool :=
  match task_location, seeker_location with
  | Some t, Some s =>
      existsb (fun name => Str.ilike_contains t name && Str.ilike_contains s name)
              designated_regions
  | _, _ => false
  end.

(** The weights the scoring gets for the weights supplied: 0.7 and 0.3
    stand in when both are zero, and each weight is divided by their sum,
    in [float64]. *)
Definition normalised_weights (ws wd : PrimFloat.float)
    : PrimFloat.float * PrimFloat.float :=
  let '(ws, wd) :=
    if PrimFloat.eqb ws 0 && PrimFloat.eqb wd 0 then (0.7%float, 0.3%float) else (ws, wd) in
  (PrimFloat.div ws (PrimFloat.add ws wd), PrimFloat.div wd (PrimFloat.add ws wd)).

(** [ws * skill_score + wd * max(0, 1 - distance_km / 100)]. *)
Definition combined (ws wd skill_score distance_km : R) : R :=
  ws * skill_score + wd * Rmax 0 (1 - distance_km / 100).

(** The slot of a skill in a vector of dimension [D]: its hash modulo [D],
    counted from 0. *)
Definition slot (hash : string -> Z) (D : Z) (skill_id : string) : Z :=
  (Z.abs (hash skill_id) mod D)%Z.

(** The value of a slot on which the values [group] fall: their maximum, or
    0 when there is none. *)
Definition slot_value (group : list R) (x : R) : Prop :=
  match group with
  | [] => x = 0
  | _ => In x group /\ Forall (fun y => y <= x) group
  end.

(** A seeker with no known location: latitude or longitude is missing, and
    no geography point was derived from them. *)
Definition no_known_location (u : UserRow) : Prop :=
  (u_latitude u = None \/ u_longitude u = None) /\ u_location_point u = None.

End Spec.

(* ================================================================== *)
(** ** Constraints of the enrollment table *)

Module Constraints.
Import EnrollmentService.

(** The key of the UNIQUE(volunteer_id, project_id) index. *)
Definition pair_of (e : Enrollment) : string * string := (VolunteerID e, ProjectID e).

(** PRIMARY KEY (id). *)
Definition enrollments_pkey (db : Database) : Prop :=
  NoDup (List.map ID (volunteer_enrollments db)).

(** UNIQUE(volunteer_id, project_id). *)
Definition enrollments_pair_key (db : Database) : Prop :=
  NoDup (List.map pair_of (volunteer_enrollments db)).

(** The three REFERENCES clauses. *)
Definition enrollments_fkeys (db : Database) : Prop :=
  Forall (fun e => has_user db (VolunteerID e) = true /\
                   has_project db (ProjectID e) = true /\
                   has_user db (InitiatedBy e) = true)
         (volunteer_enrollments db).

(** PRIMARY KEY (id) of [users] and of [projects]. *)
Definition users_pkey (db : Database) : Prop := NoDup (List.map u_id (users db)).
Definition projects_pkey (db : Database) : Prop := NoDup (List.map p_id (projects db)).

(** All constraints of [volunteer_enrollments] together. *)
Definition enrollment_constraints (db : Database) : Prop :=
  enrollments_pkey db /\ enrollments_pair_key db /\
  enrollments_fkeys db /\ chk_enrollment_status db.

(** The approved timestamp is set on the enrolled rows and on no other. *)
Definition approved_iff_enrolled (db : Database) : Prop :=
  Forall (fun e => is_Some (ApprovedAt e) <-> Status e = "enrolled")
         (volunteer_enrollments db).

(** A call of [UpdateEnrollmentStatus]: time of the call, id, action and
    response message. *)
Record TransitionCall := mkCall {
  call_now : Z;
  call_id : string;
  call_action : string;
  call_response : string
}.

(** A sequence of calls of [UpdateEnrollmentStatus], each on the database
    the previous one left. *)
Definition run_transitions (uuid_in : string -> bool) (db : Database)
    (calls : list TransitionCall) : Database :=
  foldl (fun db c =>
           (UpdateEnrollmentStatus uuid_in db (call_now c) (call_id c)
              (call_action c) (call_response c)).1)
        db calls.

End Constraints.

(* ================================================================== *)
(** ** Enrollment listings (enrollment/service.go) *)

Module EnrollmentQueries.

(** [models.EnrollmentWithDetails]. *)
Record EnrollmentWithDetails := mkDetails {
  d_Enrollment : Enrollment;
  VolunteerName : string;
  VolunteerEmail : string;
  ProjectName : string;
  InitiatedByName : string
}.

(** The select list of both listings, for an enrollment whose volunteer,
    project and initiator rows are [u], [p] and [initiator]. *)
Definition details_of (ve : Enrollment) (u : UserRow) (p : ProjectRow) (initiator : UserRow)
    : EnrollmentWithDetails :=
  {| d_Enrollment := ve;
     VolunteerName := u_name u;
     VolunteerEmail := u_email u;
     ProjectName := p_name p;
     InitiatedByName := u_name initiator |}.

(** [ORDER BY ve.created_at DESC]: a stable insertion sort on the
    timestamp. *)
Fixpoint insert_newest (x : EnrollmentWithDetails) (l : list EnrollmentWithDetails)
    : list EnrollmentWithDetails :=
  match l with
  | [] => [x]
  | y :: l' =>
      if (CreatedAt (d_Enrollment y) <? CreatedAt (d_Enrollment x))%Z
      then x :: y :: l'
      else y :: insert_newest x l'
  end.

Definition newest_first (l : list EnrollmentWithDetails) : list EnrollmentWithDetails :=
  foldr insert_newest [] l.

(** The FROM clause shared by both listings:
    [volunteer_enrollments ve
     JOIN users u ON u.id = ve.volunteer_id
     JOIN projects p ON p.id = ve.project_id
     JOIN users initiator ON initiator.id = ve.initiated_by]. *)
Definition joined_enrollments (db : Database) : list EnrollmentWithDetails :=
  flat_map (fun ve =>
    flat_map (fun u =>
      flat_map (fun p =>
        flat_map (fun initiator =>
          if bool_decide (u_id u = VolunteerID ve) &&
             bool_decide (p_id p = ProjectID ve) &&
             bool_decide (u_id initiator = InitiatedBy ve)
          then [details_of ve u p initiator]
          else [])
          (users db))
        (projects db))
      (users db))
    (volunteer_enrollments db).

(** [Service.GetProjectEnrollments]. *)
Definition GetProjectEnrollments (db : Database) (projectID : string)
    : list EnrollmentWithDetails :=
  newest_first
    (List.filter (fun d => bool_decide (ProjectID (d_Enrollment d) = projectID))
                 (joined_enrollments db)).

(** [Service.GetVolunteerEnrollments]. *)
Definition GetVolunteerEnrollments (db : Database) (volunteerID : string)
    : list EnrollmentWithDetails :=
  newest_first
    (List.filter (fun d => bool_decide (VolunteerID (d_Enrollment d) = volunteerID))
                 (joined_enrollments db)).

(** Newest first: no row is older than one that follows it. *)
Definition not_older (a b : EnrollmentWithDetails) : Prop :=
  (CreatedAt (d_Enrollment b) <= CreatedAt (d_Enrollment a))%Z.

End EnrollmentQueries.

(* ================================================================== *)
(** ** Great-circle distance in Go (matching/service.go) *)

Module Geo.
Import Num.
Open Scope R_scope.

(** The haversine term [a] of two points given in radians. *)
Definition haversine_a (lat1Rad lon1Rad lat2Rad lon2Rad : R) : R :=
  let dLat := lat2Rad - lat1Rad in
  let dLon := lon2Rad - lon1Rad in
  sin (dLat / 2) * sin (dLat / 2) +
  cos lat1Rad * cos lat2Rad * sin (dLon / 2) * sin (dLon / 2).

(** [HaversineDistance]; [None] stands for a NaN ([math.Sqrt] of a negative
    number). *)
Definition HaversineDistance (lat1 lon1 lat2 lon2 : R) : option R :=
  let earthRadiusKm := 6371 in
  let lat1Rad := lat1 * PI / 180 in
  let lon1Rad := lon1 * PI / 180 in
  let lat2Rad := lat2 * PI / 180 in
  let lon2Rad := lon2 * PI / 180 in
  let a := haversine_a lat1Rad lon1Rad lat2Rad lon2Rad in
  sqrt_a ← fsqrt a;
  sqrt_1a ← fsqrt (1 - a);
  let c := 2 * atan2 sqrt_a sqrt_1a in
  Some (earthRadiusKm * c).

End Geo.

(* ================================================================== *)
(** ** Reading the match cache (006_batch_matching and matching/service.go) *)

Module Cache.
Import Num Sql OnDemand.
Open Scope R_scope.

(** [models.VolunteerMatch]; also the columns of [get_project_matches], in
    the order they are scanned. *)
Record VolunteerMatch := mkVolunteerMatch {
  VM_VolunteerID : string;
  VM_VolunteerName : string;
  VM_Email : string;
  VM_SkillScore : R;
  VM_DistanceKm : R;
  VM_CombinedScore : R;
  VM_MatchedSkills : list string;
  VM_Latitude : option R;
  VM_Longitude : option R;
  VM_LocationName : option string
}.

(** [models.ProjectMatch]; also the columns of [get_volunteer_matches]. *)
Record ProjectMatch := mkProjectMatch {
  PM_ProjectID : string;
  PM_ProjectName : string;
  PM_SkillScore : R;
  PM_DistanceKm : R;
  PM_CombinedScore : R;
  PM_MatchedSkills : list string;
  PM_Latitude : option R;
  PM_Longitude : option R;
  PM_LocationName : option string
}.

(** The select list of [get_project_matches] for a cache row and its user. *)
Definition volunteer_match_of (pvm : MatchRecord) (u : UserRow) : VolunteerMatch :=
  {| VM_VolunteerID := u_id u;
     VM_VolunteerName := u_name u;
     VM_Email := u_email u;
     VM_SkillScore := skill_score pvm;
     VM_DistanceKm := distance_km pvm;
     VM_CombinedScore := combined_score pvm;
     VM_MatchedSkills := matched_skills pvm;
     VM_Latitude := u_latitude u;
     VM_Longitude := u_longitude u;
     VM_LocationName := u_location_name u |}.

(** The select list of [get_volunteer_matches] for a cache row and its
    project. *)
Definition project_match_of (pvm : MatchRecord) (p : ProjectRow) : ProjectMatch :=
  {| PM_ProjectID := p_id p;
     PM_ProjectName := p_name p;
     PM_SkillScore := skill_score pvm;
     PM_DistanceKm := distance_km pvm;
     PM_CombinedScore := combined_score pvm;
     PM_MatchedSkills := matched_skills pvm;
     PM_Latitude := p_latitude p;
     PM_Longitude := p_longitude p;
     PM_LocationName := p_location_name p |}.

(** [LIMIT n] on a query result: a negative [n] is an error. *)
Definition sql_limit {A} (n : Z) (rows : list A) : string + list A :=
  if bool_decide (n < 0)%Z then inl "pq: LIMIT must not be negative"
  else inr (take (Z.to_nat n) rows).

(** The rows of [get_project_matches] before LIMIT:
    [FROM project_volunteer_matches pvm JOIN users u ON u.id = pvm.volunteer_id
     WHERE pvm.project_id = p_project_id ORDER BY pvm.combined_score DESC]. *)
Definition project_matches_ranked (db : Database) (p_project_id : string)
    : list VolunteerMatch :=
  order_by_desc VM_CombinedScore
    (flat_map (fun pvm =>
       flat_map (fun u =>
         if bool_decide (u_id u = volunteer_id pvm) &&
            bool_decide (project_id pvm = p_project_id)
         then [volunteer_match_of pvm u] else [])
         (users db))
       (project_volunteer_matches db)).

(** [get_project_matches(p_project_id, p_limit)]. *)
Definition get_project_matches (db : Database) (p_project_id : string) (p_limit : Z)
    : string + list VolunteerMatch :=
  sql_limit p_limit (project_matches_ranked db p_project_id).

(** The rows of [get_volunteer_matches] before LIMIT:
    [FROM project_volunteer_matches pvm JOIN projects p ON p.id = pvm.project_id
     WHERE pvm.volunteer_id = p_volunteer_id AND p.status = 'active'
     ORDER BY pvm.combined_score DESC]. *)
Definition volunteer_matches_ranked (db : Database) (p_volunteer_id : string)
    : list ProjectMatch :=
  order_by_desc PM_CombinedScore
    (flat_map (fun pvm =>
       flat_map (fun p =>
         if bool_decide (p_id p = project_id pvm) &&
            bool_decide (volunteer_id pvm = p_volunteer_id) &&
            bool_decide (p_status p = "active")
         then [project_match_of pvm p] else [])
         (projects db))
       (project_volunteer_matches db)).

(** [get_volunteer_matches(p_volunteer_id, p_limit)]. *)
Definition get_volunteer_matches (db : Database) (p_volunteer_id : string) (p_limit : Z)
    : string + list ProjectMatch :=
  sql_limit p_limit (volunteer_matches_ranked db p_volunteer_id).


(** ORDER BY p.name under the collation of the database, given as its strict
    order [name_lt]: a stable insertion sort. *)
Fixpoint insert_by_name (name_lt : string -> string -> bool) (x : ProjectMatch)
    (l : list ProjectMatch) : list ProjectMatch :=
  match l with
  | [] => [x]
  | y :: l' => if name_lt (PM_ProjectName x) (PM_ProjectName y) then x :: y :: l'
               else y :: insert_by_name name_lt x l'
  end.

(** What [FindMatchingProjects] returns: the rows read from the cache, or
    the result of the on-demand fallback. *)
Inductive ProjectMatches :=
| ProjectsFromCache (matches : list ProjectMatch)
| ProjectsFromFallback (result : string + list ProjectMatch).

Section Engine.
Variable hashtext : string -> Z.
Variable cosine_distance : vector -> vector -> R.
Variable ST_Distance : R * R -> R * R -> R.
(** The strict order of project names under the collation of the database. *)
Variable name_lt : string -> string -> bool.


(** [Service.findMatchingProjectsOnDemand]: the active projects by name, each
    with the scores 0.5, 0.0 and 0.5. *)
Definition findMatchingProjectsOnDemand (db : Database) (volunteerID : string)
    (skillWeight distanceWeight maxDistanceKm : PrimFloat.float) (limit : Z)
    : string + list ProjectMatch :=
  let limit := if bool_decide (limit = 0%Z) then 20%Z else limit in
  match sql_limit limit
          (foldr (insert_by_name name_lt) []
             (List.map (fun p => {| PM_ProjectID := p_id p;
                                    PM_ProjectName := p_name p;
                                    PM_SkillScore := 0.5;
                                    PM_DistanceKm := 0;
                                    PM_CombinedScore := 0.5;
                                    PM_MatchedSkills := [];
                                    PM_Latitude := p_latitude p;
                                    PM_Longitude := p_longitude p;
                                    PM_LocationName := p_location_name p |})
                (List.filter (fun p => bool_decide (p_status p = "active"))
                             (projects db)))) with
  | inl err => inl ("failed to find project matches: " ++ err)
  | inr rows => inr rows
  end.

(** [Service.FindMatchingProjects]. *)
Definition FindMatchingProjects (engine_error : option string) (db : Database)
    (volunteerID : string) (skillWeight distanceWeight maxDistanceKm : PrimFloat.float)
    (limit : Z) : ProjectMatches :=
  let limit := if bool_decide (limit = 0%Z) then 20%Z else limit in
  match engine_error, get_volunteer_matches db volunteerID limit with
  | None, inr rows => ProjectsFromCache rows
  | _, _ =>
      ProjectsFromFallback
        (findMatchingProjectsOnDemand db volunteerID
           skillWeight distanceWeight maxDistanceKm limit)
  end.

(** [REFRESH MATERIALIZED VIEW volunteer_skill_vectors], the statement of
    [Service.RefreshSkillVectors]. *)
Definition RefreshSkillVectors (db : Database) : Database :=
  {| users := users db; projects := projects db; skills := skills db;
     volunteer_skills := volunteer_skills db;
     project_skills := project_skills db;
     volunteer_skill_vectors := volunteer_skill_vectors_query hashtext db;
     volunteer_enrollments := volunteer_enrollments db;
     project_volunteer_matches := project_volunteer_matches db;
     has_postgis := has_postgis db |}.

End Engine.

(** Best first: no row scores below one that follows it. *)
Definition ranked {A} (score : A -> R) (l : list A) : Prop :=
  Sorted.StronglySorted (fun a b => score b <= score a) l.

(** The key of the UNIQUE(project_id, volunteer_id) constraint of the cache. *)
Definition match_key (m : MatchRecord) : string * string := (project_id m, volunteer_id m).

(** The same key on a row of the CTE [volunteer_project_combinations]. *)
Definition comb_key (c : Combination) : string * string :=
  (c_project_id c, c_volunteer_id c).

(** The columns a cached row and the row served for it share. *)
Definition served_columns (r : VolunteerMatch) : string * R * R * R :=
  (VM_VolunteerID r, VM_SkillScore r, VM_DistanceKm r, VM_CombinedScore r).

Definition cached_columns (m : MatchRecord) : string * R * R * R :=
  (volunteer_id m, skill_score m, distance_km m, combined_score m).

(** The foreign key [volunteer_id REFERENCES users(id)] of the cache. *)
Definition matches_fkey (db : Database) : Prop :=
  Forall (fun m => exists u, In u (users db) /\ u_id u = volunteer_id m)
         (project_volunteer_matches db).

End Cache.

Module MatchedSkills.
Import Num Matching.
Open Scope R_scope.

(** The term a skill of [v1] with value [x] adds to the dot product. *)
Definition dot_term (v2 : gmap string R) (i : string) (x : R) : R :=
  match v2 !! i with Some y => x * y | None => 0 end.

(** [getMatchedSkills]: the skill ids of [v1] that exist in [v2], in the
    order the map [v1] is ranged over. *)
Definition getMatchedSkills (v1 v2 : SkillVector) : list string :=
  map_fold (fun skillID (_ : R) (matched : list string) =>
              match v2 !! skillID with
              | Some _ => (matched ++ [skillID])%list
              | None => matched
              end)
           [] v1.

(** The claimed rows of a volunteer for one skill, in table order. *)
Definition claims_of_skill (db : Database) (volunteerID skillID : string)
    : list VolunteerSkillRow :=
  List.filter (fun row => bool_decide (vs_skill_id row = skillID))
    (List.filter (fun row => bool_decide (vs_volunteer_id row = volunteerID) && vs_claimed row)
                 (volunteer_skills db)).

(** The demand rows of a project for one skill, in table order. *)
Definition demands_of_skill (db : Database) (projectID skillID : string)
    : list ProjectSkillRow :=
  List.filter (fun row => bool_decide (ps_skill_id row = skillID))
    (List.filter (fun row => bool_decide (ps_project_id row = projectID))
                 (project_skills db)).

End MatchedSkills.

Module SortMatches.
Import Num Cache.
Open Scope R_scope.

(** [matches[i], matches[j] = matches[j], matches[i]]; an index out of range
    panics in Go and leaves the slice as it is here. *)
Definition swap (matches : list VolunteerMatch) (i j : nat) : list VolunteerMatch :=
  match matches !! i, matches !! j with
  | Some mi, Some mj => <[i:=mj]> (<[j:=mi]> matches)
  | _, _ => matches
  end.

(** The body of the inner loop of [sortMatchesByScore]. *)
Definition compare_and_swap (i : nat) (matches : list VolunteerMatch) (j : nat)
    : list VolunteerMatch :=
  match matches !! j, matches !! i with
  | Some mj, Some mi =>
      if Rgt_dec (VM_CombinedScore mj) (VM_CombinedScore mi)
      then swap matches i j else matches
  | _, _ => matches
  end.

(** [for j := i + 1; j < len(matches); j++]. *)
Definition inner_loop (matches : list VolunteerMatch) (i : nat) : list VolunteerMatch :=
  foldl (compare_and_swap i) matches (seq (i + 1) (length matches - (i + 1))).

(** [sortMatchesByScore]: [for i := 0; i < len(matches)-1; i++]. *)
Definition sortMatchesByScore (matches : list VolunteerMatch) : list VolunteerMatch :=
  foldl inner_loop matches (seq 0 (length matches - 1)).

(** Position [a] holds a row that no later row outscores. *)
Definition settled (matches : list VolunteerMatch) (a : nat) : Prop :=
  forall b x y, (a < b)%nat -> matches !! a = Some x -> matches !! b = Some y ->
                VM_CombinedScore y <= VM_CombinedScore x.

End SortMatches.

(* ================================================================== *)
(** * Properties *)

(** ** Enrollment state machine *)

Section EnrollmentFacts.
Import EnrollmentService.

Variable uuid_in : string -> bool.

Lemma find_after_update now id s r rows e :
  List.find (fun e => bool_decide (ID e = id)) rows = Some e ->
  List.find (fun e => bool_decide (ID e = id)) (update_where_id now id s r rows)
    = Some (update_row now s r e).
Proof.
  induction rows as [|x rows IH]; simpl; [discriminate|].
  destruct (bool_decide (ID x = id)) eqn:Hx.
  - intros [= ->]. simpl. by rewrite Hx.
  - intros H. simpl. rewrite Hx. by apply IH.
Qed.

Lemma rows_affected_found id rows e :
  List.find (fun e => bool_decide (ID e = id)) rows = Some e ->
  (rows_affected id rows =? 0)%nat = false.
Proof.
  unfold rows_affected.
  induction rows as [|x rows IH]; simpl; [discriminate|].
  destruct (bool_decide (ID x = id)); [reflexivity|]. exact IH.
Qed.

(** The server refuses the UPDATE: [$2] is given the type of the status
    column and the type of the string literal. *)
Lemma update_statement_refused :
  Pg.prepare update_status_uses =
  Some "pq: inconsistent types deduced for parameter $2".
Proof. reflexivity. Qed.

(** The outcome of [UpdateEnrollmentStatus] on every input: the database it
    was given and an error. *)
Lemma update_outcome db now id action resp :
  UpdateEnrollmentStatus uuid_in db now id action resp =
  (db, Some (if uuid_in id then
               match find_enrollment db id with
               | None => "enrollment not found"
               | Some e =>
                   match next_status (Status e) action with
                   | inl err => err
                   | inr _ => update_refused_error
                   end
               end
             else "failed to get current status: " ++ Pg.invalid_uuid id)).
Proof.
  unfold UpdateEnrollmentStatus. destruct (uuid_in id); simpl; [|done].
  destruct (find_enrollment db id) as [e|]; [|done].
  destruct (next_status (Status e) action); reflexivity.
Qed.

(** A failed guard leaves the database as it was. *)
Lemma update_status_err db now id action resp e err :
  uuid_in id = true ->
  find_enrollment db id = Some e ->
  next_status (Status e) action = inl err ->
  UpdateEnrollmentStatus uuid_in db now id action resp = (db, Some err).
Proof. intros Hu Hf Hn. by rewrite update_outcome, Hu, Hf, Hn. Qed.

(** The guard of the code agrees with the table of the specification on
    every pair of strings. *)
Lemma next_status_table from action :
  match Spec.transition from action with
  | Some to => next_status from action = inr to
  | None => exists err, next_status from action = inl err
  end.
Proof.
  unfold Spec.transition, Spec.transition_table, next_status; simpl.
  repeat (case_bool_decide; simplify_eq; simpl; eauto).
Qed.

Lemma create_ok db now uuid v p action msg by_ s :
  insertable db uuid v p by_ ->
  Spec.initial_status action = Some s ->
  exists e,
    CreateEnrollment db now uuid v p action msg by_ =
      (set_enrollments db (volunteer_enrollments db ++ [e]), inr e) /\
    ID e = uuid /\ VolunteerID e = v /\ ProjectID e = p /\ Status e = s /\
    ApprovedAt e = None.
Proof.
  intros (Hid & Hpair & Hv & Hp & Hby) Hs.
  unfold CreateEnrollment, insert_enrollment, Spec.initial_status in *.
  rewrite Hid, Hpair, Hv, Hp, Hby; simpl.
  repeat case_bool_decide; simplify_eq; simpl; eexists; (split; [reflexivity|]); done.
Qed.

End EnrollmentFacts.

Section EnrollmentClaims.
Import EnrollmentService.

Variable uuid_in : string -> bool.

(** C2.  The code against the claim.  On a stored row the guard of
    [UpdateEnrollmentStatus] computes the status the table of the
    specification lists (accept on requested or invited gives enrolled,
    reject on requested gives tl_rejected, reject on invited gives
    v_rejected, withdraw on requested gives v_rejected), but the UPDATE that
    should store it never runs: its placeholder [$2] is assigned to the
    VARCHAR status column and compared with a string literal, the statement
    is sent without parameter types, and the server refuses it.  So every
    action the table lists returns 'failed to update enrollment status: pq:
    inconsistent types deduced for parameter $2' and leaves the database,
    the row's status and approved timestamp included, as it was; an action the
    table does not list fails at the guard.  Initiation with 'request' stores
    a requested row, with 'invite' an invited row. *)
Theorem listed_transitions_fail_at_the_update (db : Database) (now : Z) :
  (forall id action resp e,
      uuid_in id = true ->
      find_enrollment db id = Some e ->
      match Spec.transition (Status e) action with
      | Some to =>
          next_status (Status e) action = inr to /\
          UpdateEnrollmentStatus uuid_in db now id action resp =
            (db, Some update_refused_error) /\
          find_enrollment (UpdateEnrollmentStatus uuid_in db now id action resp).1 id
            = Some e
      | None =>
          exists err,
            UpdateEnrollmentStatus uuid_in db now id action resp = (db, Some err)
      end) /\
  (forall uuid v p action msg by_,
      insertable db uuid v p by_ ->
      match Spec.initial_status action with
      | Some s =>
          exists e,
            CreateEnrollment db now uuid v p action msg by_ =
              (set_enrollments db (volunteer_enrollments db ++ [e]), inr e) /\
            Status e = s
      | None =>
          exists err, CreateEnrollment db now uuid v p action msg by_ = (db, inl err)
      end) /\
  Spec.transition "requested" "accept" = Some "enrolled" /\
  Spec.transition "invited" "accept" = Some "enrolled" /\
  Spec.transition "requested" "reject" = Some "tl_rejected" /\
  Spec.transition "invited" "reject" = Some "v_rejected" /\
  Spec.transition "requested" "withdraw" = Some "v_rejected" /\
  Spec.initial_status "request" = Some "requested" /\
  Spec.initial_status "invite" = Some "invited".
Proof.
  split; [|split; [|repeat split; reflexivity]].
  - intros id action resp e Hu Hf.
    pose proof (next_status_table (Status e) action) as Ht.
    rewrite update_outcome, Hu, Hf.
    destruct (Spec.transition (Status e) action) as [to|].
    + rewrite Ht. simpl. by repeat split.
    + destruct Ht as [err ->]. by exists err.
  - intros uuid v p action msg by_ Hins.
    destruct (Spec.initial_status action) as [s|] eqn:Hs.
    + destruct (create_ok db now uuid v p action msg by_ s Hins Hs)
        as (e & He & _ & _ & _ & Hst & _).
      exists e. by split.
    + unfold Spec.initial_status in Hs. unfold CreateEnrollment.
      repeat case_bool_decide; simplify_eq; simpl; eauto.
Qed.

(** C3.  For an id the server accepts: on a row in a terminal status
    (enrolled, tl_rejected, v_rejected) each of accept, reject and withdraw
    fails with the invalid-transition error, which names the action and the
    current status, and returns the database unchanged; on an unknown id the
    call fails with the not-found error, which differs from every
    invalid-transition error.  A text the server does not accept as a UUID
    is no enrollment id: the call fails on it at the SELECT, with an error
    that differs from both, and returns the database unchanged. *)
Theorem terminal_rows_refuse_transitions (db : Database) (now : Z)
    (id action resp : string) :
  In action Spec.transition_actions ->
  (uuid_in id = true ->
   (forall e,
       find_enrollment db id = Some e ->
       In (Status e) Spec.terminal_statuses ->
       UpdateEnrollmentStatus uuid_in db now id action resp =
         (db, Some (invalid_transition_error action (Status e))) /\
       find_enrollment (UpdateEnrollmentStatus uuid_in db now id action resp).1 id
         = Some e) /\
   (find_enrollment db id = None ->
       UpdateEnrollmentStatus uuid_in db now id action resp =
         (db, Some "enrollment not found") /\
       forall status, "enrollment not found" <> invalid_transition_error action status)) /\
  (uuid_in id = false ->
   UpdateEnrollmentStatus uuid_in db now id action resp =
     (db, Some ("failed to get current status: " ++ Pg.invalid_uuid id)) /\
   "failed to get current status: " ++ Pg.invalid_uuid id <> "enrollment not found" /\
   forall status,
     "failed to get current status: " ++ Pg.invalid_uuid id <>
     invalid_transition_error action status).
Proof.
  intros Ha. split.
  - intros Hu. split.
    + intros e Hf Hs.
      assert (next_status (Status e) action =
              inl (invalid_transition_error action (Status e))) as Hn.
      { unfold next_status, invalid_transition_error.
        simpl in Ha, Hs.
        destruct Ha as [<-|[<-|[<-|[]]]]; destruct Hs as [<-|[<-|[<-|[]]]]; reflexivity. }
      rewrite (update_status_err uuid_in db now id action resp e _ Hu Hf Hn). by split.
    + intros Hf. split.
      * by rewrite update_outcome, Hu, Hf.
      * intros status. unfold invalid_transition_error. simpl. discriminate.
  - intros Hu. split; [by rewrite update_outcome, Hu|]. split.
    + simpl. discriminate.
    + intros status. unfold invalid_transition_error. simpl. discriminate.
Qed.

(** The handler turns the wrapped unique violation into 409 Conflict. *)
Lemma duplicate_pair_error_is_conflict :
  Str.Contains (Str.ToLower duplicate_pair_error) "duplicate key" &&
  Str.Contains (Str.ToLower duplicate_pair_error)
               "volunteer_enrollments_volunteer_id_project_id_key" = true.
Proof. vm_compute. reflexivity. Qed.

Lemma create_on_existing_pair db now uuid v p action msg by_ :
  has_id db uuid = false ->
  has_pair db v p = true ->
  In action ["request"; "invite"] ->
  CreateEnrollment db now uuid v p action msg by_ = (db, inl duplicate_pair_error).
Proof.
  intros Hid Hpair Ha. unfold CreateEnrollment, insert_enrollment.
  rewrite Hid, Hpair. simpl in Ha.
  destruct Ha as [<-|[<-|[]]]; reflexivity.
Qed.

(** C4.  With an id the table does not hold yet: on a (volunteer, project)
    pair that already has a row, whatever its status, creating an enrollment
    fails and leaves the table as it was; with a valid action the failure is
    the unique violation of the pair, which the handler answers with 409
    Conflict.  On a pair without a row, 'request' by an existing volunteer
    on an existing project stores and returns a row in status requested. *)
Theorem second_initiate_is_conflict (db : Database) (now : Z) (uuid : string) :
  has_id db uuid = false ->
  (forall v p action msg by_,
      has_pair db v p = true ->
      (exists err, CreateEnrollment db now uuid v p action msg by_ = (db, inl err)) /\
      (In action ["request"; "invite"] ->
       CreateEnrollment db now uuid v p action msg by_ = (db, inl duplicate_pair_error))) /\
  (forall req userID v,
      userID <> "" ->
      (EnrollmentHandler.req_Action req = "request" /\ v = userID) \/
      (EnrollmentHandler.req_Action req = "invite" /\
       EnrollmentHandler.req_VolunteerID req = Some v /\ v <> "") ->
      has_pair db v (EnrollmentHandler.req_ProjectID req) = true ->
      EnrollmentHandler.CreateEnrollment db now uuid req userID =
        (db, EnrollmentHandler.HttpError EnrollmentHandler.StatusConflict
               "This volunteer is already enrolled or has a pending enrollment for this project")) /\
  (forall req userID,
      userID <> "" ->
      EnrollmentHandler.req_Action req = "request" ->
      insertable db uuid userID (EnrollmentHandler.req_ProjectID req) userID ->
      exists e,
        EnrollmentHandler.CreateEnrollment db now uuid req userID =
          (set_enrollments db (volunteer_enrollments db ++ [e]), EnrollmentHandler.Json e) /\
        VolunteerID e = userID /\
        ProjectID e = EnrollmentHandler.req_ProjectID req /\
        Status e = "requested").
Proof.
  intros Hid. split; [|split].
  - intros v p action msg by_ Hpair. split.
    + unfold CreateEnrollment, insert_enrollment. rewrite Hid, Hpair.
      destruct (bool_decide (action = "request") || bool_decide (action = "invite")); eauto.
    + by apply create_on_existing_pair.
  - intros req userID v Hu Hreq Hpair.
    unfold EnrollmentHandler.CreateEnrollment.
    rewrite bool_decide_eq_false_2 by exact Hu.
    destruct Hreq as [[Ha ->]|(Ha & Hv & Hne)]; rewrite Ha; simpl.
    + rewrite (create_on_existing_pair db now uuid userID _ "request" _ userID Hid Hpair)
        by (simpl; auto).
      by rewrite duplicate_pair_error_is_conflict.
    + rewrite Hv. simpl. rewrite bool_decide_eq_false_2 by exact Hne. simpl.
      rewrite (create_on_existing_pair db now uuid v _ "invite" _ userID Hid Hpair)
        by (simpl; auto).
      by rewrite duplicate_pair_error_is_conflict.
  - intros req userID Hu Ha Hins.
    unfold EnrollmentHandler.CreateEnrollment.
    rewrite bool_decide_eq_false_2 by exact Hu. rewrite Ha. simpl.
    destruct (create_ok db now uuid userID (EnrollmentHandler.req_ProjectID req)
                "request" (default "" (EnrollmentHandler.req_Message req)) userID
                "requested" Hins eq_refl)
      as (e & He & _ & Hv & Hp & Hs & _).
    exists e. rewrite He. done.
Qed.

End EnrollmentClaims.

Section EnrollmentInstances.
Import EnrollmentService.

(** The code at the failing input: accepting the requested row "e1" at time
    5 returns the error of the refused UPDATE and leaves the row requested,
    without an approved timestamp; a first 'invite' by the coordinator stores
    an invited row. *)
Lemma listed_transitions_fail_at_the_update_witness :
  (UpdateEnrollmentStatus Ref.ref_uuid_in (Ref.db_with "requested") 5 "e1" "accept" "" =
     (Ref.db_with "requested",
      Some "failed to update enrollment status: pq: inconsistent types deduced for parameter $2") /\
   find_enrollment
     (UpdateEnrollmentStatus Ref.ref_uuid_in (Ref.db_with "requested") 5 "e1" "accept" "").1
     "e1" = Some (Ref.enrollment_of "e1" "v1" "p1" "requested")) /\
  (exists e,
      CreateEnrollment Ref.db_fresh 5 "e1" "v1" "p1" "invite" "" "c1" =
        (set_enrollments Ref.db_fresh (volunteer_enrollments Ref.db_fresh ++ [e]), inr e) /\
      Status e = "invited").
Proof.
  split.
  - exact (proj2 (proj1 (listed_transitions_fail_at_the_update Ref.ref_uuid_in
                           (Ref.db_with "requested") 5)
                    "e1" "accept" "" (Ref.enrollment_of "e1" "v1" "p1" "requested")
                    eq_refl eq_refl)).
  - apply (proj1 (proj2 (listed_transitions_fail_at_the_update Ref.ref_uuid_in
                           Ref.db_fresh 5))
             "e1" "v1" "p1" "invite" "" "c1").
    repeat split; reflexivity.
Defined.

(** Rejecting the enrolled row "e1" is refused and changes nothing; the id
    "e9" is unknown. *)
Lemma terminal_rows_refuse_transitions_witness :
  (UpdateEnrollmentStatus Ref.ref_uuid_in (Ref.db_with "enrolled") 5 "e1" "reject" "" =
     (Ref.db_with "enrolled", Some "cannot reject enrollment in status: enrolled") /\
   find_enrollment
     (UpdateEnrollmentStatus Ref.ref_uuid_in (Ref.db_with "enrolled") 5 "e1" "reject" "").1
     "e1" = Some (Ref.enrollment_of "e1" "v1" "p1" "enrolled")) /\
  UpdateEnrollmentStatus Ref.ref_uuid_in (Ref.db_with "enrolled") 5 "e9" "reject" "" =
     (Ref.db_with "enrolled", Some "enrollment not found").
Proof.
  assert (In "reject" Spec.transition_actions) as Ha by (simpl; auto).
  split.
  - apply (proj1 (proj1 (terminal_rows_refuse_transitions Ref.ref_uuid_in
                           (Ref.db_with "enrolled") 5 "e1" "reject" "" Ha) eq_refl)
             (Ref.enrollment_of "e1" "v1" "p1" "enrolled") eq_refl).
    simpl; auto.
  - apply (proj2 (proj1 (terminal_rows_refuse_transitions Ref.ref_uuid_in
                           (Ref.db_with "enrolled") 5 "e9" "reject" "" Ha) eq_refl)
             eq_refl).
Defined.

(** A second request on the pair ("v1", "p1"), whose row was rejected, is a
    conflict; the first request on the empty table succeeds. *)
Lemma second_initiate_is_conflict_witness :
  CreateEnrollment (Ref.db_with "tl_rejected") 5 "e2" "v1" "p1" "request" "again" "v1" =
    (Ref.db_with "tl_rejected", inl duplicate_pair_error) /\
  exists e,
    EnrollmentHandler.CreateEnrollment Ref.db_fresh 5 "e1"
      (EnrollmentHandler.mkCreateReq "p1" "request" None None) "v1" =
      (set_enrollments Ref.db_fresh (volunteer_enrollments Ref.db_fresh ++ [e]),
       EnrollmentHandler.Json e) /\
    VolunteerID e = "v1" /\ ProjectID e = "p1" /\ Status e = "requested".
Proof.
  split.
  - apply (proj1 (second_initiate_is_conflict (Ref.db_with "tl_rejected") 5 "e2" eq_refl)
             "v1" "p1" "request" "again" "v1" eq_refl).
    simpl; auto.
  - apply (proj2 (proj2 (second_initiate_is_conflict Ref.db_fresh 5 "e1" eq_refl))
             (EnrollmentHandler.mkCreateReq "p1" "request" None None) "v1").
    + discriminate.
    + reflexivity.
    + repeat split; reflexivity.
Defined.

End EnrollmentInstances.

(* ================================================================== *)
(** ** Cosine similarity *)

Section CosineFacts.
Import Num Matching.
Open Scope R_scope.

Lemma sum_squares_insert (v : gmap string R) i x :
  v !! i = None -> map_first_key (<[i:=x]> v) i ->
  sum_squares (<[i:=x]> v) = sum_squares v + x * x.
Proof. intros Hi Hk. unfold sum_squares. by rewrite map_fold_insert_first_key. Qed.

Lemma sum_squares_nonneg (v : gmap string R) : 0 <= sum_squares v.
Proof.
  induction v as [|i x v Hi Hk IH] using map_first_key_ind.
  - unfold sum_squares. rewrite map_fold_empty. lra.
  - rewrite sum_squares_insert by done. nra.
Qed.

Lemma dot_and_magnitude_snd (v1 v2 : gmap string R) :
  (dot_and_magnitude v1 v2).2 = sum_squares v1.
Proof.
  induction v1 as [|i x v Hi Hk IH] using map_first_key_ind.
  - unfold dot_and_magnitude, sum_squares. by rewrite !map_fold_empty.
  - rewrite sum_squares_insert by done. unfold dot_and_magnitude in *.
    rewrite map_fold_insert_first_key by done.
    destruct (v2 !! i); simpl; by rewrite IH.
Qed.

Lemma clamp01_bounds x : 0 <= clamp01 x <= 1.
Proof. unfold clamp01. destruct (Rlt_dec x 0); [lra|]. destruct (Rgt_dec x 1); lra. Qed.

Lemma clamp01_id x : 0 <= x <= 1 -> clamp01 x = x.
Proof. intros H. unfold clamp01. destruct (Rlt_dec x 0); [lra|]. destruct (Rgt_dec x 1); lra. Qed.

Lemma magnitude_empty : magnitude ∅ = 0.
Proof. unfold magnitude, sum_squares. rewrite map_fold_empty. apply sqrt_0. Qed.

(** Two vectors made of one and the same skill and value are fully similar. *)
Lemma cosine_identical_skill (k : string) (x : R) :
  0 < x -> CosineSimilarity {[ k := x ]} {[ k := x ]} = Some 1.
Proof.
  intros Hx. unfold CosineSimilarity, dot_and_magnitude, sum_squares.
  rewrite map_size_singleton, !map_fold_singleton, lookup_singleton_eq. simpl.
  unfold fsqrt. destruct (Rlt_dec (0 + x * x) 0) as [?|_]; [nra|]. simpl.
  replace (0 + x * x) with (x * x) by lra. rewrite sqrt_square by lra.
  rewrite bool_decide_eq_false_2 by lra. simpl.
  unfold fdiv. destruct (Req_dec_T (x * x) 0) as [?|_]; [nra|]. simpl.
  replace (x * x / (x * x)) with 1 by (field; lra).
  f_equal. apply clamp01_id. lra.
Qed.

(** Two vectors without a common skill are not similar at all. *)
Lemma cosine_no_overlap (k1 k2 : string) (x y : R) :
  k1 <> k2 -> 0 < x -> 0 < y ->
  CosineSimilarity {[ k1 := x ]} {[ k2 := y ]} = Some 0.
Proof.
  intros Hk Hx Hy. unfold CosineSimilarity, dot_and_magnitude, sum_squares.
  rewrite !map_size_singleton, !map_fold_singleton, lookup_singleton_ne by done. simpl.
  unfold fsqrt.
  destruct (Rlt_dec (0 + x * x) 0) as [?|_]; [nra|].
  destruct (Rlt_dec (0 + y * y) 0) as [?|_]; [nra|]. simpl.
  replace (0 + x * x) with (x * x) by lra. replace (0 + y * y) with (y * y) by lra.
  rewrite !sqrt_square by lra.
  rewrite !bool_decide_eq_false_2 by lra. simpl.
  unfold fdiv. destruct (Req_dec_T (x * y) 0) as [?|_]; [nra|]. simpl.
  replace (0 / (x * y)) with 0 by (field; lra).
  f_equal. apply clamp01_id. lra.
Qed.

(** C9.  [CosineSimilarity] always returns a defined number, and that number
    lies in [0,1]; when either vector has zero magnitude (an empty vector
    has) the result is exactly 0; otherwise it is the quotient of the dot
    product by the magnitudes passed through the clamp, and the clamp maps
    every number into [0,1]. *)
Theorem cosine_similarity_unit_interval (v1 v2 : gmap string R) :
  exists s,
    CosineSimilarity v1 v2 = Some s /\
    0 <= s <= 1 /\
    (magnitude v1 = 0 \/ magnitude v2 = 0 -> s = 0) /\
    (magnitude v1 <> 0 -> magnitude v2 <> 0 ->
     s = clamp01 ((dot_and_magnitude v1 v2).1 / (magnitude v1 * magnitude v2))) /\
    (forall x, 0 <= clamp01 x <= 1).
Proof.
  unfold CosineSimilarity.
  destruct (bool_decide (size v1 = 0%nat) || bool_decide (size v2 = 0%nat)) eqn:Hsz.
  - exists 0. repeat split; try lra; [|apply clamp01_bounds..].
    intros H1 H2. exfalso.
    apply orb_true_iff in Hsz as [H|H]; apply bool_decide_eq_true in H;
      apply map_size_empty_iff in H; subst; [apply H1|apply H2]; apply magnitude_empty.
  - pose proof (dot_and_magnitude_snd v1 v2) as Hsnd.
    destruct (dot_and_magnitude v1 v2) as [dotProduct m1] eqn:Hdm. simpl in Hsnd. subst m1.
    pose proof (sum_squares_nonneg v1) as Hn1. pose proof (sum_squares_nonneg v2) as Hn2.
    unfold fsqrt.
    destruct (Rlt_dec (sum_squares v1) 0) as [?|_]; [lra|].
    destruct (Rlt_dec (sum_squares v2) 0) as [?|_]; [lra|]. simpl.
    fold (magnitude v1) (magnitude v2).
    destruct (bool_decide (magnitude v1 = 0) || bool_decide (magnitude v2 = 0)) eqn:Hz.
    + exists 0. repeat split; try lra; [|apply clamp01_bounds..].
      intros H1 H2. exfalso.
      apply orb_true_iff in Hz as [H|H]; apply bool_decide_eq_true in H; auto.
    + apply orb_false_iff in Hz as [H1 H2].
      apply bool_decide_eq_false in H1, H2.
      unfold fdiv. destruct (Req_dec_T (magnitude v1 * magnitude v2) 0) as [H0|_].
      { apply Rmult_integral in H0. tauto. }
      simpl. eexists. split; [reflexivity|].
      repeat split; try apply clamp01_bounds.
      intros [?|?]; contradiction.
Qed.

End CosineFacts.

(* ================================================================== *)
(** ** Values stored in decimal columns *)

Section DecimalFacts.
Import Num.
Open Scope R_scope.

Lemma Int_part_bounds x : IZR (Int_part x) <= x < IZR (Int_part x) + 1.
Proof. destruct (base_Int_part x). lra. Qed.

Lemma Int_part_unique x k : IZR k <= x < IZR k + 1 -> Int_part x = k.
Proof.
  intros [H1 H2]. pose proof (Int_part_bounds x) as [H3 H4].
  assert (Int_part x < k + 1)%Z.
  { apply lt_IZR. rewrite plus_IZR. lra. }
  assert (k < Int_part x + 1)%Z.
  { apply lt_IZR. rewrite plus_IZR. lra. }
  lia.
Qed.

Lemma Int_part_mono x y : x <= y -> (Int_part x <= Int_part y)%Z.
Proof.
  intros H. pose proof (Int_part_bounds x) as [H1 _].
  pose proof (Int_part_bounds y) as [_ H2].
  assert (Int_part x < Int_part y + 1)%Z; [|lia].
  apply lt_IZR. rewrite plus_IZR. lra.
Qed.

(** The integer within a half of [x], ties away from zero. *)
Lemma round_half_away_near x k :
  (0 <= x -> IZR k - 1 / 2 <= x < IZR k + 1 / 2) ->
  (x < 0 -> IZR k - 1 / 2 < x <= IZR k + 1 / 2) ->
  round_half_away x = k.
Proof.
  intros Hpos Hneg. unfold round_half_away.
  destruct (Rle_dec 0 x) as [H|H].
  - apply Int_part_unique. specialize (Hpos H). lra.
  - assert (x < 0) as Hx by lra. specialize (Hneg Hx).
    rewrite (Int_part_unique (- x + 1 / 2) (- k)); [lia|].
    rewrite opp_IZR. lra.
Qed.

Lemma round_half_away_IZR k : round_half_away (IZR k) = k.
Proof. apply round_half_away_near; lra. Qed.

Lemma round_half_away_mono x y : x <= y -> (round_half_away x <= round_half_away y)%Z.
Proof.
  intros H. unfold round_half_away.
  destruct (Rle_dec 0 x) as [Hx|Hx], (Rle_dec 0 y) as [Hy|Hy]; try lra.
  - apply Int_part_mono. lra.
  - assert (0 <= Int_part (- x + 1 / 2))%Z.
    { rewrite <- (Int_part_unique 0 0) by lra. apply Int_part_mono. lra. }
    assert (0 <= Int_part (y + 1 / 2))%Z.
    { rewrite <- (Int_part_unique 0 0) by lra. apply Int_part_mono. lra. }
    lia.
  - assert (Int_part (- y + 1 / 2) <= Int_part (- x + 1 / 2))%Z; [|lia].
    apply Int_part_mono. lra.
Qed.

Lemma pow10_pos s : 0 < 10 ^ s.
Proof. apply pow_lt. lra. Qed.

(** Storing a value in a decimal column keeps the order. *)
Lemma to_decimal_mono s x y : x <= y -> to_decimal s x <= to_decimal s y.
Proof.
  intros H. unfold to_decimal. pose proof (pow10_pos s) as Hs.
  apply Rmult_le_compat_r; [apply Rlt_le, Rinv_0_lt_compat, Hs|].
  apply IZR_le, round_half_away_mono. nra.
Qed.

(** A value with at most [s] decimals is stored as it is. *)
Lemma to_decimal_exact s k : to_decimal s (IZR k / 10 ^ s) = IZR k / 10 ^ s.
Proof.
  unfold to_decimal. pose proof (pow10_pos s) as Hs.
  replace (IZR k / 10 ^ s * 10 ^ s) with (IZR k) by (field; lra).
  by rewrite round_half_away_IZR.
Qed.

Lemma to_decimal_value s k x : x = IZR k / 10 ^ s -> to_decimal s x = x.
Proof. intros ->. apply to_decimal_exact. Qed.

(** A non-negative value within half a unit of the last decimal of [k]
    units is stored as [k] units. *)
Lemma to_decimal_near s k x :
  0 <= x -> IZR k - 1 / 2 <= x * 10 ^ s < IZR k + 1 / 2 ->
  to_decimal s x = IZR k / 10 ^ s.
Proof.
  intros Hx H. unfold to_decimal. pose proof (pow10_pos s) as Hs.
  rewrite (round_half_away_near _ k); [done| |].
  - intros _. exact H.
  - intros Hneg. exfalso. nra.
Qed.

End DecimalFacts.

(* ================================================================== *)
(** ** Batch refresh of the match cache *)

Section RankerFacts.
Import Num Sql.
Open Scope R_scope.

Variable hashtext : string -> Z.
Variable cosine_distance : vector -> vector -> R.

Lemma In_insert_desc {A} (key : A -> R) x y l :
  In y (insert_desc key x l) <-> y = x \/ In y l.
Proof.
  induction l as [|z l IH]; simpl.
  - intuition.
  - destruct (Rlt_dec (key z) (key x)); simpl; [intuition|].
    rewrite IH. intuition.
Qed.

Lemma In_order_by_desc {A} (key : A -> R) y l :
  In y (order_by_desc key l) <-> In y l.
Proof.
  unfold order_by_desc. induction l as [|x l IH]; simpl; [tauto|].
  rewrite In_insert_desc, IH. intuition.
Qed.

Lemma length_insert_desc {A} (key : A -> R) x l :
  length (insert_desc key x l) = S (length l).
Proof.
  induction l as [|z l IH]; simpl; [done|].
  destruct (Rlt_dec (key z) (key x)); simpl; [done|]. by rewrite IH.
Qed.

Lemma length_order_by_desc {A} (key : A -> R) l :
  length (order_by_desc key l) = length l.
Proof.
  unfold order_by_desc. induction l as [|x l IH]; simpl; [done|].
  by rewrite length_insert_desc, IH.
Qed.

(** The rows of the first CTE: one per active project and located volunteer
    that pass the Tier 1 sub-query. *)
Lemma combination_spec db c :
  In c (volunteer_project_combinations hashtext cosine_distance db) <->
  exists p u,
    In p (projects db) /\ In u (users db) /\
    p_status p = "active" /\ u_role u = "volunteer" /\
    is_Some (u_latitude u) /\ is_Some (u_longitude u) /\
    tier1_not_enrolled db u p = true /\
    c = {| c_project_id := p_id p;
           c_volunteer_id := u_id u;
           c_p_location := p_location_name p;
           c_u_location := u_location_name u;
           c_skill_score :=
             match vsv_lookup db (u_id u),
                   get_project_skill_vector hashtext db (p_id p) default_dimension with
             | Some v, Some pv => 1 - cosine_distance v pv
             | _, _ => 0
             end;
           c_distance_km :=
             match p_latitude p, p_longitude p, u_latitude u, u_longitude u with
             | Some plat, Some plon, Some ulat, Some ulon =>
                 inline_haversine plat plon ulat ulon
             | _, _, _, _ => 999999
             end;
           c_matched_skills := matched_skill_names db u p |}.
Proof.
  unfold volunteer_project_combinations. rewrite in_flat_map. split.
  - intros (p & Hp & Hc). apply in_flat_map in Hc as (u & Hu & Hc).
    destruct (_ && _) eqn:Hcond in Hc; [|destruct Hc].
    destruct Hc as [<-|[]].
    repeat (apply andb_true_iff in Hcond as [Hcond ?]).
    repeat match goal with H : bool_decide _ = true |- _ => apply bool_decide_eq_true in H end.
    exists p, u. repeat split; auto.
  - intros (p & u & Hp & Hu & H1 & H2 & H3 & H4 & H5 & ->).
    exists p. split; [done|]. apply in_flat_map. exists u. split; [done|].
    rewrite !bool_decide_eq_true_2 by done. rewrite H5. simpl. auto.
Qed.

(** The rows of the refreshed cache: the combinations within 500 km whose
    tiered score is above 0.1, as the columns store them. *)
Lemma refresh_cache_spec db m :
  In m (project_volunteer_matches (refresh_all_matches hashtext cosine_distance db).1) <->
  exists c,
    In c (volunteer_project_combinations hashtext cosine_distance db) /\
    c_distance_km c <= 500 /\ tiered_score c > 0.1 /\
    m = stored_match (match_of c).
Proof.
  unfold refresh_all_matches. simpl. rewrite in_map_iff. split.
  - intros (m0 & <- & Hm0). apply In_order_by_desc, filter_In in Hm0 as [Hm0 Hs].
    unfold tiered_matches in Hm0. apply in_map_iff in Hm0 as (c & <- & Hc).
    apply filter_In in Hc as [Hc Hd].
    apply bool_decide_eq_true in Hd, Hs. exists c. auto.
  - intros (c & Hc & Hd & Hs & ->). exists (match_of c). split; [done|].
    apply In_order_by_desc, filter_In. split.
    + unfold tiered_matches. apply in_map. apply filter_In. split; [done|].
      by apply bool_decide_eq_true_2.
    + by apply bool_decide_eq_true_2.
Qed.

(** The WHEN condition of the code is the region policy over the configured
    names. *)
Lemma national_exception_policy p_location u_location :
  national_exception p_location u_location =
  Spec.same_designated_region p_location u_location.
Proof.
  unfold national_exception, Spec.same_designated_region, both_ilike.
  destruct p_location as [p|], u_location as [u|]; try reflexivity.
  simpl. rewrite orb_false_r, !orb_assoc. reflexivity.
Qed.

Lemma tiered_score_spec c :
  tiered_score c =
  if Spec.same_designated_region (c_p_location c) (c_u_location c)
  then Spec.combined 0.7 0.3 (c_skill_score c) (c_distance_km c)
  else Spec.combined 0.4 0.6 (c_skill_score c) (c_distance_km c).
Proof. unfold tiered_score. by rewrite national_exception_policy. Qed.

Lemma inline_haversine_same_point lat lon : inline_haversine lat lon lat lon = 0.
Proof.
  unfold inline_haversine, RADIANS, LEAST.
  replace ((lat - lat) * PI / 180 / 2) with 0 by lra.
  replace ((lon - lon) * PI / 180 / 2) with 0 by lra.
  rewrite sin_0.
  replace (0 ^ 2 + cos (lat * PI / 180) * cos (lat * PI / 180) * 0 ^ 2) with 0 by ring.
  rewrite sqrt_0. rewrite Rmin_right by lra. rewrite asin_0. ring.
Qed.

(** Under the CHECK constraint of the status column no row has the status
    'active', so the Tier 1 sub-query lets every pair through. *)
Lemma tier1_filter_is_vacuous db u p :
  chk_enrollment_status db -> tier1_not_enrolled db u p = true.
Proof.
  unfold chk_enrollment_status, tier1_not_enrolled. intros Hchk.
  apply negb_true_iff. apply not_true_is_false. intros Hex.
  apply existsb_exists in Hex as (ve & Hin & Hve).
  rewrite Forall_forall in Hchk. apply list_elem_of_In in Hin. specialize (Hchk ve Hin).
  apply andb_true_iff in Hve as [_ Hst]. apply bool_decide_eq_true in Hst.
  rewrite Hst in Hchk. vm_compute in Hchk. discriminate.
Qed.

(** The Toronto pair, 0 km apart and in the same region, is cached with the
    score 0.3 whatever enrollment rows there are, as long as none has the
    status 'active'. *)
Lemma toronto_pair_is_cached rows :
  Forall (fun e => Status e <> "active") rows ->
  exists m,
    In m (project_volunteer_matches
            (refresh_all_matches hashtext cosine_distance
               (set_enrollments Ref.db_fresh rows)).1) /\
    project_id m = "p1" /\ volunteer_id m = "v1" /\
    skill_score m = 0 /\ distance_km m = 0 /\ combined_score m = 0.3.
Proof.
  intros Hst.
  pose (c0 := {| c_project_id := "p1"; c_volunteer_id := "v1";
                 c_p_location := Some "Toronto, Ontario, Canada";
                 c_u_location := Some "Toronto, Ontario, Canada";
                 c_skill_score := 0;
                 c_distance_km := inline_haversine 43 (-79) 43 (-79);
                 c_matched_skills := [] |}).
  assert (tiered_score c0 = 0.3) as Hscore.
  { unfold tiered_score, c0. simpl c_p_location. simpl c_u_location.
    replace (national_exception _ _) with true by (vm_compute; reflexivity).
    simpl c_skill_score. simpl c_distance_km.
    rewrite inline_haversine_same_point. unfold GREATEST.
    rewrite Rmax_right by lra. lra. }
  exists (stored_match (match_of c0)). split.
  - apply refresh_cache_spec. exists c0. split; [|split; [|split; [|reflexivity]]].
    + apply combination_spec. exists Ref.toronto_project, Ref.toronto_volunteer.
      split; [left; reflexivity|]. split; [left; reflexivity|].
      split; [reflexivity|]. split; [reflexivity|].
      split; [eexists; reflexivity|]. split; [eexists; reflexivity|].
      split; [|reflexivity].
      unfold tier1_not_enrolled. simpl volunteer_enrollments.
      induction Hst as [|e rows He _ IH]; [reflexivity|]. simpl.
      rewrite (bool_decide_eq_false_2 (Status e = "active")) by done.
      rewrite !andb_false_r. exact IH.
    + unfold c0. simpl c_distance_km. rewrite inline_haversine_same_point. lra.
    + rewrite Hscore. lra.
  - split; [reflexivity|]. split; [reflexivity|]. simpl.
    rewrite Hscore, inline_haversine_same_point. split; [|split].
    + apply (to_decimal_value 4 0). simpl. lra.
    + apply (to_decimal_value 2 0). simpl. lra.
    + apply (to_decimal_value 4 3000). simpl. lra.
Qed.

(** C1.  The code at the failing input.  The table holds the row "e1" of the
    volunteer "v1" and the project "p1" in status enrolled (the status the
    state-machine migration gives to every approved enrollment), within the
    status constraint, and [IsVolunteerEnrolled] holds.  The cache refreshed
    on that database still holds a match record for the pair. *)
Theorem enrolled_pair_is_ranked :
  let db2 := Ref.db_with "enrolled" in
  Status <$> EnrollmentService.find_enrollment db2 "e1" = Some "enrolled" /\
  EnrollmentService.IsVolunteerEnrolled db2 "v1" "p1" = true /\
  chk_enrollment_status db2 /\
  exists m,
    In m (project_volunteer_matches (refresh_all_matches hashtext cosine_distance db2).1) /\
    project_id m = "p1" /\ volunteer_id m = "v1" /\
    skill_score m = 0 /\ distance_km m = 0 /\ combined_score m = 0.3.
Proof.
  intros db2.
  split; [reflexivity|]. split; [reflexivity|]. split.
  - constructor; [reflexivity|constructor].
  - apply toronto_pair_is_cached. constructor; [discriminate|constructor].
Qed.

(** C6, as amended.  Every match record of a refreshed cache is the stored
    form of a pair whose computed distance is at most 500 km and whose
    computed combined score is above 0.1.  The record holds the two values
    rounded to 2 and to 4 decimals: its distance is at most 500 km and its
    combined score is at least 0.1. *)
Theorem refresh_respects_cutoffs db m :
  In m (project_volunteer_matches (refresh_all_matches hashtext cosine_distance db).1) ->
  exists c,
    In c (volunteer_project_combinations hashtext cosine_distance db) /\
    c_project_id c = project_id m /\ c_volunteer_id c = volunteer_id m /\
    c_distance_km c <= 500 /\ tiered_score c > 0.1 /\
    distance_km m = to_decimal 2 (c_distance_km c) /\
    combined_score m = to_decimal 4 (tiered_score c) /\
    distance_km m <= 500 /\ combined_score m >= 0.1.
Proof.
  intros H. apply refresh_cache_spec in H as (c & Hc & Hd & Hs & ->).
  exists c. simpl. repeat split; try done.
  - rewrite <- (to_decimal_value 2 50000 500) by (simpl; lra).
    by apply to_decimal_mono.
  - apply Rle_ge. rewrite <- (to_decimal_value 4 1000 0.1) by (simpl; lra).
    apply to_decimal_mono. lra.
Qed.

(** C7.  Every match record of a refreshed cache belongs to a project row and
    a volunteer row of the database.  The combined score computed for the
    pair is 0.7 * skill + 0.3 * max(0, 1 - km/100) when the region policy
    puts their location names in the same designated region, and
    0.4 * skill + 0.6 * max(0, 1 - km/100) otherwise, where skill and km are
    the skill score and the distance computed for the pair; the record holds
    the three values rounded to the scale of their columns. *)
Theorem refresh_scores_by_region db m :
  In m (project_volunteer_matches (refresh_all_matches hashtext cosine_distance db).1) ->
  exists p u c,
    In p (projects db) /\ In u (users db) /\
    In c (volunteer_project_combinations hashtext cosine_distance db) /\
    p_id p = project_id m /\ u_id u = volunteer_id m /\
    c_project_id c = p_id p /\ c_volunteer_id c = u_id u /\
    tiered_score c =
      (if Spec.same_designated_region (p_location_name p) (u_location_name u)
       then 0.7 * c_skill_score c + 0.3 * Rmax 0 (1 - c_distance_km c / 100)
       else 0.4 * c_skill_score c + 0.6 * Rmax 0 (1 - c_distance_km c / 100)) /\
    skill_score m = to_decimal 4 (c_skill_score c) /\
    distance_km m = to_decimal 2 (c_distance_km c) /\
    combined_score m = to_decimal 4 (tiered_score c).
Proof.
  intros H. apply refresh_cache_spec in H as (c & Hc & _ & _ & ->).
  pose proof Hc as Hc'.
  apply combination_spec in Hc' as (p & u & Hp & Hu & _ & _ & _ & _ & _ & Heq).
  assert (c_project_id c = p_id p /\ c_volunteer_id c = u_id u /\
          c_p_location c = p_location_name p /\ c_u_location c = u_location_name u)
    as (H1 & H2 & H3 & H4) by (by rewrite Heq).
  exists p, u, c. simpl. rewrite H1, H2. repeat split; try done.
  rewrite tiered_score_spec, H3, H4. reflexivity.
Qed.

Lemma cache_rows_have_location db m :
  In m (project_volunteer_matches (refresh_all_matches hashtext cosine_distance db).1) ->
  exists u, In u (users db) /\ u_id u = volunteer_id m /\
            is_Some (u_latitude u) /\ is_Some (u_longitude u).
Proof.
  intros H. apply refresh_cache_spec in H as (c & Hc & _ & _ & ->).
  apply combination_spec in Hc as (p & u & _ & Hu & _ & _ & Hlat & Hlon & _ & ->).
  exists u. auto.
Qed.

End RankerFacts.

(* ================================================================== *)
(** ** On-demand matching *)

Section OnDemandFacts.
Import Num Sql OnDemand.
Open Scope R_scope.

Variable hashtext : string -> Z.
Variable cosine_distance : vector -> vector -> R.
Variable ST_Distance : R * R -> R * R -> R.

Lemma locationless_distance postgis u pi :
  Spec.no_known_location u -> on_demand_distance ST_Distance postgis u pi = None.
Proof.
  intros [Hl Hp]. unfold on_demand_distance. rewrite Hp.
  destruct postgis; [reflexivity|].
  destruct Hl as [-> | ->]; [reflexivity|]. by destruct (u_latitude u).
Qed.

(** A volunteer without a location passes the radius filter of the on-demand
    query for every project, with the distance reported as 0 and the
    proximity factor 0.5. *)
Lemma ranked_contains_locationless db p u ws wd maxd :
  In p (projects db) -> In u (users db) ->
  u_role u = "volunteer" -> Spec.no_known_location u ->
  exists r,
    In r (find_matching_volunteers_ranked hashtext cosine_distance ST_Distance
            db (p_id p) ws wd maxd) /\
    r_volunteer_id r = u_id u /\
    r_distance_km r = 0 /\
    r_combined_score r = ws * r_skill_score r + wd * 0.5.
Proof.
  intros Hp Hu Hrole Hloc.
  set (vm := {| vm_user := u;
                vm_skill_similarity :=
                  skill_similarity cosine_distance (vsv_lookup db (u_id u))
                    (get_project_skill_vector hashtext db (p_id p) default_dimension);
                vm_distance := on_demand_distance ST_Distance (has_postgis db) u p |}).
  assert (vm_distance vm = None) as Hd by (by apply locationless_distance).
  exists (found_row ws wd maxd vm). split.
  - unfold find_matching_volunteers_ranked. apply In_order_by_desc.
    apply in_map. apply filter_In. split.
    + unfold volunteer_matches. apply in_flat_map. exists u. split.
      * apply filter_In. split; [done|]. by apply bool_decide_eq_true_2.
      * apply in_map_iff. exists p. split; [reflexivity|].
        apply filter_In. split; [done|]. by apply bool_decide_eq_true_2.
    + unfold within_radius. by rewrite Hd.
  - simpl in Hd. unfold found_row; simpl. rewrite Hd. simpl. auto.
Qed.

Lemma In_take {A} (x : A) l n : In x l -> (length l <= n)%nat -> In x (take n l).
Proof. intros H Hn. by rewrite take_ge. Qed.

(** The query runs on the normalised weights, and on 100 km and 20 rows
    where the radius or the limit is zero. *)
Lemma on_demand_query db pid ws wd maxd limit :
  findMatchingVolunteersOnDemand hashtext cosine_distance ST_Distance db pid ws wd maxd limit =
  (p_skill_weight ← Float64.to_R (Spec.normalised_weights ws wd).1;
   p_distance_weight ← Float64.to_R (Spec.normalised_weights ws wd).2;
   p_max_distance_km ← Float64.to_R (if PrimFloat.eqb maxd 0 then 100%float else maxd);
   Some (scan_rows
           (find_matching_volunteers hashtext cosine_distance ST_Distance db pid
              p_skill_weight p_distance_weight p_max_distance_km
              (if bool_decide (limit = 0%Z) then 20%Z else limit)))).
Proof.
  unfold findMatchingVolunteersOnDemand, Spec.normalised_weights.
  by destruct (PrimFloat.eqb ws 0 && PrimFloat.eqb wd 0).
Qed.

(** The default radius is 100 km. *)
Lemma default_radius : Float64.to_R 100 = Some 100.
Proof.
  unfold Float64.to_R.
  change (FloatOps.Prim2SF 100) with (SpecFloat.S754_finite false 7036874417766400 (-46)).
  cbn [Float64.of_spec]. change (0 <=? -46)%Z with false. cbv iota. f_equal.
  change (2 ^ (- -46))%Z with 70368744177664%Z. lra.
Qed.

(** With both weights zero the query runs on the [float64] values 0.7 and
    0.3. *)
Lemma on_demand_zero db pid limit :
  exists ws wd,
    Float64.to_R 0.7 = Some ws /\ Float64.to_R 0.3 = Some wd /\
    findMatchingVolunteersOnDemand hashtext cosine_distance ST_Distance db pid 0 0 0 limit =
    Some (scan_rows
            (find_matching_volunteers hashtext cosine_distance ST_Distance db pid
               ws wd 100
               (if bool_decide (limit = 0%Z) then 20%Z else limit))).
Proof.
  eexists _, _. split; [reflexivity|]. split; [reflexivity|].
  rewrite on_demand_query.
  change (Spec.normalised_weights 0 0) with (0.7%float, 0.3%float).
  change (PrimFloat.eqb 0 0) with true. cbv iota.
  rewrite default_radius. reflexivity.
Qed.




(** C5, as amended.  A seeker whose latitude or longitude is missing has no
    record in the refreshed cache, whatever the skill score.  The on-demand
    query does not exclude such a seeker: for every project it ranks the
    seeker, with the distance reported as 0 and a proximity term of 0.5 in
    the combined score. *)
Theorem locationless_seeker_ranking db u :
  In u (users db) ->
  (u_latitude u = None \/ u_longitude u = None) ->
  (forall u', In u' (users db) -> u_id u' = u_id u -> u' = u) ->
  (forall m,
      In m (project_volunteer_matches (refresh_all_matches hashtext cosine_distance db).1) ->
      volunteer_id m <> u_id u) /\
  (u_role u = "volunteer" -> u_location_point u = None ->
   forall p ws wd maxd,
     In p (projects db) ->
     exists r,
       In r (find_matching_volunteers_ranked hashtext cosine_distance ST_Distance
               db (p_id p) ws wd maxd) /\
       r_volunteer_id r = u_id u /\
       r_distance_km r = 0 /\
       r_combined_score r = ws * r_skill_score r + wd * 0.5).
Proof.
  intros Hu Hloc Hpk. split.
  - intros m Hm Hid.
    apply cache_rows_have_location in Hm as (u' & Hu' & Hid' & [lat Hlat] & [lon Hlon]).
    assert (u' = u) as -> by (apply Hpk; congruence).
    destruct Hloc; congruence.
  - intros Hrole Hpt p ws wd maxd Hp.
    apply ranked_contains_locationless; try done.
Qed.

End OnDemandFacts.

(* ================================================================== *)
(** ** Skill vectors *)

Section VectorFacts.
Import Num Sql.
Open Scope R_scope.

Variable hashtext : string -> Z.

Lemma MAX_slot_value group : Spec.slot_value group (default 0 (MAX group)).
Proof.
  unfold Spec.slot_value. destruct group as [|x group]; [reflexivity|].
  revert x. induction group as [|y group IH]; intros x.
  - simpl. split; [auto|]. constructor; [lra|constructor].
  - specialize (IH y). change (MAX (x :: y :: group)) with
      (match MAX (y :: group) with None => Some x | Some m => Some (Rmax x m) end).
    destruct (MAX (y :: group)) as [m|] eqn:Hm.
    + simpl in IH |- *. destruct IH as [Hin Hall].
      destruct (Rle_dec x m) as [Hle|Hnle].
      * rewrite Rmax_right by done. split; [auto|]. constructor; [done|]. exact Hall.
      * rewrite Rmax_left by lra. split; [auto|]. constructor; [lra|].
        eapply Forall_impl; [exact Hall|]. simpl. intros; lra.
    + simpl in Hm. destruct (MAX group); discriminate.
Qed.

(** The position expression of the SQL, counted from 1, is the slot of the
    specification, counted from 0. *)
Lemma position_slot D id i :
  (0 < D)%Z ->
  (Z.abs (Z.rem (hashtext id) D) + 1 = Z.of_nat i + 1)%Z <->
  Spec.slot hashtext D id = Z.of_nat i.
Proof.
  intros HD. unfold Spec.slot.
  rewrite <- Z.rem_abs_l by lia.
  rewrite Z.rem_mod_nonneg by lia. lia.
Qed.

Lemma group_of_position {A} (key : A -> string) (val : A -> R) D (rows : list A) i :
  (0 < D)%Z ->
  List.map snd
    (List.filter (fun sp : Z * R => bool_decide (fst sp = (1 + Z.of_nat i)%Z))
       (List.map (fun r => ((Z.abs (Z.rem (hashtext (key r)) D) + 1)%Z, val r)) rows)) =
  List.map val
    (List.filter (fun r => bool_decide (Spec.slot hashtext D (key r) = Z.of_nat i)) rows).
Proof.
  intros HD. induction rows as [|r rows IH]; [reflexivity|]. simpl.
  destruct (bool_decide (Spec.slot hashtext D (key r) = Z.of_nat i)) eqn:Hs.
  - apply bool_decide_eq_true in Hs. apply (position_slot D (key r) i HD) in Hs.
    rewrite bool_decide_eq_true_2 by lia. simpl. by rewrite IH.
  - apply bool_decide_eq_false in Hs.
    rewrite bool_decide_eq_false_2.
    + exact IH.
    + intros H. apply Hs. apply (position_slot D (key r) i HD). lia.
Qed.

Lemma map_is_fmap {A B} (f : A -> B) l : List.map f l = f <$> l.
Proof. induction l; simpl; [done|]. by f_equal. Qed.

Lemma all_positions_length sp D : length (all_positions sp D) = Z.to_nat D.
Proof.
  unfold all_positions, generate_series. rewrite length_map, length_seqZ. f_equal. lia.
Qed.

Lemma all_positions_lookup sp D (i : nat) :
  (Z.of_nat i < D)%Z ->
  all_positions sp D !! i =
  Some (default 0 (MAX (List.map snd
          (List.filter (fun p : Z * R => bool_decide (fst p = (1 + Z.of_nat i)%Z)) sp)))).
Proof.
  intros Hi. unfold all_positions, generate_series.
  rewrite map_is_fmap, list_lookup_fmap, lookup_seqZ_lt by lia. reflexivity.
Qed.

Lemma all_positions_nil D : all_positions [] D = replicate (Z.to_nat D) 0.
Proof.
  unfold all_positions, generate_series, seqZ.
  replace (D - 1 + 1)%Z with D by lia.
  rewrite map_is_fmap, <- list_fmap_compose.
  generalize (Z.to_nat D) as n. intros n. generalize 0%nat as s.
  induction n as [|n IH]; intros s; simpl; [done|]. by rewrite IH.
Qed.

Lemma vector_of_values_some values :
  values <> [] -> vector_of_values values = Some values.
Proof. by destruct values. Qed.

(** The vector built from the rows [rows], whose skill id is [key] and whose
    value is [val]. *)
Lemma built_vector {A} (key : A -> string) (val : A -> R) (rows : list A) D :
  (0 < D)%Z ->
  exists v,
    vector_of_values
      (all_positions
         (List.map (fun r => ((Z.abs (Z.rem (hashtext (key r)) D) + 1)%Z, val r)) rows) D)
      = Some v /\
    length v = Z.to_nat D /\
    (forall i : nat, (Z.of_nat i < D)%Z ->
       exists x, v !! i = Some x /\
         Spec.slot_value
           (List.map val
              (List.filter (fun r => bool_decide (Spec.slot hashtext D (key r) = Z.of_nat i))
                           rows)) x) /\
    (rows = [] -> v = replicate (Z.to_nat D) 0).
Proof.
  intros HD. eexists. split; [|split; [|split]].
  - apply vector_of_values_some. intros H.
    apply (f_equal length) in H. rewrite all_positions_length in H. simpl in H. lia.
  - apply all_positions_length.
  - intros i Hi. eexists. split; [by apply all_positions_lookup|].
    rewrite group_of_position by done. apply MAX_slot_value.
  - intros ->. apply all_positions_nil.
Qed.

(** C8.  For a dimension [D >= 1], the vector of a volunteer and the vector
    of a project both have length [D]; the entry at index [i] is the maximum
    of the values of the contributing rows (claimed skills of the volunteer,
    demanded skills of the project) whose skill id hashes to [i] modulo [D],
    and 0 when no row does; with no contributing row the vector is all zero.
    Both builders use the same hash and the same [D]. *)
Theorem skill_vector_slots db D :
  (0 < D)%Z ->
  (forall p_volunteer_id,
     exists v,
       get_volunteer_skill_vector hashtext db p_volunteer_id D = Some v /\
       length v = Z.to_nat D /\
       (forall i : nat, (Z.of_nat i < D)%Z ->
          exists x, v !! i = Some x /\
            Spec.slot_value
              (List.map vs_score
                 (List.filter
                    (fun vs => bool_decide (Spec.slot hashtext D (vs_skill_id vs) = Z.of_nat i))
                    (volunteer_claims db p_volunteer_id))) x) /\
       (volunteer_claims db p_volunteer_id = [] -> v = replicate (Z.to_nat D) 0)) /\
  (forall p_project_id,
     exists v,
       get_project_skill_vector hashtext db p_project_id D = Some v /\
       length v = Z.to_nat D /\
       (forall i : nat, (Z.of_nat i < D)%Z ->
          exists x, v !! i = Some x /\
            Spec.slot_value
              (List.map ps_weight
                 (List.filter
                    (fun ps => bool_decide (Spec.slot hashtext D (ps_skill_id ps) = Z.of_nat i))
                    (project_demands db p_project_id))) x) /\
       (project_demands db p_project_id = [] -> v = replicate (Z.to_nat D) 0)).
Proof.
  intros HD. split.
  - intros vid. unfold get_volunteer_skill_vector.
    apply (built_vector vs_skill_id vs_score (volunteer_claims db vid) D HD).
  - intros pid. unfold get_project_skill_vector.
    apply (built_vector ps_skill_id ps_weight (project_demands db pid) D HD).
Qed.

End VectorFacts.

(* ================================================================== *)
(** ** The properties at concrete inputs *)

Section Instances.
Import Num Sql OnDemand.
Open Scope R_scope.

(** C5, as stated, fails on the on-demand path: the volunteer "v2" has
    neither latitude nor longitude, and the on-demand matching for the
    project "p1" (default weights, radius and limit) returns "v2". *)
Lemma locationless_seeker_on_demand_counterexample :
  In Ref.nowhere_volunteer (users Ref.db_fresh) /\
  u_latitude Ref.nowhere_volunteer = None /\
  u_longitude Ref.nowhere_volunteer = None /\
  exists rows,
    findMatchingVolunteersOnDemand Ref.ref_hashtext Ref.ref_cosine_distance Ref.ref_ST_Distance
      Ref.db_fresh "p1" 0 0 0 0 = Some (inr rows) /\
    In (u_id Ref.nowhere_volunteer) (List.map r_volunteer_id rows).
Proof.
  split; [simpl; auto|]. split; [reflexivity|]. split; [reflexivity|].
  destruct (on_demand_zero Ref.ref_hashtext Ref.ref_cosine_distance Ref.ref_ST_Distance
              Ref.db_fresh "p1" 0) as (ws & wd & _ & _ & ->).
  unfold find_matching_volunteers.
  rewrite (bool_decide_eq_true_2 (0%Z = 0%Z)) by reflexivity.
  rewrite (bool_decide_eq_false_2 (20 < 0)%Z) by lia. simpl scan_rows.
  eexists. split; [reflexivity|].
  destruct (ranked_contains_locationless Ref.ref_hashtext Ref.ref_cosine_distance
              Ref.ref_ST_Distance Ref.db_fresh Ref.toronto_project Ref.nowhere_volunteer
              ws wd 100) as (r & Hr & Hid & _); try (simpl; auto; fail).
  { split; [left|]; reflexivity. }
  rewrite <- Hid. apply in_map. apply In_take; [exact Hr|].
  unfold find_matching_volunteers_ranked.
  rewrite length_order_by_desc, length_map.
  etransitivity; [apply filter_length_le|]. simpl. lia.
Qed.

(** The volunteer "v2", without a location, has no record in the refreshed
    cache and is ranked by the on-demand query for "p1". *)
Lemma locationless_seeker_ranking_witness :
  (forall m,
      In m (project_volunteer_matches
              (refresh_all_matches Ref.ref_hashtext Ref.ref_cosine_distance Ref.db_fresh).1) ->
      volunteer_id m <> "v2") /\
  exists r,
    In r (find_matching_volunteers_ranked Ref.ref_hashtext Ref.ref_cosine_distance
            Ref.ref_ST_Distance Ref.db_fresh "p1" 0.7 0.3 100) /\
    r_volunteer_id r = "v2" /\
    r_distance_km r = 0 /\
    r_combined_score r = 0.7 * r_skill_score r + 0.3 * 0.5.
Proof.
  assert (In Ref.nowhere_volunteer (users Ref.db_fresh)) as Hin by (simpl; auto).
  assert (forall u', In u' (users Ref.db_fresh) ->
                     u_id u' = u_id Ref.nowhere_volunteer -> u' = Ref.nowhere_volunteer) as Hpk.
  { intros u' [<-|[<-|[<-|[]]]] H; try reflexivity; vm_compute in H; discriminate. }
  destruct (locationless_seeker_ranking Ref.ref_hashtext Ref.ref_cosine_distance
              Ref.ref_ST_Distance Ref.db_fresh Ref.nowhere_volunteer Hin
              (or_introl eq_refl) Hpk) as [Hbatch Hdemand].
  split; [exact Hbatch|].
  apply (Hdemand eq_refl eq_refl Ref.toronto_project). simpl; auto.
Defined.

(** Machin's series for [PI], to four decimals. *)
Lemma PI_bounds : 3.1415 < PI < 3.1417.
Proof.
  pose proof (PI_2_3_7_ineq 1) as [Hlo _].
  pose proof (PI_2_3_7_ineq 2) as [_ Hhi].
  unfold sum_f_R0, tg_alt, PI_2_3_7_tg, Ratan_seq in Hlo, Hhi.
  simpl in Hlo, Hhi. lra.
Qed.

(** Due north the inline formula is the length of the arc. *)
Lemma inline_haversine_north lat lon dlat :
  0 <= dlat <= 180 ->
  inline_haversine lat lon (lat + dlat) lon = 6371 * dlat * PI / 180.
Proof.
  intros Hd. unfold inline_haversine, RADIANS, LEAST.
  replace (lon - lon) with 0 by lra.
  replace (0 * PI / 180 / 2) with 0 by lra. rewrite sin_0.
  replace ((lat - (lat + dlat)) * PI / 180 / 2) with (- (dlat * PI / 360)) by lra.
  rewrite sin_neg.
  set (y := dlat * PI / 360).
  assert (0 <= y <= PI / 2) as Hy.
  { unfold y. pose proof PI_RGT_0. split; [nra|nra]. }
  assert (0 <= sin y) as Hs by (apply sin_ge_0; pose proof PI_RGT_0; lra).
  replace ((- sin y) ^ 2 + cos _ * cos _ * 0 ^ 2) with (Rsqr (sin y)) by (unfold Rsqr; ring).
  rewrite sqrt_Rsqr by done.
  rewrite Rmin_right by (pose proof (SIN_bound y); lra).
  rewrite asin_sin by lra. unfold y. lra.
Qed.

(** The pair of [Ref.db_threshold]: about 83.33 km apart, scored just above
    the threshold with the distance-priority weights. *)
Lemma threshold_pair_distance :
  83.327 < inline_haversine 43 (-79) 43.7494 (-79) < 83.3324.
Proof.
  replace 43.7494 with (43 + 0.7494) by lra.
  rewrite inline_haversine_north by lra.
  pose proof PI_bounds. lra.
Qed.

(** C6, as stated, fails.  The volunteer "v3" is about 83.33 km from the
    project "p1" and shares no region name with it: the computed score,
    0.6 * (1 - km / 100), lies between 0.1 and 0.10005, so the pair passes
    the threshold, and the cache stores the score 0.1000 and the distance
    83.33. *)
Lemma refresh_respects_cutoffs_counterexample :
  exists m,
    In m (project_volunteer_matches
            (refresh_all_matches Ref.ref_hashtext Ref.ref_cosine_distance
               Ref.db_threshold).1) /\
    project_id m = "p1" /\ volunteer_id m = "v3" /\
    distance_km m = 83.33 /\ combined_score m = 0.1 /\
    ~ combined_score m > 0.1.
Proof.
  pose (c0 := {| c_project_id := "p1"; c_volunteer_id := "v3";
                 c_p_location := Some "Toronto, Ontario, Canada";
                 c_u_location := Some "Beaverton";
                 c_skill_score := 0;
                 c_distance_km := inline_haversine 43 (-79) 43.7494 (-79);
                 c_matched_skills := [] |}).
  pose proof threshold_pair_distance as Hd.
  assert (0.1 < tiered_score c0 < 0.10005) as Hscore.
  { unfold tiered_score, c0. simpl c_p_location. simpl c_u_location.
    replace (national_exception _ _) with false by (vm_compute; reflexivity).
    simpl c_skill_score. simpl c_distance_km. unfold GREATEST.
    rewrite Rmax_right by lra. lra. }
  assert (to_decimal 4 (tiered_score c0) = 0.1) as Hstored.
  { rewrite (to_decimal_near 4 1000) by (simpl; lra). simpl. lra. }
  assert (to_decimal 2 (inline_haversine 43 (-79) 43.7494 (-79)) = 83.33) as Hkm.
  { rewrite (to_decimal_near 2 8333) by (simpl; lra). simpl. lra. }
  exists (stored_match (match_of c0)). split.
  - apply refresh_cache_spec. exists c0. split; [|split; [|split; [|reflexivity]]].
    + apply combination_spec. exists Ref.toronto_project, Ref.far_volunteer.
      split; [left; reflexivity|]. split; [left; reflexivity|].
      split; [reflexivity|]. split; [reflexivity|].
      split; [eexists; reflexivity|]. split; [eexists; reflexivity|].
      split; reflexivity.
    + unfold c0. simpl c_distance_km. lra.
    + lra.
  - split; [reflexivity|]. split; [reflexivity|].
    change (distance_km (stored_match (match_of c0)))
      with (to_decimal 2 (inline_haversine 43 (-79) 43.7494 (-79))).
    change (combined_score (stored_match (match_of c0)))
      with (to_decimal 4 (tiered_score c0)).
    rewrite Hstored, Hkm. split; [reflexivity|]. split; [reflexivity|]. lra.
Qed.

(** The cached Toronto pair respects both cutoffs. *)
Lemma refresh_respects_cutoffs_witness :
  exists m c,
    In m (project_volunteer_matches
            (refresh_all_matches Ref.ref_hashtext Ref.ref_cosine_distance
               (Ref.db_with "requested")).1) /\
    In c (volunteer_project_combinations Ref.ref_hashtext Ref.ref_cosine_distance
            (Ref.db_with "requested")) /\
    c_project_id c = project_id m /\ c_volunteer_id c = volunteer_id m /\
    c_distance_km c <= 500 /\ tiered_score c > 0.1 /\
    distance_km m = to_decimal 2 (c_distance_km c) /\
    combined_score m = to_decimal 4 (tiered_score c) /\
    distance_km m <= 500 /\ combined_score m >= 0.1.
Proof.
  destruct (toronto_pair_is_cached Ref.ref_hashtext Ref.ref_cosine_distance
              [Ref.enrollment_of "e1" "v1" "p1" "requested"])
    as (m & Hin & _); [constructor; [discriminate|constructor]|].
  destruct (refresh_respects_cutoffs Ref.ref_hashtext Ref.ref_cosine_distance _ m Hin)
    as (c & H).
  exists m, c. split; [exact Hin|exact H].
Defined.

(** The cached Toronto pair is scored by the regime of its region. *)
Lemma refresh_scores_by_region_witness :
  exists m p u c,
    In m (project_volunteer_matches
            (refresh_all_matches Ref.ref_hashtext Ref.ref_cosine_distance
               (Ref.db_with "requested")).1) /\
    In p (projects (Ref.db_with "requested")) /\ In u (users (Ref.db_with "requested")) /\
    In c (volunteer_project_combinations Ref.ref_hashtext Ref.ref_cosine_distance
            (Ref.db_with "requested")) /\
    p_id p = project_id m /\ u_id u = volunteer_id m /\
    c_project_id c = p_id p /\ c_volunteer_id c = u_id u /\
    tiered_score c =
      (if Spec.same_designated_region (p_location_name p) (u_location_name u)
       then 0.7 * c_skill_score c + 0.3 * Rmax 0 (1 - c_distance_km c / 100)
       else 0.4 * c_skill_score c + 0.6 * Rmax 0 (1 - c_distance_km c / 100)) /\
    skill_score m = to_decimal 4 (c_skill_score c) /\
    distance_km m = to_decimal 2 (c_distance_km c) /\
    combined_score m = to_decimal 4 (tiered_score c).
Proof.
  destruct (toronto_pair_is_cached Ref.ref_hashtext Ref.ref_cosine_distance
              [Ref.enrollment_of "e1" "v1" "p1" "requested"])
    as (m & Hin & _); [constructor; [discriminate|constructor]|].
  destruct (refresh_scores_by_region Ref.ref_hashtext Ref.ref_cosine_distance _ m Hin)
    as (p & u & c & H).
  exists m, p, u, c. split; [exact Hin|exact H].
Defined.



(** The claimed skills "ab" (0.5) and "ba" (0.8) of "v1" both fall on slot
    195 of 1000, which holds 0.8, their maximum and not their sum; slot 0 is
    empty and holds 0. *)
Lemma skill_vector_slots_witness :
  exists v,
    get_volunteer_skill_vector Ref.ref_hashtext Ref.db_skilled "v1" 1000 = Some v /\
    length v = 1000%nat /\
    v !! 195%nat = Some 0.8 /\
    v !! 0%nat = Some 0.
Proof.
  destruct (proj1 (skill_vector_slots Ref.ref_hashtext Ref.db_skilled 1000 eq_refl) "v1")
    as (v & Hv & Hlen & Hslots & _).
  exists v. split; [exact Hv|]. split; [exact Hlen|]. split.
  - destruct (Hslots 195%nat eq_refl) as (x & Hx & Hval).
    rewrite Hx. f_equal.
    change (Spec.slot_value [0.5; 0.8] x) in Hval.
    destruct Hval as [Hin Hall].
    apply Forall_cons in Hall as [H1 Hall]. apply Forall_cons in Hall as [H2 _].
    destruct Hin as [<-|[<-|[]]]; lra.
  - destruct (Hslots 0%nat eq_refl) as (x & Hx & Hval).
    rewrite Hx. f_equal. exact Hval.
Defined.

End Instances.

(* ================================================================== *)
(** ** Invariants of the enrollment service and its handlers *)

Section EnrollmentInvariants.
Import EnrollmentService Constraints.

Variable uuid_in : string -> bool.

Lemma has_id_In db id :
  has_id db id = true <-> In id (List.map ID (volunteer_enrollments db)).
Proof.
  unfold has_id. rewrite existsb_exists, in_map_iff. split.
  - intros (e & He & H). apply bool_decide_eq_true in H. eauto.
  - intros (e & H & He). exists e. split; [done|]. by apply bool_decide_eq_true_2.
Qed.

Lemma has_pair_In db v p :
  has_pair db v p = true <-> In (v, p) (List.map pair_of (volunteer_enrollments db)).
Proof.
  unfold has_pair. rewrite existsb_exists, in_map_iff. split.
  - intros (e & He & H). apply andb_true_iff in H as [H1 H2].
    apply bool_decide_eq_true in H1, H2. exists e. unfold pair_of. by subst.
  - intros (e & H & He). exists e. split; [done|]. unfold pair_of in H.
    injection H as <- <-. by rewrite !bool_decide_eq_true_2.
Qed.

(** What a successful [CreateEnrollment] did. *)
Lemma create_inversion db now uuid v p action msg by_ db' e :
  CreateEnrollment db now uuid v p action msg by_ = (db', inr e) ->
  insertable db uuid v p by_ /\
  db' = set_enrollments db (volunteer_enrollments db ++ [e]) /\
  ID e = uuid /\ VolunteerID e = v /\ ProjectID e = p /\ InitiatedBy e = by_ /\
  (Status e = "requested" \/ Status e = "invited") /\
  Spec.initial_status action = Some (Status e) /\
  ApprovedAt e = None /\ CreatedAt e = now.
Proof.
  unfold CreateEnrollment, insert_enrollment, insertable, Spec.initial_status.
  destruct (bool_decide (action = "request") || bool_decide (action = "invite")) eqn:Ha;
    [|discriminate].
  destruct (has_id db uuid); [discriminate|].
  destruct (has_pair db v p); [discriminate|].
  destruct (has_user db v); [|discriminate].
  destruct (has_project db p); [|discriminate].
  destruct (has_user db by_); [|discriminate]. simpl.
  intros [= <- <-]. simpl.
  repeat split; try done.
  - destruct (bool_decide (action = "request")); auto.
  - destruct (bool_decide (action = "request")) eqn:H1; [done|].
    simpl in Ha. by rewrite Ha.
Qed.

(** A failed [CreateEnrollment] returns the database it was given. *)
Lemma create_error_keeps_db db now uuid v p action msg by_ db' err :
  CreateEnrollment db now uuid v p action msg by_ = (db', inl err) -> db' = db.
Proof.
  unfold CreateEnrollment, insert_enrollment.
  destruct (bool_decide (action = "request") || bool_decide (action = "invite"));
    [|by intros [= <- _]].
  repeat match goal with |- context [if ?b then _ else _] => destruct b end;
    simpl; intros H; by simplify_eq.
Qed.

(** What [UpdateEnrollmentStatus] did, in each outcome, whether or not the
    server takes the UPDATE. *)
Lemma update_inversion db now id action resp :
  (exists err,
      UpdateEnrollmentStatus uuid_in db now id action resp = (db, Some err)) \/
  (exists e s,
      find_enrollment db id = Some e /\
      next_status (Status e) action = inr s /\
      UpdateEnrollmentStatus uuid_in db now id action resp =
        (set_enrollments db
           (update_where_id now id s (if bool_decide (resp = "") then None else Some resp)
              (volunteer_enrollments db)), None)).
Proof.
  unfold UpdateEnrollmentStatus.
  destruct (uuid_in id); cbn [negb]; [|left; eauto].
  destruct (find_enrollment db id) as [e|] eqn:Hf; [|left; eauto].
  destruct (next_status (Status e) action) as [err|s] eqn:Hn; [left; eauto|].
  destruct (Pg.prepare update_status_uses); [left; eauto|].
  right. exists e, s. unfold find_enrollment in Hf.
  rewrite (rows_affected_found _ _ _ Hf). auto.
Qed.

Lemma next_status_values cur action s :
  next_status cur action = inr s ->
  (cur = "requested" \/ cur = "invited") /\
  (s = "enrolled" \/ s = "tl_rejected" \/ s = "v_rejected").
Proof.
  unfold next_status.
  repeat (case_bool_decide; simplify_eq; simpl; try discriminate);
    intros [= <-]; auto.
Qed.

Lemma update_where_id_ID now id s r rows :
  List.map ID (update_where_id now id s r rows) = List.map ID rows.
Proof.
  unfold update_where_id. rewrite List.map_map. apply map_ext.
  intros e. by destruct (bool_decide (ID e = id)).
Qed.

Lemma update_where_id_pair now id s r rows :
  List.map pair_of (update_where_id now id s r rows) = List.map pair_of rows.
Proof.
  unfold update_where_id. rewrite List.map_map. apply map_ext.
  intros e. by destruct (bool_decide (ID e = id)).
Qed.

Lemma has_user_set_enrollments db rows id :
  has_user (set_enrollments db rows) id = has_user db id.
Proof. reflexivity. Qed.

Lemma update_where_id_Forall (P : Enrollment -> Prop) now id s r rows :
  Forall P rows ->
  (forall e, In e rows -> ID e = id -> P e -> P (update_row now s r e)) ->
  Forall P (update_where_id now id s r rows).
Proof.
  intros HP Hupd. unfold update_where_id. apply Forall_forall.
  intros e' He'. apply list_elem_of_In, in_map_iff in He' as (e & <- & He).
  rewrite Forall_forall in HP. pose proof (HP e (proj2 (list_elem_of_In _ _) He)) as HPe.
  case_bool_decide; [by apply Hupd|done].
Qed.

(** X1.  Both writing operations of the enrollment service keep the constraints
    of the table [volunteer_enrollments]: unique ids, one row per
    (volunteer, project) pair, volunteer, project and initiator present in
    their tables, and a status among the five of the CHECK constraint.  This
    holds for every argument, whether the operation succeeds or fails. *)
Theorem service_keeps_table_constraints db :
  enrollment_constraints db ->
  (forall now uuid v p action msg by_,
      enrollment_constraints (CreateEnrollment db now uuid v p action msg by_).1) /\
  (forall now id action resp,
      enrollment_constraints (UpdateEnrollmentStatus uuid_in db now id action resp).1).
Proof.
  intros (Hpk & Hpair & Hfk & Hchk). split.
  - intros now uuid v p action msg by_.
    destruct (CreateEnrollment db now uuid v p action msg by_) as [db' [err|e]] eqn:Hc.
    + apply create_error_keeps_db in Hc as ->. simpl. by repeat split.
    + apply create_inversion in Hc
        as ((Hid & Hp & Hv & Hpr & Hby) & -> & <- & <- & <- & <- & Hst & _).
      simpl. unfold enrollment_constraints, enrollments_pkey, enrollments_pair_key,
        enrollments_fkeys, chk_enrollment_status. simpl.
      rewrite !List.map_app. simpl. repeat split.
      * apply NoDup_app. split; [done|].
        split; [|apply NoDup_singleton].
        intros x Hx ->%list_elem_of_singleton.
        apply list_elem_of_In, has_id_In in Hx. congruence.
      * apply NoDup_app. split; [done|].
        split; [|apply NoDup_singleton].
        intros x Hx ->%list_elem_of_singleton.
        apply list_elem_of_In, has_pair_In in Hx. congruence.
      * apply Forall_app. split; [exact Hfk|]. by repeat constructor.
      * apply Forall_app. split; [exact Hchk|]. constructor; [|constructor].
        destruct Hst as [-> | ->]; reflexivity.
  - intros now id action resp.
    destruct (update_inversion db now id action resp) as [[err ->]|(e & s & Hf & Hn & ->)].
    + simpl. by repeat split.
    + simpl. unfold enrollment_constraints, enrollments_pkey, enrollments_pair_key,
        enrollments_fkeys, chk_enrollment_status. simpl.
      rewrite update_where_id_ID, update_where_id_pair. repeat split; try done.
      * apply update_where_id_Forall; [exact Hfk|]. intros e0 _ _ H. exact H.
      * apply update_where_id_Forall; [exact Hchk|]. intros e0 _ _ _. simpl.
        apply next_status_values in Hn as [_ [-> | [-> | ->]]]; reflexivity.
Qed.


Lemma pkey_row_unique rows id e e0 :
  NoDup (List.map ID rows) ->
  List.find (fun e => bool_decide (ID e = id)) rows = Some e ->
  In e0 rows -> ID e0 = id -> e0 = e.
Proof.
  induction rows as [|x rows IH]; simpl; [discriminate|].
  intros Hnd Hf Hin Hid. apply NoDup_cons in Hnd as [Hx Hnd].
  destruct (bool_decide (ID x = id)) eqn:Hxid.
  - apply bool_decide_eq_true in Hxid. injection Hf as <-.
    destruct Hin as [-> | Hin]; [done|].
    exfalso. apply Hx. apply list_elem_of_In, in_map_iff. exists e0. split; [congruence|done].
  - apply bool_decide_eq_false in Hxid.
    destruct Hin as [-> | Hin]; [done|]. by apply IH.
Qed.

(** X2.  With unique ids, the service keeps [approved_at] in step with the
    status: if every row has an approval timestamp exactly when its status is
    'enrolled', the same holds after any [CreateEnrollment] and any
    [UpdateEnrollmentStatus]. *)
Theorem service_keeps_approved_iff_enrolled db :
  enrollments_pkey db ->
  approved_iff_enrolled db ->
  (forall now uuid v p action msg by_,
      approved_iff_enrolled (CreateEnrollment db now uuid v p action msg by_).1) /\
  (forall now id action resp,
      approved_iff_enrolled (UpdateEnrollmentStatus uuid_in db now id action resp).1).
Proof.
  intros Hpk Hinv. split.
  - intros now uuid v p action msg by_.
    destruct (CreateEnrollment db now uuid v p action msg by_) as [db' [err|e]] eqn:Hc.
    + by apply create_error_keeps_db in Hc as ->.
    + apply create_inversion in Hc as (_ & -> & _ & _ & _ & _ & Hst & _ & Hap & _).
      unfold approved_iff_enrolled. simpl. apply Forall_app. split; [exact Hinv|].
      constructor; [|constructor]. rewrite Hap. split.
      * intros [x Hx]. discriminate.
      * intros H. destruct Hst as [H'|H']; rewrite H' in H; discriminate.
  - intros now id action resp.
    destruct (update_inversion db now id action resp) as [[err ->]|(e & s & Hf & Hn & ->)];
      [exact Hinv|].
    unfold approved_iff_enrolled. simpl.
    apply update_where_id_Forall; [exact Hinv|].
    intros e0 He0 Hid0 Hiff. simpl.
    case_bool_decide as Hs.
    + split; [done|]. intros _. by eexists.
    + split; [|done]. intros Hsome. apply Hiff in Hsome.
      assert (e0 = e) as -> by (by eapply pkey_row_unique).
      apply next_status_values in Hn as [[Hc | Hc] _]; rewrite Hc in Hsome; discriminate.
Qed.

(** X3.  A row whose status is terminal (enrolled, tl_rejected or v_rejected)
    is found unchanged after any sequence of [UpdateEnrollmentStatus] calls,
    whatever their ids, actions and response messages. *)
Theorem terminal_row_is_final db id e calls :
  find_enrollment db id = Some e ->
  In (Status e) Spec.terminal_statuses ->
  find_enrollment (run_transitions uuid_in db calls) id = Some e.
Proof.
  intros Hf Hs. revert db Hf. unfold run_transitions.
  induction calls as [|c calls IH]; intros db Hf; simpl; [exact Hf|].
  apply IH.
  destruct (update_inversion db (call_now c) (call_id c) (call_action c) (call_response c))
    as [[err ->]|(e0 & s & Hf0 & Hn & ->)]; [exact Hf|].
  simpl. unfold find_enrollment in *. simpl.
  destruct (decide (call_id c = id)) as [Heq|Hne].
  - rewrite Heq in Hf0. rewrite Hf0 in Hf. injection Hf as ->.
    apply next_status_values in Hn as [Hcur _]. simpl in Hs.
    destruct Hcur as [Hc|Hc]; rewrite Hc in Hs; intuition discriminate.
  - clear Hf0 IH. revert Hf. generalize (volunteer_enrollments db) as rows.
    induction rows as [|x rows IHr]; simpl; [done|].
    destruct (bool_decide (ID x = id)) eqn:Hx.
    + intros [= ->]. apply bool_decide_eq_true in Hx.
      rewrite (bool_decide_eq_false_2 (ID e = call_id c)) by congruence.
      by rewrite bool_decide_eq_true_2.
    + intros H. destruct (bool_decide (ID x = call_id c)); simpl; rewrite Hx; by apply IHr.
Qed.


Lemma is_enrolled_spec db v p :
  IsVolunteerEnrolled db v p = true <->
  exists e, In e (volunteer_enrollments db) /\ VolunteerID e = v /\ ProjectID e = p /\
            (Status e = "requested" \/ Status e = "invited" \/ Status e = "enrolled").
Proof.
  unfold IsVolunteerEnrolled. rewrite existsb_exists. split.
  - intros (e & He & H). apply andb_true_iff in H as [H H3].
    apply andb_true_iff in H as [H1 H2]. apply bool_decide_eq_true in H1, H2, H3.
    exists e. repeat split; try done.
    rewrite !elem_of_cons in H3. destruct H3 as [?|[?|[?|H3]]]; auto.
    by apply elem_of_nil in H3.
  - intros (e & He & H1 & H2 & H3). exists e. split; [done|].
    rewrite !bool_decide_eq_true_2; [done| |done|done].
    rewrite !elem_of_cons. tauto.
Qed.

Lemma pair_row_unique rows e e0 :
  NoDup (List.map pair_of rows) -> In e rows -> In e0 rows ->
  pair_of e0 = pair_of e -> e0 = e.
Proof.
  induction rows as [|x rows IH]; simpl; [done|].
  intros Hnd He He0 Hp. apply NoDup_cons in Hnd as [Hx Hnd].
  destruct He as [-> | He], He0 as [-> | He0]; try done.
  - exfalso. apply Hx. apply list_elem_of_In, in_map_iff. eauto.
  - exfalso. apply Hx. apply list_elem_of_In, in_map_iff. eauto.
  - by apply IH.
Qed.

(** X4.  [IsVolunteerEnrolled] is set by [CreateEnrollment] alone: it is
    false for a pair without a row and true right after a successful
    [CreateEnrollment] of the pair, and no call of [UpdateEnrollmentStatus]
    changes it for any pair, since the call returns an error and leaves the
    table as it was. *)
Theorem enrolled_flag_set_by_create_only db :
  (forall v p, has_pair db v p = false -> IsVolunteerEnrolled db v p = false) /\
  (forall now uuid v p action msg by_ db' e,
      CreateEnrollment db now uuid v p action msg by_ = (db', inr e) ->
      IsVolunteerEnrolled db' v p = true) /\
  (forall now id action resp,
      exists err,
        UpdateEnrollmentStatus uuid_in db now id action resp = (db, Some err) /\
        forall v p,
          IsVolunteerEnrolled (UpdateEnrollmentStatus uuid_in db now id action resp).1 v p =
          IsVolunteerEnrolled db v p).
Proof.
  split; [|split].
  - intros v p Hp. apply not_true_is_false. intros H.
    apply is_enrolled_spec in H as (e & He & <- & <- & _).
    assert (has_pair db (VolunteerID e) (ProjectID e) = true); [|congruence].
    apply has_pair_In. apply in_map_iff. by exists e.
  - intros now uuid v p action msg by_ db' e Hc.
    apply create_inversion in Hc as (_ & -> & _ & Hv & Hp & _ & Hst & _).
    apply is_enrolled_spec. exists e. simpl. repeat split; try done.
    + apply in_app_iff. right. by left.
    + tauto.
  - intros now id action resp. rewrite update_outcome. eauto.
Qed.

Lemma find_by_pkey db e :
  enrollments_pkey db -> In e (volunteer_enrollments db) ->
  find_enrollment db (ID e) = Some e.
Proof.
  unfold enrollments_pkey, find_enrollment. intros Hpk Hin.
  destruct (List.find _ _) as [e0|] eqn:Hf.
  - f_equal. symmetry. by eapply pkey_row_unique.
  - exfalso. eapply find_none in Hf; [|exact Hin].
    by rewrite bool_decide_eq_true_2 in Hf.
Qed.

(** X5.  A rejected pair is locked: with unique ids and pairs, when the row of a
    pair is tl_rejected or v_rejected the volunteer does not count as
    enrolled, every [CreateEnrollment] for the pair fails and every
    [UpdateEnrollmentStatus] on the row fails, all leaving the tables as they
    were. *)
Theorem rejected_pair_is_locked db e :
  enrollments_pkey db ->
  enrollments_pair_key db ->
  In e (volunteer_enrollments db) ->
  Status e = "tl_rejected" \/ Status e = "v_rejected" ->
  IsVolunteerEnrolled db (VolunteerID e) (ProjectID e) = false /\
  (forall now uuid action msg by_,
      exists err,
        CreateEnrollment db now uuid (VolunteerID e) (ProjectID e) action msg by_
          = (db, inl err)) /\
  (forall now action resp,
      exists err,
        UpdateEnrollmentStatus uuid_in db now (ID e) action resp = (db, Some err)).
Proof.
  intros Hpk Hpair Hin Hst. split; [|split].
  - apply not_true_is_false. intros H.
    apply is_enrolled_spec in H as (e0 & He0 & Hv & Hp & Hs).
    assert (e0 = e) as ->.
    { apply (pair_row_unique (volunteer_enrollments db)); try done.
      unfold pair_of. congruence. }
    destruct Hst as [H|H]; rewrite H in Hs; intuition discriminate.
  - intros now uuid action msg by_.
    assert (has_pair db (VolunteerID e) (ProjectID e) = true) as Hp.
    { apply has_pair_In, in_map_iff. by exists e. }
    unfold CreateEnrollment, insert_enrollment. rewrite Hp.
    destruct (bool_decide (action = "request") || bool_decide (action = "invite"));
      destruct (has_id db uuid); eauto.
  - intros now action resp.
    pose proof (find_by_pkey db e Hpk Hin) as Hf.
    destruct (update_inversion db now (ID e) action resp)
      as [[err ->]|(e1 & s & Hf1 & Hn & _)]; [eauto|].
    exfalso. rewrite Hf in Hf1. injection Hf1 as <-.
    apply next_status_values in Hn as [[H|H] _]; destruct Hst as [H'|H'];
      rewrite H in H'; discriminate.
Qed.

Lemma next_status_valid_action cur action :
  In action Spec.transition_actions ->
  match Spec.transition cur action with
  | Some s => next_status cur action = inr s
  | None => next_status cur action = inl (invalid_transition_error action cur)
  end.
Proof.
  intros Ha. simpl in Ha.
  unfold Spec.transition, Spec.transition_table, next_status, invalid_transition_error.
  destruct Ha as [<-|[<-|[<-|[]]]]; simpl;
    repeat (case_bool_decide; simplify_eq; simpl; try done).
Qed.

End EnrollmentInvariants.

Section HandlerFacts.
Import EnrollmentService EnrollmentHandler.

Variable uuid_in : string -> bool.

(** X6.  The outcomes of the HTTP handler [CreateEnrollment]: a JSON answer
    means one row was appended, with the generated id, the requested
    project, the caller as initiator, the initial status of the action, and
    as volunteer the caller, or for 'invite' the requested volunteer when one
    is given; an error answer has code 400, 409 or 500 and leaves the tables
    unchanged; a bare 200 is never sent. *)
Theorem create_handler_outcomes db now uuid req userID :
  match EnrollmentHandler.CreateEnrollment db now uuid req userID with
  | (db', Json e) =>
      db' = set_enrollments db (volunteer_enrollments db ++ [e]) /\
      ID e = uuid /\ ProjectID e = req_ProjectID req /\ InitiatedBy e = userID /\
      Spec.initial_status (req_Action req) = Some (Status e) /\
      VolunteerID e = (if bool_decide (req_Action req = "invite")
                       then default userID (req_VolunteerID req) else userID)
  | (db', HttpError code _) =>
      db' = db /\
      (code = StatusBadRequest \/ code = StatusConflict \/ code = StatusInternalServerError)
  | (_, Status200) => False
  end.
Proof.
  unfold EnrollmentHandler.CreateEnrollment.
  destruct (bool_decide (userID = "")); [by auto|].
  destruct (negb _ && negb _); [by auto|].
  destruct (bool_decide (req_Action req = "invite") && _); [by auto|].
  destruct (EnrollmentService.CreateEnrollment _ _ _ _ _ _ _ _) as [db' [err|e]] eqn:Hc.
  - apply create_error_keeps_db in Hc as ->.
    destruct (Str.Contains _ _ && Str.Contains _ _); auto.
  - apply create_inversion in Hc as (_ & -> & Hid & Hv & Hp & Hby & _ & Hst & _).
    repeat split; done.
Qed.

Lemma prefix_empty s : String.prefix "" s = true.
Proof. by destruct s. Qed.

Lemma refused_transition_is_bad_request action cur :
  Str.HasPrefix (invalid_transition_error action cur) "cannot " = true.
Proof.
  unfold Str.HasPrefix, invalid_transition_error.
  generalize (action ++ " enrollment in status: " ++ cur). intros rest.
  destruct rest; reflexivity.
Qed.

(** X7.  The outcomes of the HTTP handler [UpdateEnrollmentStatus]: every
    request is answered by an error and leaves the tables unchanged.  An
    action other than accept, reject and withdraw gives 400.  Otherwise a
    path id that is not a UUID gives the server's complaint about the id,
    as 500 'Failed to update enrollment: ...' (as 400 'Bad request: ...' if
    the text holds 'invalid action'); an unknown id gives 500 'Failed to
    update enrollment: enrollment not found'; a transition the table
    refuses gives 400 'Bad request: ' followed by the service's message; and
    a transition the table lists gives 500 with the server's refusal of the
    UPDATE.  Neither 200 nor a JSON body is ever sent. *)
Theorem update_handler_outcomes db now id req :
  let action := upd_Action req in
  let valid := bool_decide (In action Spec.transition_actions) in
  let id_error := "failed to get current status: " ++ Pg.invalid_uuid id in
  exists code body,
    EnrollmentHandler.UpdateEnrollmentStatus uuid_in db now id req =
      (db, HttpError code body) /\
    (valid = false /\ code = StatusBadRequest /\
     body = "Invalid action (must be 'accept', 'reject' or 'withdraw')"
     \/
     valid = true /\ uuid_in id = false /\
     (code, body) =
       (if Str.Contains (Str.ToLower id_error) "invalid action"
        then (StatusBadRequest, "Bad request: " ++ id_error)
        else (StatusInternalServerError, "Failed to update enrollment: " ++ id_error))
     \/
     valid = true /\ uuid_in id = true /\ find_enrollment db id = None /\
     code = StatusInternalServerError /\
     body = "Failed to update enrollment: enrollment not found"
     \/
     valid = true /\ uuid_in id = true /\
     (exists e, find_enrollment db id = Some e /\
                Spec.transition (Status e) action = None /\
                code = StatusBadRequest /\
                body = "Bad request: " ++ invalid_transition_error action (Status e))
     \/
     valid = true /\ uuid_in id = true /\
     (exists e s, find_enrollment db id = Some e /\
                  Spec.transition (Status e) action = Some s /\
                  code = StatusInternalServerError /\
                  body = "Failed to update enrollment: " ++ update_refused_error)).
Proof.
  intros action valid id_error. subst action valid id_error.
  unfold EnrollmentHandler.UpdateEnrollmentStatus.
  destruct (negb (bool_decide (upd_Action req = "accept")) &&
            negb (bool_decide (upd_Action req = "reject")) &&
            negb (bool_decide (upd_Action req = "withdraw"))) eqn:Hv.
  - eexists _, _. split; [reflexivity|]. left. split; [|done].
    apply bool_decide_eq_false_2. simpl. intros [H|[H|[H|[]]]];
      rewrite <- H in Hv; discriminate.
  - assert (In (upd_Action req) Spec.transition_actions) as Hin.
    { simpl. repeat case_bool_decide; auto; discriminate. }
    assert (bool_decide (In (upd_Action req) Spec.transition_actions) = true) as Hvalid
      by (by apply bool_decide_eq_true_2).
    rewrite update_outcome.
    destruct (uuid_in id) eqn:Hu.
    + destruct (find_enrollment db id) as [e|] eqn:Hf.
      * pose proof (next_status_valid_action (Status e) (upd_Action req) Hin) as Hn.
        destruct (Spec.transition (Status e) (upd_Action req)) as [s|] eqn:Ht; rewrite Hn.
        -- replace (Str.HasPrefix update_refused_error "cannot " ||
                    Str.Contains (Str.ToLower update_refused_error) "invalid action")
             with false by (vm_compute; reflexivity).
           eexists _, _. split; [reflexivity|]. do 4 right.
           split; [done|]. split; [done|]. by exists e, s.
        -- rewrite refused_transition_is_bad_request. simpl.
           eexists _, _. split; [reflexivity|]. do 3 right. left.
           split; [done|]. split; [done|]. by exists e.
      * replace (Str.HasPrefix "enrollment not found" "cannot " ||
                 Str.Contains (Str.ToLower "enrollment not found") "invalid action")
          with false by (vm_compute; reflexivity).
        eexists _, _. split; [reflexivity|]. do 2 right. left. done.
    + replace (Str.HasPrefix ("failed to get current status: " ++ Pg.invalid_uuid id) "cannot ")
        with false by reflexivity.
      rewrite orb_false_l.
      destruct (Str.Contains _ "invalid action");
        (eexists _, _; split; [reflexivity|]; right; left; done).
Qed.

End HandlerFacts.

(* ================================================================== *)
(** ** Enrollment listings *)

Section ListingFacts.
Import EnrollmentService Constraints EnrollmentQueries.

Lemma In_insert_newest x y l : In y (insert_newest x l) <-> y = x \/ In y l.
Proof.
  induction l as [|z l IH]; simpl; [intuition|].
  destruct (_ <? _)%Z; simpl; [intuition|]. rewrite IH. intuition.
Qed.

Lemma In_newest_first y l : In y (newest_first l) <-> In y l.
Proof.
  unfold newest_first. induction l as [|x l IH]; simpl; [tauto|].
  rewrite In_insert_newest, IH. intuition.
Qed.

Lemma insert_newest_perm x l : Permutation (insert_newest x l) (x :: l).
Proof.
  induction l as [|z l IH]; simpl; [done|].
  destruct (_ <? _)%Z; [done|]. rewrite IH. apply perm_swap.
Qed.

Lemma newest_first_perm l : Permutation (newest_first l) l.
Proof.
  unfold newest_first. induction l as [|x l IH]; simpl; [done|].
  rewrite insert_newest_perm. by constructor.
Qed.

Lemma insert_newest_sorted x l :
  StronglySorted not_older l -> StronglySorted not_older (insert_newest x l).
Proof.
  induction 1 as [|z l Hs IH Hall]; simpl; [repeat constructor|].
  destruct (_ <? _)%Z eqn:Hlt.
  - apply Z.ltb_lt in Hlt. constructor; [by constructor|].
    constructor; [unfold not_older; lia|].
    eapply Forall_impl; [exact Hall|]. unfold not_older. simpl. intros; lia.
  - apply Z.ltb_ge in Hlt. constructor; [exact IH|].
    apply Forall_forall. intros y Hy. apply list_elem_of_In, In_insert_newest in Hy as [->|Hy].
    + exact Hlt.
    + rewrite Forall_forall in Hall. apply Hall. by apply list_elem_of_In.
Qed.

Lemma newest_first_sorted l : StronglySorted not_older (newest_first l).
Proof.
  unfold newest_first. induction l as [|x l IH]; simpl; [constructor|].
  by apply insert_newest_sorted.
Qed.

Lemma joined_spec db d :
  In d (joined_enrollments db) <->
  exists ve u p initiator,
    In ve (volunteer_enrollments db) /\ In u (users db) /\
    In p (projects db) /\ In initiator (users db) /\
    u_id u = VolunteerID ve /\ p_id p = ProjectID ve /\
    u_id initiator = InitiatedBy ve /\
    d = details_of ve u p initiator.
Proof.
  unfold joined_enrollments. rewrite in_flat_map. split.
  - intros (ve & Hve & H). apply in_flat_map in H as (u & Hu & H).
    apply in_flat_map in H as (p & Hp & H). apply in_flat_map in H as (i & Hi & H).
    destruct (_ && _) eqn:Hc in H; [|destruct H]. destruct H as [<-|[]].
    apply andb_true_iff in Hc as [Hc H3]. apply andb_true_iff in Hc as [H1 H2].
    apply bool_decide_eq_true in H1, H2, H3. exists ve, u, p, i. by repeat split.
  - intros (ve & u & p & i & Hve & Hu & Hp & Hi & H1 & H2 & H3 & ->).
    exists ve. split; [done|]. apply in_flat_map. exists u. split; [done|].
    apply in_flat_map. exists p. split; [done|].
    apply in_flat_map. exists i. split; [done|].
    rewrite !bool_decide_eq_true_2 by done. simpl. auto.
Qed.

(** X8.  [GetProjectEnrollments] and [GetVolunteerEnrollments] return the
    joined rows of the project, respectively the volunteer, and no others,
    newest first. *)
Theorem listings_are_filtered_and_sorted db :
  (forall projectID,
      StronglySorted not_older (GetProjectEnrollments db projectID) /\
      forall d, In d (GetProjectEnrollments db projectID) <->
                In d (joined_enrollments db) /\ ProjectID (d_Enrollment d) = projectID) /\
  (forall volunteerID,
      StronglySorted not_older (GetVolunteerEnrollments db volunteerID) /\
      forall d, In d (GetVolunteerEnrollments db volunteerID) <->
                In d (joined_enrollments db) /\ VolunteerID (d_Enrollment d) = volunteerID).
Proof.
  split; intros k; (split; [apply newest_first_sorted|]); intros d;
    unfold GetProjectEnrollments, GetVolunteerEnrollments;
    rewrite In_newest_first, filter_In; by rewrite bool_decide_eq_true.
Qed.

Lemma flat_map_nil {A B} (l : list A) : flat_map (fun _ => @nil B) l = [].
Proof. induction l; simpl; auto. Qed.

(** In a list keyed without duplicates, a selection that is empty off the
    key of [x] yields what it yields on [x]. *)
Lemma flat_map_by_key {A B} (key : A -> string) (g : A -> list B) l x :
  NoDup (List.map key l) -> In x l ->
  (forall y, key y <> key x -> g y = []) ->
  flat_map g l = g x.
Proof.
  intros Hnd Hin Hg.
  assert (forall l', (forall z, In z l' -> key z <> key x) -> flat_map g l' = []) as Hoff.
  { induction l' as [|z l' IH']; simpl; [done|]. intros Hz.
    rewrite Hg, IH'; auto. }
  induction l as [|y l IH]; simpl; [done|].
  simpl in Hnd. apply NoDup_cons in Hnd as [Hy Hnd].
  rewrite list_elem_of_In, in_map_iff in Hy.
  destruct Hin as [->|Hin].
  - rewrite Hoff; [by rewrite app_nil_r|].
    intros z Hz Hk. apply Hy. eauto.
  - rewrite (Hg y), IH; try done.
    intros Hk. apply Hy. eauto.
Qed.

Lemma has_user_row db id :
  has_user db id = true -> exists u, In u (users db) /\ u_id u = id.
Proof.
  unfold has_user. intros (u & Hu & H)%existsb_exists.
  apply bool_decide_eq_true in H. eauto.
Qed.

Lemma has_project_row db id :
  has_project db id = true -> exists p, In p (projects db) /\ p_id p = id.
Proof.
  unfold has_project. intros (p & Hp & H)%existsb_exists.
  apply bool_decide_eq_true in H. eauto.
Qed.

(** X9.  Under the primary keys of [users] and [projects] and the foreign keys
    of [volunteer_enrollments], the three inner joins of the listings neither
    drop nor repeat a row: the joined rows are the table's rows in order, and
    each listing is a rearrangement of the table's rows of the project,
    respectively the volunteer. *)
Theorem listings_lose_nothing db :
  users_pkey db -> projects_pkey db -> enrollments_fkeys db ->
  List.map d_Enrollment (joined_enrollments db) = volunteer_enrollments db /\
  (forall projectID,
      Permutation (List.map d_Enrollment (GetProjectEnrollments db projectID))
                  (List.filter (fun e => bool_decide (ProjectID e = projectID))
                               (volunteer_enrollments db))) /\
  (forall volunteerID,
      Permutation (List.map d_Enrollment (GetVolunteerEnrollments db volunteerID))
                  (List.filter (fun e => bool_decide (VolunteerID e = volunteerID))
                               (volunteer_enrollments db))).
Proof.
  intros Hu Hp Hfk.
  assert (List.map d_Enrollment (joined_enrollments db) = volunteer_enrollments db) as Hj.
  { unfold joined_enrollments, enrollments_fkeys in *.
    induction Hfk as [|ve rows (Hv & Hpr & Hby) _ IH]; simpl; [done|].
    rewrite List.map_app, IH. 
    destruct (has_user_row _ _ Hv) as (u & Hinu & Hidu).
    destruct (has_project_row _ _ Hpr) as (p & Hinp & Hidp).
    destruct (has_user_row _ _ Hby) as (i & Hini & Hidi).
    rewrite (flat_map_by_key u_id _ (users db) u Hu Hinu).
    2:{ intros y Hy. rewrite bool_decide_eq_false_2 by congruence. simpl.
        erewrite flat_map_ext; [apply flat_map_nil|]. intros; simpl. apply flat_map_nil. }
    rewrite (flat_map_by_key p_id _ (projects db) p Hp Hinp).
    2:{ intros y Hy. rewrite (bool_decide_eq_false_2 (p_id y = _)) by congruence.
        rewrite andb_false_r. simpl. apply flat_map_nil. }
    rewrite (flat_map_by_key u_id _ (users db) i Hu Hini).
    2:{ intros y Hy. rewrite (bool_decide_eq_false_2 (u_id y = _)) by congruence.
        by rewrite andb_false_r. }
    rewrite !bool_decide_eq_true_2 by done. reflexivity. }
  split; [exact Hj|].
  assert (forall (P : Enrollment -> bool) l,
             List.map d_Enrollment (List.filter (fun d => P (d_Enrollment d)) l) =
             List.filter P (List.map d_Enrollment l)) as Hfm.
  { intros P l. induction l as [|d l IH]; simpl; [done|].
    destruct (P (d_Enrollment d)); simpl; by rewrite IH. }
  split; intros k; unfold GetProjectEnrollments, GetVolunteerEnrollments;
    (etransitivity; [apply Permutation_map, newest_first_perm|]).
  - pose proof (Hfm (fun e => bool_decide (ProjectID e = k)) (joined_enrollments db)) as H.
    simpl in H. by rewrite H, Hj.
  - pose proof (Hfm (fun e => bool_decide (VolunteerID e = k)) (joined_enrollments db)) as H.
    simpl in H. by rewrite H, Hj.
Qed.

(** X10.  A row returned by a successful [CreateEnrollment] is listed right away
    under its project and under its volunteer. *)
Theorem created_enrollment_is_listed db now uuid v p action msg by_ db' e :
  CreateEnrollment db now uuid v p action msg by_ = (db', inr e) ->
  (exists d, In d (GetProjectEnrollments db' p) /\ d_Enrollment d = e) /\
  (exists d, In d (GetVolunteerEnrollments db' v) /\ d_Enrollment d = e).
Proof.
  intros Hc.
  apply create_inversion in Hc as ((_ & _ & Hv & Hp & Hby) & -> & _ & <- & <- & <- & _).
  destruct (has_user_row _ _ Hv) as (u & Hinu & Hidu).
  destruct (has_project_row _ _ Hp) as (pr & Hinp & Hidp).
  destruct (has_user_row _ _ Hby) as (i & Hini & Hidi).
  assert (In (details_of e u pr i)
             (joined_enrollments
                (set_enrollments db (volunteer_enrollments db ++ [e])))) as Hj.
  { apply joined_spec. exists e, u, pr, i. simpl. repeat split; try done.
    apply in_app_iff. right. by left. }
  split; exists (details_of e u pr i); (split; [|done]).
  - unfold GetProjectEnrollments. apply In_newest_first, filter_In. split; [done|].
    by apply bool_decide_eq_true_2.
  - unfold GetVolunteerEnrollments. apply In_newest_first, filter_In. split; [done|].
    by apply bool_decide_eq_true_2.
Qed.

End ListingFacts.

(* ================================================================== *)
(** ** Great-circle distance *)

Section GeoFacts.
Import Num Sql Geo.
Open Scope R_scope.

Lemma sin_half_sqr x : sin (x / 2) * sin (x / 2) = (1 - cos x) / 2.
Proof.
  pose proof (cos_2a_sin (x / 2)) as H.
  replace (2 * (x / 2)) with x in H by lra. lra.
Qed.

Lemma unit_vectors_dot s1 c1 s2 c2 C :
  s1 * s1 + c1 * c1 = 1 -> s2 * s2 + c2 * c2 = 1 -> -1 <= C <= 1 ->
  -1 <= s1 * s2 + c1 * c2 * C <= 1.
Proof.
  intros H1 H2 HC.
  assert (0 <= c2 * c2 * (1 - C * C)) as HCC.
  { apply Rmult_le_pos; nra. }
  assert (c2 * c2 * (C * C) <= c2 * c2) by lra.
  pose proof (Rle_0_sqr (s1 - s2)) as A1. pose proof (Rle_0_sqr (c1 - c2 * C)) as A2.
  pose proof (Rle_0_sqr (s1 + s2)) as A3. pose proof (Rle_0_sqr (c1 + c2 * C)) as A4.
  unfold Rsqr in *.
  split.
  - replace ((s1 + s2) * (s1 + s2)) with (s1 * s1 + s2 * s2 + 2 * (s1 * s2)) in A3 by ring.
    replace ((c1 + c2 * C) * (c1 + c2 * C))
      with (c1 * c1 + c2 * c2 * (C * C) + 2 * (c1 * c2 * C)) in A4 by ring.
    lra.
  - replace ((s1 - s2) * (s1 - s2)) with (s1 * s1 + s2 * s2 - 2 * (s1 * s2)) in A1 by ring.
    replace ((c1 - c2 * C) * (c1 - c2 * C))
      with (c1 * c1 + c2 * c2 * (C * C) - 2 * (c1 * c2 * C)) in A2 by ring.
    lra.
Qed.

(** The haversine term lies in [0,1] for all arguments. *)
Lemma haversine_a_range lat1 lon1 lat2 lon2 :
  0 <= haversine_a lat1 lon1 lat2 lon2 <= 1.
Proof.
  unfold haversine_a.
  replace (cos lat1 * cos lat2 * sin ((lon2 - lon1) / 2) * sin ((lon2 - lon1) / 2))
    with (cos lat1 * cos lat2 * (sin ((lon2 - lon1) / 2) * sin ((lon2 - lon1) / 2))) by ring.
  rewrite !sin_half_sqr, cos_minus.
  pose proof (sin2_cos2 lat1) as H1. pose proof (sin2_cos2 lat2) as H2.
  pose proof (COS_bound (lon2 - lon1)) as HC.
  unfold Rsqr in *.
  pose proof (unit_vectors_dot _ _ _ _ _ H1 H2 HC) as Hdot.
  split; lra.
Qed.

Lemma haversine_a_sym lat1 lon1 lat2 lon2 :
  haversine_a lat1 lon1 lat2 lon2 = haversine_a lat2 lon2 lat1 lon1.
Proof.
  unfold haversine_a.
  replace ((lat1 - lat2) / 2) with (- ((lat2 - lat1) / 2)) by lra.
  replace ((lon1 - lon2) / 2) with (- ((lon2 - lon1) / 2)) by lra.
  rewrite !sin_neg. ring.
Qed.

Lemma atan_nonneg x : 0 <= x -> 0 <= atan x.
Proof.
  intros [Hx| <-]; [|rewrite atan_0; lra].
  apply atan_increasing in Hx. rewrite atan_0 in Hx. lra.
Qed.

Lemma atan2_first_quadrant y x : 0 <= y -> 0 <= x -> 0 <= atan2 y x <= PI / 2.
Proof.
  intros Hy Hx. unfold atan2. pose proof PI_RGT_0.
  destruct (Rlt_dec 0 x) as [Hpos|_].
  - split.
    + apply atan_nonneg. apply Rmult_le_pos; [done|].
      left. by apply Rinv_0_lt_compat.
    + pose proof (atan_bound (y / x)). lra.
  - destruct (Rlt_dec x 0); [lra|].
    destruct (Rlt_dec 0 y); [lra|]. destruct (Rlt_dec y 0); lra.
Qed.

(** The value [HaversineDistance] computes. *)
Lemma haversine_defined lat1 lon1 lat2 lon2 :
  HaversineDistance lat1 lon1 lat2 lon2 =
  Some (haversine_distance_km lat1 lon1 lat2 lon2).
Proof.
  unfold HaversineDistance, haversine_distance_km, RADIANS.
  pose proof (haversine_a_range (lat1 * PI / 180) (lon1 * PI / 180)
                (lat2 * PI / 180) (lon2 * PI / 180)) as Ha.
  unfold fsqrt.
  destruct (Rlt_dec _ 0) as [?|_]; [lra|]. simpl.
  destruct (Rlt_dec _ 0) as [?|_]; [lra|]. simpl.
  unfold haversine_a.
  replace ((lat2 - lat1) * PI / 180) with (lat2 * PI / 180 - lat1 * PI / 180) by lra.
  replace ((lon2 - lon1) * PI / 180) with (lon2 * PI / 180 - lon1 * PI / 180) by lra.
  reflexivity.
Qed.

Lemma asin_sqrt_atan2 a :
  0 <= a <= 1 -> asin (Rmin 1 (sqrt a)) = atan2 (sqrt a) (sqrt (1 - a)).
Proof.
  intros [H0 H1].
  assert (sqrt a <= 1) as Hs1 by (rewrite <- sqrt_1; by apply sqrt_le_1_alt).
  rewrite Rmin_right by done. unfold atan2.
  destruct H1 as [Hlt| ->].
  - assert (0 < sqrt (1 - a)) as Hpos by (apply sqrt_lt_R0; lra).
    destruct (Rlt_dec 0 (sqrt (1 - a))); [|lra].
    assert (sqrt a < 1) as Hs by (rewrite <- sqrt_1; apply sqrt_lt_1_alt; lra).
    pose proof (sqrt_pos a).
    rewrite asin_atan by lra. unfold Rsqr. rewrite sqrt_sqrt by done. reflexivity.
  - rewrite sqrt_1, asin_1. replace (1 - 1) with 0 by lra. rewrite sqrt_0.
    destruct (Rlt_dec 0 0); [lra|]. destruct (Rlt_dec 0 0); [lra|].
    destruct (Rlt_dec 0 1); [done|lra].
Qed.

Lemma haversine_km_atan2 lat1 lon1 lat2 lon2 :
  haversine_distance_km lat1 lon1 lat2 lon2 =
  6371 * (2 * atan2 (sqrt (haversine_a (RADIANS lat1) (RADIANS lon1)
                              (RADIANS lat2) (RADIANS lon2)))
                    (sqrt (1 - haversine_a (RADIANS lat1) (RADIANS lon1)
                                  (RADIANS lat2) (RADIANS lon2)))).
Proof.
  unfold haversine_distance_km, haversine_a, RADIANS.
  replace ((lat2 - lat1) * PI / 180) with (lat2 * PI / 180 - lat1 * PI / 180) by lra.
  replace ((lon2 - lon1) * PI / 180) with (lon2 * PI / 180 - lon1 * PI / 180) by lra.
  reflexivity.
Qed.

(** The expression inlined in [refresh_all_matches] is the SQL function
    with its arguments in the other order. *)
Lemma inline_haversine_is_sql lat1 lon1 lat2 lon2 :
  inline_haversine lat2 lon2 lat1 lon1 = haversine_distance_km lat1 lon1 lat2 lon2.
Proof.
  pose proof (haversine_a_range (RADIANS lat1) (RADIANS lon1)
                (RADIANS lat2) (RADIANS lon2)) as Ha.
  rewrite haversine_km_atan2. unfold inline_haversine, LEAST.
  match goal with |- context [sqrt ?x] =>
    replace x with (haversine_a (RADIANS lat1) (RADIANS lon1)
                      (RADIANS lat2) (RADIANS lon2))
  end.
  - rewrite asin_sqrt_atan2 by done. ring.
  - unfold haversine_a, RADIANS.
    replace ((lat2 - lat1) * PI / 180) with (lat2 * PI / 180 - lat1 * PI / 180) by lra.
    replace ((lon2 - lon1) * PI / 180) with (lon2 * PI / 180 - lon1 * PI / 180) by lra.
    ring.
Qed.

Lemma haversine_km_range lat1 lon1 lat2 lon2 :
  0 <= haversine_distance_km lat1 lon1 lat2 lon2 <= 6371 * PI.
Proof.
  rewrite haversine_km_atan2.
  pose proof (atan2_first_quadrant
                (sqrt (haversine_a (RADIANS lat1) (RADIANS lon1)
                         (RADIANS lat2) (RADIANS lon2)))
                (sqrt (1 - haversine_a (RADIANS lat1) (RADIANS lon1)
                             (RADIANS lat2) (RADIANS lon2)))
                (sqrt_pos _) (sqrt_pos _)).
  pose proof PI_RGT_0. nra.
Qed.

Lemma inline_haversine_range lat1 lon1 lat2 lon2 :
  0 <= inline_haversine lat1 lon1 lat2 lon2 <= 6371 * PI.
Proof. rewrite inline_haversine_is_sql. apply haversine_km_range. Qed.

Lemma haversine_km_sym lat1 lon1 lat2 lon2 :
  haversine_distance_km lat1 lon1 lat2 lon2 = haversine_distance_km lat2 lon2 lat1 lon1.
Proof.
  rewrite !haversine_km_atan2. by rewrite haversine_a_sym.
Qed.

(** X11.  The three implementations of the great-circle distance agree: for all
    coordinates the Go function [HaversineDistance] is defined (no square
    root of a negative number) and equals the SQL function
    [haversine_distance_km] and the expression written inline in
    [refresh_all_matches] (which takes the project first); the distance lies
    between 0 and half the circumference, 6371 * PI km. *)
Theorem haversine_implementations_agree lat1 lon1 lat2 lon2 :
  exists d,
    HaversineDistance lat1 lon1 lat2 lon2 = Some d /\
    haversine_distance_km lat1 lon1 lat2 lon2 = d /\
    inline_haversine lat2 lon2 lat1 lon1 = d /\
    0 <= d <= 6371 * PI.
Proof.
  exists (haversine_distance_km lat1 lon1 lat2 lon2).
  split; [apply haversine_defined|]. split; [done|].
  split; [apply inline_haversine_is_sql|apply haversine_km_range].
Qed.

(** X12.  The great-circle distance is symmetric in its two points, in Go, in
    SQL and in the inline expression, and the distance from a point to itself
    is 0. *)
Theorem haversine_symmetric_and_zero lat1 lon1 lat2 lon2 :
  HaversineDistance lat1 lon1 lat2 lon2 = HaversineDistance lat2 lon2 lat1 lon1 /\
  HaversineDistance lat1 lon1 lat1 lon1 = Some 0 /\
  haversine_distance_km lat1 lon1 lat2 lon2 = haversine_distance_km lat2 lon2 lat1 lon1 /\
  inline_haversine lat1 lon1 lat2 lon2 = inline_haversine lat2 lon2 lat1 lon1.
Proof.
  split; [by rewrite !haversine_defined, haversine_km_sym|].
  split; [|split; [apply haversine_km_sym|]].
  - rewrite haversine_defined. f_equal.
    rewrite <- inline_haversine_is_sql. apply inline_haversine_same_point.
  - rewrite !inline_haversine_is_sql. apply haversine_km_sym.
Qed.

End GeoFacts.

(* ================================================================== *)
(** ** Order and content of the match cache *)

Section RankingFacts.
Import Num Sql Cache Constraints.
Open Scope R_scope.

Lemma insert_desc_perm {A} (key : A -> R) x l : Permutation (insert_desc key x l) (x :: l).
Proof.
  induction l as [|z l IH]; simpl; [done|].
  destruct (Rlt_dec _ _); [done|]. rewrite IH. apply perm_swap.
Qed.

Lemma order_by_desc_perm {A} (key : A -> R) l : Permutation (order_by_desc key l) l.
Proof.
  unfold order_by_desc. induction l as [|x l IH]; simpl; [done|].
  rewrite insert_desc_perm. by constructor.
Qed.

Lemma insert_desc_ranked {A} (key : A -> R) x l :
  ranked key l -> ranked key (insert_desc key x l).
Proof.
  unfold ranked. induction 1 as [|z l Hs IH Hall]; simpl; [repeat constructor|].
  destruct (Rlt_dec (key z) (key x)) as [Hlt|Hge].
  - constructor; [by constructor|].
    constructor; [lra|].
    eapply Forall_impl; [exact Hall|]. simpl. intros; lra.
  - constructor; [exact IH|].
    apply Forall_forall. intros y Hy. apply list_elem_of_In, In_insert_desc in Hy as [->|Hy].
    + lra.
    + rewrite Forall_forall in Hall. apply Hall. by apply list_elem_of_In.
Qed.

Lemma order_by_desc_ranked {A} (key : A -> R) l : ranked key (order_by_desc key l).
Proof.
  unfold order_by_desc. induction l as [|x l IH]; simpl; [constructor|].
  by apply insert_desc_ranked.
Qed.

Lemma In_drop {A} (y : A) n l : In y (drop n l) -> In y l.
Proof.
  revert l. induction n as [|n IH]; intros [|z l]; simpl; auto.
Qed.

(** In a ranked list every row of a prefix scores at least as much as every
    row after the prefix. *)
Lemma ranked_take_drop {A} (key : A -> R) l n x y :
  ranked key l -> In x (take n l) -> In y (drop n l) -> key y <= key x.
Proof.
  unfold ranked. intros Hs. revert n. induction Hs as [|z l Hs IH Hall]; intros n Hx Hy.
  - by rewrite take_nil in Hx.
  - destruct n as [|n]; simpl in *; [done|].
    destruct Hx as [->|Hx]; [|by eapply IH].
    rewrite Forall_forall in Hall. apply Hall.
    apply list_elem_of_In. by eapply In_drop.
Qed.

Lemma ranked_take {A} (key : A -> R) l n : ranked key l -> ranked key (take n l).
Proof.
  unfold ranked. intros Hs. revert n. induction Hs as [|z l Hs IH Hall]; intros n.
  - rewrite take_nil. constructor.
  - destruct n as [|n]; simpl; [constructor|]. constructor; [apply IH|].
    apply Forall_take. exact Hall.
Qed.


(** A ranking survives a change of rows that keeps the order of the
    scores. *)
Lemma ranked_map {A B} (key : A -> R) (key' : B -> R) (f : A -> B) l :
  (forall a b, key b <= key a -> key' (f b) <= key' (f a)) ->
  ranked key l -> ranked key' (List.map f l).
Proof.
  unfold ranked. intros Hf. induction 1 as [|z l Hs IH Hall]; simpl; constructor.
  - exact IH.
  - apply Forall_forall. intros y Hy.
    apply list_elem_of_In, in_map_iff in Hy as (x & <- & Hx).
    apply Hf. rewrite Forall_forall in Hall. apply Hall. by apply list_elem_of_In.
Qed.

Section Refresh.
Variable hashtext : string -> Z.
Variable cosine_distance : vector -> vector -> R.

(** X13.  [refresh_all_matches] leaves a cache ordered by combined score, best
    first, and returns the number of rows in it; the result does not depend
    on what the cache held before, so a second refresh changes nothing; users,
    projects, enrollments and skill vectors are left as they were. *)
Theorem refresh_ranks_and_replaces db :
  let db' := (refresh_all_matches hashtext cosine_distance db).1 in
  ranked combined_score (project_volunteer_matches db') /\
  (refresh_all_matches hashtext cosine_distance db).2 =
    Z.of_nat (length (project_volunteer_matches db')) /\
  (forall old, refresh_all_matches hashtext cosine_distance (set_matches db old) =
               refresh_all_matches hashtext cosine_distance db) /\
  refresh_all_matches hashtext cosine_distance db' =
    refresh_all_matches hashtext cosine_distance db /\
  users db' = users db /\ projects db' = projects db /\
  volunteer_enrollments db' = volunteer_enrollments db /\
  volunteer_skill_vectors db' = volunteer_skill_vectors db.
Proof.
  intros db'. subst db'. repeat split.
  unfold refresh_all_matches. simpl.
  apply (ranked_map combined_score); [|apply order_by_desc_ranked].
  intros a b Hab. simpl. by apply to_decimal_mono.
Qed.

Lemma NoDup_pairs_of_project {B} (f : UserRow -> list B) (key : B -> string * string)
    (pid : string) us :
  NoDup (List.map u_id us) ->
  (forall u b, In b (f u) -> f u = [b] /\ key b = (pid, u_id u)) ->
  NoDup (List.map key (flat_map f us)).
Proof.
  intros Hnd Hf. induction us as [|u us IH]; simpl; [constructor|].
  simpl in Hnd. apply NoDup_cons in Hnd as [Hu Hnd].
  rewrite List.map_app. apply NoDup_app. split; [|split; [|by apply IH]].
  - destruct (f u) as [|b l] eqn:Hfu; [constructor|].
    destruct (Hf u b) as [Heq _]; [rewrite Hfu; by left|].
    rewrite Hfu in Heq. injection Heq as ->. simpl. apply NoDup_singleton.
  - intros k Hk Hk'. apply list_elem_of_In, in_map_iff in Hk as (b & <- & Hb).
    apply list_elem_of_In, in_map_iff in Hk' as (b' & Hkey & Hb').
    apply in_flat_map in Hb' as (u' & Hu' & Hb').
    destruct (Hf u b Hb) as [_ H1]. destruct (Hf u' b' Hb') as [_ H2].
    apply Hu. apply list_elem_of_In, in_map_iff. exists u'. split; [congruence|done].
Qed.

Lemma combinations_key_unique db :
  users_pkey db -> projects_pkey db ->
  NoDup (List.map comb_key (volunteer_project_combinations hashtext cosine_distance db)).
Proof.
  unfold users_pkey, projects_pkey, volunteer_project_combinations.
  intros Hu Hp. induction (projects db) as [|p ps IH]; simpl; [constructor|].
  simpl in Hp. apply NoDup_cons in Hp as [Hpid Hp].
  rewrite List.map_app. apply NoDup_app. split; [|split; [|by apply IH]].
  - apply (NoDup_pairs_of_project _ comb_key (p_id p)); [done|].
    intros u b Hb. destruct (_ && _); [|destruct Hb].
    destruct Hb as [<-|[]]. by split.
  - intros k Hk Hk'. apply list_elem_of_In, in_map_iff in Hk as (b & <- & Hb).
    apply list_elem_of_In, in_map_iff in Hk' as (b' & Hkey & Hb').
    apply in_flat_map in Hb as (u & _ & Hb).
    destruct (_ && _) in Hb; [|destruct Hb]. destruct Hb as [<-|[]].
    apply in_flat_map in Hb' as (p' & Hp' & Hb').
    apply in_flat_map in Hb' as (u' & _ & Hb').
    destruct (_ && _) in Hb'; [|destruct Hb']. destruct Hb' as [<-|[]].
    unfold comb_key in Hkey. simpl in Hkey. injection Hkey as Hk1 Hk2.
    apply Hpid. apply list_elem_of_In, in_map_iff. exists p'. by split.
Qed.

(** X14.  With unique user ids and unique project ids, [refresh_all_matches]
    never stores a (project, volunteer) pair twice: the INSERT cannot violate
    UNIQUE(project_id, volunteer_id). *)
Theorem refresh_cache_key_unique db :
  users_pkey db -> projects_pkey db ->
  NoDup (List.map match_key
           (project_volunteer_matches (refresh_all_matches hashtext cosine_distance db).1)).
Proof.
  intros Hu Hp. unfold refresh_all_matches. simpl.
  rewrite List.map_map. change (fun x => match_key (stored_match x)) with match_key.
  rewrite (Permutation_map match_key (order_by_desc_perm combined_score _)).
  assert (forall (P : MatchRecord -> bool) l,
             NoDup (List.map match_key l) ->
             NoDup (List.map match_key (List.filter P l))) as Hfilter.
  { intros P l. induction l as [|m l IH]; simpl; [done|].
    intros [Hm Hl]%NoDup_cons. destruct (P m); simpl; [|by apply IH].
    apply NoDup_cons. split; [|by apply IH].
    intros Hin. apply Hm. apply list_elem_of_In, in_map_iff in Hin as (m' & Hk & Hm').
    apply filter_In in Hm' as [Hm' _].
    apply list_elem_of_In, in_map_iff. eauto. }
  apply Hfilter. unfold tiered_matches. rewrite List.map_map.
  change (fun x => match_key (match_of x)) with comb_key.
  assert (forall (P : Combination -> bool) l,
             NoDup (List.map comb_key l) ->
             NoDup (List.map comb_key (List.filter P l))) as Hfilter'.
  { intros P l. induction l as [|m l IH]; simpl; [done|].
    intros [Hm Hl]%NoDup_cons. destruct (P m); simpl; [|by apply IH].
    apply NoDup_cons. split; [|by apply IH].
    intros Hin. apply Hm. apply list_elem_of_In, in_map_iff in Hin as (m' & Hk & Hm').
    apply filter_In in Hm' as [Hm' _].
    apply list_elem_of_In, in_map_iff. eauto. }
  apply Hfilter'. by apply combinations_key_unique.
Qed.

(** X15.  Every row of the refreshed cache pairs an active project with a user
    of role 'volunteer', both with latitude and longitude (a project without
    coordinates gets the distance 999999 and falls outside the 500 km
    radius); its distance is the haversine distance of the two points,
    rounded to 2 decimals, and its matched skills are those of the pair. *)
Theorem refresh_only_ranks_eligible_pairs db :
  Forall (fun m =>
    exists p u plat plon ulat ulon,
      In p (projects db) /\ In u (users db) /\
      p_id p = project_id m /\ u_id u = volunteer_id m /\
      p_status p = "active" /\ u_role u = "volunteer" /\
      p_latitude p = Some plat /\ p_longitude p = Some plon /\
      u_latitude u = Some ulat /\ u_longitude u = Some ulon /\
      distance_km m = to_decimal 2 (inline_haversine plat plon ulat ulon) /\
      matched_skills m = matched_skill_names db u p)
    (project_volunteer_matches (refresh_all_matches hashtext cosine_distance db).1).
Proof.
  apply List.Forall_forall. intros m H.
  apply refresh_cache_spec in H as (c & Hc & Hd & _ & ->).
  apply combination_spec in Hc
    as (p & u & Hp & Hu & Hst & Hrole & [ulat Hulat] & [ulon Hulon] & _ & ->).
  simpl in Hd. rewrite Hulat, Hulon in Hd.
  destruct (p_latitude p) as [plat|] eqn:Hplat; [|lra].
  destruct (p_longitude p) as [plon|] eqn:Hplon; [|lra].
  exists p, u, plat, plon, ulat, ulon. simpl. rewrite Hplat, Hplon, Hulat, Hulon.
  by repeat split.
Qed.

(** X16.  When the cosine distance of the engine lies between 0 and 2, every
    row of the refreshed cache has a skill score between -1 and 1, a distance
    between 0 and 500 and a combined score of at least 0.1 and at most 1. *)
Theorem refresh_scores_are_bounded db :
  (forall v pv, 0 <= cosine_distance v pv <= 2) ->
  Forall (fun m =>
            -1 <= skill_score m <= 1 /\
            0 <= distance_km m <= 500 /\
            0.1 <= combined_score m <= 1)
    (project_volunteer_matches (refresh_all_matches hashtext cosine_distance db).1).
Proof.
  intros Hcd. apply List.Forall_forall. intros m H.
  apply refresh_cache_spec in H as (c & Hc & Hd & Hs & ->).
  apply combination_spec in Hc as (p & u & _ & _ & _ & _ & _ & _ & _ & Hceq).
  assert (-1 <= c_skill_score c <= 1) as Hskill.
  { rewrite Hceq. cbn [c_skill_score].
    destruct (vsv_lookup _ _) as [v|]; [|lra].
    destruct (get_project_skill_vector _ _ _ _) as [pv|]; [|lra].
    specialize (Hcd v pv). lra. }
  assert (0 <= c_distance_km c) as Hd0.
  { rewrite Hceq. cbn [c_distance_km].
    destruct (p_latitude p), (p_longitude p), (u_latitude u), (u_longitude u);
      try lra; apply inline_haversine_range. }
  assert (tiered_score c <= 1) as Hs1.
  { unfold tiered_score, GREATEST.
    assert (Rmax 0 (1 - c_distance_km c / 100) <= 1) as Hmax.
    { apply Rmax_lub; lra. }
    pose proof (Rmax_l 0 (1 - c_distance_km c / 100)).
    destruct (national_exception _ _); nra. }
  assert (to_decimal 4 (-1) = -1) as Em1 by (apply (to_decimal_value 4 (-10000)); simpl; lra).
  assert (to_decimal 4 1 = 1) as E1 by (apply (to_decimal_value 4 10000); simpl; lra).
  assert (to_decimal 4 0.1 = 0.1) as E01 by (apply (to_decimal_value 4 1000); simpl; lra).
  assert (to_decimal 2 0 = 0) as E0 by (apply (to_decimal_value 2 0); simpl; lra).
  assert (to_decimal 2 500 = 500) as E500 by (apply (to_decimal_value 2 50000); simpl; lra).
  simpl in *. repeat split.
  - rewrite <- Em1. apply to_decimal_mono. lra.
  - rewrite <- E1. apply to_decimal_mono. lra.
  - rewrite <- E0. by apply to_decimal_mono.
  - rewrite <- E500. by apply to_decimal_mono.
  - rewrite <- E01. apply to_decimal_mono. lra.
  - rewrite <- E1. by apply to_decimal_mono.
Qed.

End Refresh.

End RankingFacts.

(* ================================================================== *)
(** ** On-demand ranking, cache accessors and the Go front *)

Section OnDemandRanking.
Import Num Sql OnDemand Cache Constraints.
Open Scope R_scope.

Variable hashtext : string -> Z.
Variable cosine_distance : vector -> vector -> R.
Variable ST_Distance : R * R -> R * R -> R.

Lemma sql_limit_spec {A} (key : A -> R) n (l : list A) :
  ranked key l ->
  match sql_limit n l with
  | inl err => (n < 0)%Z /\ err = "pq: LIMIT must not be negative"
  | inr rows =>
      (0 <= n)%Z /\
      length rows = Nat.min (Z.to_nat n) (length l) /\
      ranked key rows /\
      exists rest,
        l = (rows ++ rest)%list /\
        forall r r', In r rows -> In r' rest -> key r' <= key r
  end.
Proof.
  intros Hl. unfold sql_limit. case_bool_decide as Hneg; [done|].
  split; [lia|]. split; [apply length_take|]. split; [by apply ranked_take|].
  exists (drop (Z.to_nat n) l). split; [by rewrite take_drop|].
  intros r r' Hr Hr'. by eapply ranked_take_drop.
Qed.


(** X18.  Every row ranked by [find_matching_volunteers] belongs to a user of
    role 'volunteer' and to an existing project with the given id.  When the
    distance is known it is at most the radius and, for a positive radius,
    the proximity factor is [1 - d / radius] with no clamping; when it is
    unknown the row reports distance 0 with the factor 0.5. *)
Theorem on_demand_rows_are_volunteers_in_radius db pid sw dw maxd :
  Forall (fun r =>
    exists u p,
      In u (users db) /\ In p (projects db) /\ p_id p = pid /\
      u_role u = "volunteer" /\ r_volunteer_id r = u_id u /\
      r_skill_score r =
        skill_similarity cosine_distance (vsv_lookup db (u_id u))
          (get_project_skill_vector hashtext db pid default_dimension) /\
      match on_demand_distance ST_Distance (has_postgis db) u p with
      | None =>
          r_distance_km r = 0 /\
          r_combined_score r = sw * r_skill_score r + dw * 0.5
      | Some d =>
          r_distance_km r = d /\ d <= maxd /\
          r_combined_score r =
            sw * r_skill_score r +
            dw * (if bool_decide (maxd > 0) then 1 - d / maxd else 0.5)
      end)
    (find_matching_volunteers_ranked hashtext cosine_distance ST_Distance
       db pid sw dw maxd).
Proof.
  apply List.Forall_forall. intros r Hr.
  unfold find_matching_volunteers_ranked in Hr.
  apply In_order_by_desc, in_map_iff in Hr as (vm & <- & Hvm).
  apply filter_In in Hvm as [Hvm Hrad].
  unfold volunteer_matches in Hvm.
  apply in_flat_map in Hvm as (u & Hu & Hvm).
  apply filter_In in Hu as [Hu Hrole]. apply bool_decide_eq_true in Hrole.
  apply in_map_iff in Hvm as (p & <- & Hp).
  apply filter_In in Hp as [Hp Hpid]. apply bool_decide_eq_true in Hpid.
  exists u, p. unfold found_row, within_radius in *. simpl in *.
  repeat (split; [by rewrite ?Hpid|]).
  destruct (on_demand_distance _ _ _ _) as [d|]; simpl.
  - apply bool_decide_eq_true in Hrad. split; [done|]. split; [done|].
    case_bool_decide as Hmax; [|done].
    unfold GREATEST. rewrite Rmax_right; [done|].
    apply Rmult_le_reg_r with maxd; [lra|].
    replace ((1 - d / maxd) * maxd) with (maxd - d) by (field; lra). lra.
  - done.
Qed.

Lemma Forall_take {A} (P : A -> Prop) n l : Forall P l -> Forall P (take n l).
Proof.
  intros H. apply List.Forall_forall. intros x Hx.
  rewrite List.Forall_forall in H. apply H.
  rewrite <- (take_drop n l). apply in_or_app. by left.
Qed.

(** X19.  [get_project_matches] and [get_volunteer_matches] fail exactly for a
    negative limit; otherwise they return at most [p_limit] rows, best first,
    each built from a cache row of the project (respectively the volunteer)
    and the user (respectively the project) it names; [get_volunteer_matches]
    only returns projects that are active at the time of the call. *)
Theorem cache_accessors_read_the_cache db :
  (forall pid limit,
      match get_project_matches db pid limit with
      | inl err => (limit < 0)%Z /\ err = "pq: LIMIT must not be negative"
      | inr rows =>
          (0 <= limit)%Z /\
          (length rows <= Z.to_nat limit)%nat /\
          ranked VM_CombinedScore rows /\
          Forall (fun r => exists m u,
                    In m (project_volunteer_matches db) /\ In u (users db) /\
                    project_id m = pid /\ volunteer_id m = u_id u /\
                    r = volunteer_match_of m u) rows
      end) /\
  (forall vid limit,
      match get_volunteer_matches db vid limit with
      | inl err => (limit < 0)%Z /\ err = "pq: LIMIT must not be negative"
      | inr rows =>
          (0 <= limit)%Z /\
          (length rows <= Z.to_nat limit)%nat /\
          ranked PM_CombinedScore rows /\
          Forall (fun r => exists m p,
                    In m (project_volunteer_matches db) /\ In p (projects db) /\
                    volunteer_id m = vid /\ project_id m = p_id p /\
                    p_status p = "active" /\
                    r = project_match_of m p) rows
      end).
Proof.
  split.
  - intros pid limit. unfold get_project_matches.
    pose proof (sql_limit_spec VM_CombinedScore limit (project_matches_ranked db pid)
                  (order_by_desc_ranked _ _)) as H.
    unfold sql_limit in *. case_bool_decide as Hneg; [done|].
    destruct H as (Hnn & Hlen & Hr & _). split; [done|]. split; [lia|]. split; [done|].
    apply Forall_take. apply List.Forall_forall. intros r Hr'.
    unfold project_matches_ranked in Hr'.
    apply In_order_by_desc, in_flat_map in Hr' as (m & Hm & Hr').
    apply in_flat_map in Hr' as (u & Hu & Hr').
    destruct (bool_decide (u_id u = volunteer_id m)) eqn:H1; [|destruct Hr'].
    destruct (bool_decide (project_id m = pid)) eqn:H2; [|destruct Hr'].
    apply bool_decide_eq_true in H1, H2. destruct Hr' as [<-|[]].
    exists m, u. by repeat split.
  - intros vid limit. unfold get_volunteer_matches.
    pose proof (sql_limit_spec PM_CombinedScore limit (volunteer_matches_ranked db vid)
                  (order_by_desc_ranked _ _)) as H.
    unfold sql_limit in *. case_bool_decide as Hneg; [done|].
    destruct H as (Hnn & Hlen & Hr & _). split; [done|]. split; [lia|]. split; [done|].
    apply Forall_take. apply List.Forall_forall. intros r Hr'.
    unfold volunteer_matches_ranked in Hr'.
    apply In_order_by_desc, in_flat_map in Hr' as (m & Hm & Hr').
    apply in_flat_map in Hr' as (p & Hp & Hr').
    destruct (bool_decide (p_id p = project_id m)) eqn:H1; [|destruct Hr'].
    destruct (bool_decide (volunteer_id m = vid)) eqn:H2; [|destruct Hr'].
    destruct (bool_decide (p_status p = "active")) eqn:H3; [|destruct Hr'].
    apply bool_decide_eq_true in H1, H2, H3. destruct Hr' as [<-|[]].
    exists m, p. by repeat split.
Qed.


Lemma refresh_cache_fkey db :
  matches_fkey (refresh_all_matches hashtext cosine_distance db).1.
Proof.
  apply List.Forall_forall. intros m Hm.
  apply refresh_cache_spec in Hm as (c & Hc & _ & _ & ->).
  apply combination_spec in Hc as (p & u & _ & Hu & _ & _ & _ & _ & _ & ->).
  exists u. by split.
Qed.

(** X20.  With unique user ids and every cached volunteer present in [users],
    [get_project_matches] before LIMIT serves each cache row of the project
    once, with its volunteer and its three scores. *)
Theorem cached_rows_are_served_whole db pid :
  users_pkey db -> matches_fkey db ->
  Permutation
    (List.map served_columns (project_matches_ranked db pid))
    (List.map cached_columns
       (List.filter (fun m => bool_decide (project_id m = pid))
                    (project_volunteer_matches db))).
Proof.
  unfold users_pkey, matches_fkey, project_matches_ranked. intros Hpk Hfk.
  rewrite (Permutation_map served_columns (order_by_desc_perm VM_CombinedScore _)).
  induction (project_volunteer_matches db) as [|m ms IH]; simpl; [done|].
  apply Forall_cons in Hfk as [(u & Hu & Hid) Hfk].
  rewrite List.map_app.
  rewrite (flat_map_by_key u_id _ (users db) u Hpk Hu).
  - rewrite (bool_decide_eq_true_2 _ Hid). simpl.
    case_bool_decide; simpl; [|by apply IH].
    apply Permutation_cons; [|by apply IH].
    unfold served_columns, cached_columns. simpl. by rewrite Hid.
  - intros y Hy. rewrite bool_decide_eq_false_2; [done|]. congruence.
Qed.

Variable name_lt : string -> string -> bool.


Lemma In_insert_by_name x y l :
  In y (insert_by_name name_lt x l) <-> y = x \/ In y l.
Proof.
  induction l as [|z l IH]; simpl; [intuition|].
  destruct (name_lt _ _); simpl; [intuition|]. rewrite IH. intuition.
Qed.

Lemma length_insert_by_name x l :
  length (insert_by_name name_lt x l) = S (length l).
Proof.
  induction l as [|z l IH]; simpl; [done|].
  destruct (name_lt _ _); simpl; [done|]. by rewrite IH.
Qed.

Lemma In_sorted_by_name y l :
  In y (foldr (insert_by_name name_lt) [] l) <-> In y l.
Proof.
  induction l as [|z l IH]; simpl; [done|].
  rewrite In_insert_by_name, IH. intuition.
Qed.

Lemma length_sorted_by_name l :
  length (foldr (insert_by_name name_lt) [] l) = length l.
Proof.
  induction l as [|z l IH]; simpl; [done|].
  by rewrite length_insert_by_name, IH.
Qed.

(** X22.  The fallback [findMatchingProjectsOnDemand] fails exactly for a
    negative limit; otherwise it returns the first [limit] active projects (20
    for limit 0), each with the scores 0.5, 0 and 0.5 and no matched skill.
    Its answer does not depend on the volunteer, the weights or the
    radius. *)
Theorem project_fallback_is_unscored db volunteerID sw dw maxd limit :
  match findMatchingProjectsOnDemand name_lt db volunteerID sw dw maxd limit with
  | inl err =>
      (limit < 0)%Z /\
      err = "failed to find project matches: pq: LIMIT must not be negative"
  | inr rows =>
      (0 <= limit)%Z /\
      length rows =
        Nat.min (if bool_decide (limit = 0%Z) then 20%nat else Z.to_nat limit)
                (length (List.filter (fun p => bool_decide (p_status p = "active"))
                                     (projects db))) /\
      Forall (fun r =>
                PM_SkillScore r = 0.5 /\ PM_DistanceKm r = 0 /\
                PM_CombinedScore r = 0.5 /\ PM_MatchedSkills r = [] /\
                exists p, In p (projects db) /\ p_status p = "active" /\
                          PM_ProjectID r = p_id p /\ PM_ProjectName r = p_name p) rows
  end /\
  forall volunteerID' sw' dw' maxd',
    findMatchingProjectsOnDemand name_lt db volunteerID' sw' dw' maxd' limit =
    findMatchingProjectsOnDemand name_lt db volunteerID sw dw maxd limit.
Proof.
  split; [|reflexivity].
  unfold findMatchingProjectsOnDemand, sql_limit.
  case_bool_decide as Hneg.
  - case_bool_decide; [lia|]. by split.
  - split; [case_bool_decide; lia|]. split.
    + rewrite length_take, length_sorted_by_name, length_map.
      case_bool_decide; [|done]. by replace (Z.to_nat 20) with 20%nat by lia.
    + apply Forall_take. apply List.Forall_forall. intros r Hr.
      apply In_sorted_by_name, in_map_iff in Hr as (p & <- & Hp).
      apply filter_In in Hp as [Hp Hst]. apply bool_decide_eq_true in Hst.
      simpl. repeat (split; [done|]). by exists p.
Qed.

Lemma find_vsv_query db uid (l : list UserRow) :
  match List.find (fun r => bool_decide (vsv_volunteer_id r = uid))
          (List.map (fun u => {| vsv_volunteer_id := u_id u;
                                 vsv_skill_vector :=
                                   get_volunteer_skill_vector hashtext db (u_id u)
                                     default_dimension |}) l) with
  | Some r => vsv_skill_vector r
  | None => None
  end =
  if existsb (fun u => bool_decide (u_id u = uid)) l
  then get_volunteer_skill_vector hashtext db uid default_dimension
  else None.
Proof.
  induction l as [|u l IH]; simpl; [done|].
  case_bool_decide as Hid; simpl; [by rewrite Hid|]. apply IH.
Qed.

(** X23.  After [RefreshSkillVectors] the stored vector of an id is the vector
    [get_volunteer_skill_vector] builds for it from the current skills when a
    user of role 'volunteer' has the id, and NULL otherwise; every volunteer
    has a stored vector of 1000 entries, all zero when the volunteer claims
    no skill.  Refreshing twice is refreshing once, and project vectors do
    not depend on the view. *)
Theorem RefreshSkillVectors_stores_current_vectors db :
  let db' := RefreshSkillVectors hashtext db in
  (forall uid,
      vsv_lookup db' uid =
      if existsb (fun u => bool_decide (u_id u = uid))
           (List.filter (fun u => bool_decide (u_role u = "volunteer")) (users db))
      then get_volunteer_skill_vector hashtext db uid default_dimension
      else None) /\
  (forall u, In u (users db) -> u_role u = "volunteer" ->
     exists v, vsv_lookup db' (u_id u) = Some v /\ length v = 1000%nat /\
               (volunteer_claims db (u_id u) = [] -> v = replicate 1000 0)) /\
  RefreshSkillVectors hashtext db' = db' /\
  (forall pid D, get_project_skill_vector hashtext db' pid D =
                 get_project_skill_vector hashtext db pid D).
Proof.
  intros db'.
  assert (forall uid,
      vsv_lookup db' uid =
      if existsb (fun u => bool_decide (u_id u = uid))
           (List.filter (fun u => bool_decide (u_role u = "volunteer")) (users db))
      then get_volunteer_skill_vector hashtext db uid default_dimension
      else None) as Hlookup.
  { intros uid. unfold vsv_lookup, db', RefreshSkillVectors. simpl.
    unfold volunteer_skill_vectors_query. apply find_vsv_query. }
  split; [exact Hlookup|]. split; [|split; [reflexivity|reflexivity]].
  intros u Hu Hrole. rewrite Hlookup.
  replace (existsb _ _) with true.
  - unfold get_volunteer_skill_vector.
    destruct (built_vector hashtext vs_skill_id vs_score
                (volunteer_claims db (u_id u)) default_dimension)
      as (v & Hv & Hlen & _ & Hnil); [done|].
    exists v. split; [exact Hv|]. split; [exact Hlen|exact Hnil].
  - symmetry. apply existsb_exists. exists u. split.
    + apply filter_In. split; [done|]. by apply bool_decide_eq_true_2.
    + by apply bool_decide_eq_true_2.
Qed.

End OnDemandRanking.

(* ================================================================== *)
(** ** Algebra of the cosine similarity *)

Section CosineAlgebra.
Import Num Matching MatchedSkills.
Open Scope R_scope.

Lemma dot_insert (v v2 : gmap string R) i x :
  v !! i = None -> map_first_key (<[i:=x]> v) i ->
  (dot_and_magnitude (<[i:=x]> v) v2).1 = (dot_and_magnitude v v2).1 + dot_term v2 i x.
Proof.
  intros Hi Hk. unfold dot_and_magnitude, dot_term.
  rewrite map_fold_insert_first_key by done.
  destruct (v2 !! i); simpl; lra.
Qed.

Lemma dot_empty (v2 : gmap string R) : (dot_and_magnitude ∅ v2).1 = 0.
Proof. unfold dot_and_magnitude. by rewrite map_fold_empty. Qed.

Lemma dot_insert_r (v v2 : gmap string R) i x :
  v !! i = None ->
  (dot_and_magnitude v2 (<[i:=x]> v)).1 =
  (dot_and_magnitude v2 v).1 + dot_term v2 i x.
Proof.
  intros Hi. induction v2 as [|j y w Hj Hk IH] using map_first_key_ind.
  - rewrite !dot_empty. unfold dot_term. rewrite lookup_empty. lra.
  - rewrite !dot_insert by done. rewrite IH. unfold dot_term.
    destruct (decide (j = i)) as [->|Hne].
    + rewrite !lookup_insert_eq, Hi, Hj. lra.
    + rewrite !lookup_insert_ne by done. lra.
Qed.

Lemma dot_sym (v1 v2 : gmap string R) :
  (dot_and_magnitude v1 v2).1 = (dot_and_magnitude v2 v1).1.
Proof.
  induction v1 as [|i x v Hi Hk IH] using map_first_key_ind.
  - rewrite dot_empty. induction v2 as [|j y w Hj Hk IH] using map_first_key_ind.
    + by rewrite dot_empty.
    + rewrite dot_insert by done. unfold dot_term. rewrite lookup_empty. lra.
  - rewrite dot_insert, dot_insert_r by done. by rewrite IH.
Qed.

Lemma dot_and_magnitude_eq (v1 v2 : gmap string R) :
  dot_and_magnitude v1 v2 = ((dot_and_magnitude v1 v2).1, sum_squares v1).
Proof. rewrite <- (dot_and_magnitude_snd v1 v2). by destruct (dot_and_magnitude v1 v2). Qed.

(** X24.  [CosineSimilarity] is symmetric in its two vectors. *)
Theorem cosine_similarity_symmetric (v1 v2 : gmap string R) :
  CosineSimilarity v1 v2 = CosineSimilarity v2 v1.
Proof.
  unfold CosineSimilarity.
  rewrite (dot_and_magnitude_eq v1 v2), (dot_and_magnitude_eq v2 v1), (dot_sym v2 v1).
  rewrite (orb_comm (bool_decide (size v1 = 0%nat))).
  destruct (_ || _); [done|].
  destruct (fsqrt (sum_squares v1)) as [m1|], (fsqrt (sum_squares v2)) as [m2|];
    simpl; try done.
  rewrite (orb_comm (bool_decide (m1 = 0))).
  destruct (_ || _); [done|]. by rewrite (Rmult_comm m1 m2).
Qed.


Lemma two_le_of_sqr_le c a b : 0 <= a -> 0 <= b -> c * c <= a * b -> 2 * c <= a + b.
Proof.
  intros Ha Hb Hc. destruct (Rle_dec (2 * c) (a + b)) as [|Hn]; [done|].
  exfalso. pose proof (Rle_0_sqr (a - b)) as Hs. unfold Rsqr in Hs. nra.
Qed.

Lemma cauchy_schwarz_step d s S x y :
  0 <= s -> 0 <= S -> d * d <= s * S ->
  (d + x * y) * (d + x * y) <= (s + x * x) * (S + y * y).
Proof.
  intros Hs HS Hd.
  assert (2 * (d * (x * y)) <= s * (y * y) + (x * x) * S) as H.
  { apply two_le_of_sqr_le.
    - apply Rmult_le_pos; [done|]. apply Rle_0_sqr.
    - apply Rmult_le_pos; [|done]. apply Rle_0_sqr.
    - replace (d * (x * y) * (d * (x * y))) with ((d * d) * ((x * y) * (x * y))) by ring.
      replace (s * (y * y) * (x * x * S)) with ((s * S) * ((x * y) * (x * y))) by ring.
      apply Rmult_le_compat_r; [apply Rle_0_sqr|done]. }
  nra.
Qed.

Lemma sum_squares_delete (v : gmap string R) i y :
  v !! i = Some y -> sum_squares v = sum_squares (delete i v) + y * y.
Proof.
  intros Hi. unfold sum_squares.
  rewrite (map_fold_delete_L _ _ i y v); [done| |done].
  intros. lra.
Qed.

Lemma dot_delete_r (v v2 : gmap string R) i :
  v !! i = None ->
  (dot_and_magnitude v (delete i v2)).1 = (dot_and_magnitude v v2).1.
Proof.
  intros Hi. induction v as [|j x w Hj Hk IH] using map_first_key_ind.
  - by rewrite !dot_empty.
  - rewrite !dot_insert by done.
    assert (j <> i) as Hne by (intros ->; by rewrite lookup_insert_eq in Hi).
    rewrite lookup_insert_ne in Hi by done. rewrite IH by done.
    unfold dot_term. by rewrite lookup_delete_ne.
Qed.

(** Cauchy-Schwarz for the dot product of [CosineSimilarity]. *)
Lemma dot_cauchy_schwarz (v1 v2 : gmap string R) :
  (dot_and_magnitude v1 v2).1 * (dot_and_magnitude v1 v2).1 <=
  sum_squares v1 * sum_squares v2.
Proof.
  revert v2. induction v1 as [|i x v Hi Hk IH] using map_first_key_ind; intros v2.
  - rewrite dot_empty. pose proof (sum_squares_nonneg ∅). pose proof (sum_squares_nonneg v2).
    nra.
  - rewrite dot_insert, sum_squares_insert by done. unfold dot_term.
    pose proof (sum_squares_nonneg v) as Hv.
    destruct (v2 !! i) as [y|] eqn:Hy.
    + rewrite (sum_squares_delete v2 i y Hy), <- (dot_delete_r v v2 i Hi).
      apply cauchy_schwarz_step; [done|apply sum_squares_nonneg|apply IH].
    + specialize (IH v2). pose proof (sum_squares_nonneg v2). nra.
Qed.

Lemma dot_nonneg (v1 v2 : gmap string R) :
  map_Forall (fun _ x => 0 <= x) v1 -> map_Forall (fun _ x => 0 <= x) v2 ->
  0 <= (dot_and_magnitude v1 v2).1.
Proof.
  intros H1 H2. induction v1 as [|i x v Hi Hk IH] using map_first_key_ind.
  - rewrite dot_empty. lra.
  - rewrite dot_insert by done. apply map_Forall_insert in H1 as [Hx H1]; [|done].
    specialize (IH H1). unfold dot_term.
    destruct (v2 !! i) as [y|] eqn:Hy; [|lra].
    specialize (H2 i y Hy). simpl in H2. nra.
Qed.

(** X25.  For two vectors of non-zero magnitude the quotient of the dot product
    by the magnitudes is at most 1 (Cauchy-Schwarz), so the upper clamp of
    [CosineSimilarity] never applies; when the dot product is not negative, as
    with the non-negative scores and weights of the tables, the result is the
    quotient itself. *)
Theorem cosine_clamp_is_idle (v1 v2 : gmap string R) :
  magnitude v1 <> 0 -> magnitude v2 <> 0 ->
  exists s,
    CosineSimilarity v1 v2 = Some s /\
    (dot_and_magnitude v1 v2).1 / (magnitude v1 * magnitude v2) <= 1 /\
    (0 <= (dot_and_magnitude v1 v2).1 ->
     s = (dot_and_magnitude v1 v2).1 / (magnitude v1 * magnitude v2)) /\
    (map_Forall (fun _ x => 0 <= x) v1 -> map_Forall (fun _ x => 0 <= x) v2 ->
     s = (dot_and_magnitude v1 v2).1 / (magnitude v1 * magnitude v2)).
Proof.
  intros Hm1 Hm2.
  pose proof (sum_squares_nonneg v1) as Hn1. pose proof (sum_squares_nonneg v2) as Hn2.
  pose proof (sqrt_pos (sum_squares v1)) as Hp1.
  pose proof (sqrt_pos (sum_squares v2)) as Hp2.
  unfold magnitude in *.
  set (d := (dot_and_magnitude v1 v2).1).
  assert (d / (sqrt (sum_squares v1) * sqrt (sum_squares v2)) <= 1) as Hle.
  { apply Rmult_le_reg_r with (sqrt (sum_squares v1) * sqrt (sum_squares v2)); [nra|].
    replace (d / (sqrt (sum_squares v1) * sqrt (sum_squares v2)) *
             (sqrt (sum_squares v1) * sqrt (sum_squares v2))) with d by (field; lra).
    rewrite Rmult_1_l, <- sqrt_mult by done.
    destruct (Rle_dec d 0) as [Hd|Hd]; [pose proof (sqrt_pos (sum_squares v1 * sum_squares v2)); lra|].
    rewrite <- (sqrt_square d) by lra. apply sqrt_le_1_alt. apply dot_cauchy_schwarz. }
  assert (CosineSimilarity v1 v2 =
          Some (clamp01 (d / (sqrt (sum_squares v1) * sqrt (sum_squares v2))))) as Hcs.
  { unfold CosineSimilarity.
    assert (size v1 <> 0%nat) as Hs1.
    { intros ->%map_size_empty_iff. apply Hm1. apply magnitude_empty. }
    assert (size v2 <> 0%nat) as Hs2.
    { intros ->%map_size_empty_iff. apply Hm2. apply magnitude_empty. }
    rewrite !bool_decide_eq_false_2 by done. simpl.
    rewrite (dot_and_magnitude_eq v1 v2). fold d. unfold fsqrt.
    destruct (Rlt_dec (sum_squares v1) 0) as [?|_]; [lra|].
    destruct (Rlt_dec (sum_squares v2) 0) as [?|_]; [lra|]. simpl.
    rewrite !bool_decide_eq_false_2 by done. simpl.
    unfold fdiv. destruct (Req_dec_T _ 0) as [H0|_]; [|done].
    apply Rmult_integral in H0. tauto. }
  assert (0 <= d -> clamp01 (d / (sqrt (sum_squares v1) * sqrt (sum_squares v2))) =
                    d / (sqrt (sum_squares v1) * sqrt (sum_squares v2))) as Hid.
  { intros Hd. apply clamp01_id. split; [|done].
    apply Rmult_le_pos; [done|]. apply Rlt_le, Rinv_0_lt_compat. nra. }
  eexists. split; [exact Hcs|]. split; [exact Hle|]. split; [exact Hid|].
  intros H1 H2. apply Hid. by apply dot_nonneg.
Qed.

End CosineAlgebra.

(* ================================================================== *)
(** ** Skill vectors in Go *)

Section GoVectors.
Import Num Matching MatchedSkills.
Open Scope R_scope.

Lemma foldl_insert_lookup {A} (key : A -> string) (val : A -> R) (keep : A -> bool)
    (rows : list A) (k : string) :
  foldl (fun (vector : gmap string R) row =>
           if keep row then <[key row := val row]> vector else vector) ∅ rows !! k =
  val <$> last (List.filter (fun row => bool_decide (key row = k))
                            (List.filter keep rows)).
Proof.
  induction rows as [|row rows IH] using rev_ind; [done|].
  rewrite foldl_app, !List.filter_app. simpl.
  destruct (keep row) eqn:Hkeep; simpl.
  - case_bool_decide as Hk; simpl.
    + rewrite last_snoc. simpl. by rewrite Hk, lookup_insert_eq.
    + rewrite !app_nil_r. by rewrite lookup_insert_ne.
  - by rewrite !app_nil_r.
Qed.

(** X26.  The Go vector of a volunteer maps a skill to the score of the last
    claimed row of the volunteer for that skill, and holds no other skill;
    likewise the vector of a project with the demand rows and their weights.
    A volunteer without a claimed row has the empty vector, whose similarity
    to every project is 0. *)
Theorem go_skill_vectors_hold_last_rows db :
  (forall volunteerID skillID,
      GetVolunteerSkillVector db volunteerID !! skillID =
      vs_score <$> last (claims_of_skill db volunteerID skillID)) /\
  (forall projectID skillID,
      GetProjectSkillVector db projectID !! skillID =
      ps_weight <$> last (demands_of_skill db projectID skillID)) /\
  (forall volunteerID projectID,
      (forall row, In row (volunteer_skills db) ->
                   vs_volunteer_id row = volunteerID -> vs_claimed row = false) ->
      CosineSimilarity (GetVolunteerSkillVector db volunteerID)
                       (GetProjectSkillVector db projectID) = Some 0).
Proof.
  split; [|split].
  - intros v k. unfold GetVolunteerSkillVector, claims_of_skill.
    rewrite (foldl_insert_lookup vs_skill_id vs_score vs_claimed).
    replace (List.filter vs_claimed (List.filter _ (volunteer_skills db)))
      with (List.filter (fun row => bool_decide (vs_volunteer_id row = v) && vs_claimed row)
              (volunteer_skills db)); [reflexivity|].
    induction (volunteer_skills db) as [|row rows IH]; simpl; [done|].
    destruct (bool_decide _ && vs_claimed row) eqn:Hc; simpl; [|done].
    apply andb_true_iff in Hc as [_ Hc]. by rewrite Hc, <- IH.
  - intros p k. unfold GetProjectSkillVector, demands_of_skill.
    rewrite (foldl_insert_lookup ps_skill_id ps_weight (fun _ => true)).
    replace (List.filter (fun _ => true) (List.filter _ (project_skills db)))
      with (List.filter (fun row => bool_decide (ps_project_id row = p)) (project_skills db));
      [reflexivity|].
    induction (List.filter _ _) as [|row rows IH]; simpl; [done|].
    by rewrite <- IH.
  - intros v p Hnone. unfold GetVolunteerSkillVector.
    replace (List.filter _ (volunteer_skills db)) with (@nil VolunteerSkillRow).
    + simpl. unfold CosineSimilarity. by rewrite map_size_empty.
    + symmetry. induction (volunteer_skills db) as [|row rows IH]; simpl; [done|].
      case_bool_decide as Hv; simpl.
      * rewrite (Hnone row); [|by left|done]. apply IH. intros r Hr. apply Hnone. by right.
      * apply IH. intros r Hr. apply Hnone. by right.
Qed.

Lemma getMatchedSkills_insert (v v2 : gmap string R) i x :
  v !! i = None -> map_first_key (<[i:=x]> v) i ->
  getMatchedSkills (<[i:=x]> v) v2 =
  match v2 !! i with
  | Some _ => (getMatchedSkills v v2 ++ [i])%list
  | None => getMatchedSkills v v2
  end.
Proof. intros Hi Hk. unfold getMatchedSkills. by rewrite map_fold_insert_first_key. Qed.

Lemma In_getMatchedSkills (v1 v2 : gmap string R) k :
  In k (getMatchedSkills v1 v2) <-> is_Some (v1 !! k) /\ is_Some (v2 !! k).
Proof.
  induction v1 as [|i x v Hi Hk IH] using map_first_key_ind.
  - unfold getMatchedSkills. rewrite map_fold_empty, lookup_empty. simpl.
    split; [done|]. intros [[? ?] _]. done.
  - rewrite getMatchedSkills_insert by done.
    destruct (decide (k = i)) as [->|Hne].
    + rewrite lookup_insert_eq. destruct (v2 !! i) as [y|] eqn:Hy.
      * rewrite in_app_iff. simpl. split; [eauto|]. auto.
      * rewrite IH. rewrite Hi. split; [intros [[? ?] _]; done|intros [_ [? ?]]; done].
    + rewrite lookup_insert_ne by done. destruct (v2 !! i) as [y|] eqn:Hy.
      * rewrite in_app_iff, IH. simpl. intuition congruence.
      * apply IH.
Qed.

(** X27.  [getMatchedSkills] lists, without repetition, exactly the skill ids
    present in both vectors; swapping the vectors only changes the order, and
    the list is no longer than either vector. *)
Theorem getMatchedSkills_is_the_common_skills (v1 v2 : gmap string R) :
  NoDup (getMatchedSkills v1 v2) /\
  (forall skillID, In skillID (getMatchedSkills v1 v2) <->
                   is_Some (v1 !! skillID) /\ is_Some (v2 !! skillID)) /\
  Permutation (getMatchedSkills v1 v2) (getMatchedSkills v2 v1) /\
  (length (getMatchedSkills v1 v2) <= Nat.min (size v1) (size v2))%nat.
Proof.
  assert (forall a b : gmap string R, NoDup (getMatchedSkills a b)) as Hnd.
  { intros a b. induction a as [|i x v Hi Hk IH] using map_first_key_ind.
    - unfold getMatchedSkills. rewrite map_fold_empty. constructor.
    - rewrite getMatchedSkills_insert by done. destruct (b !! i); [|done].
      apply NoDup_app. split; [done|]. split; [|apply NoDup_singleton].
      intros k Hin ->%list_elem_of_singleton.
      apply list_elem_of_In, In_getMatchedSkills in Hin as [[? ?] _]. congruence. }
  assert (forall a b : gmap string R,
             (length (getMatchedSkills a b) <= size a)%nat) as Hlen.
  { intros a b. induction a as [|i x v Hi Hk IH] using map_first_key_ind.
    - unfold getMatchedSkills. by rewrite map_fold_empty.
    - rewrite getMatchedSkills_insert, map_size_insert_None by done.
      destruct (b !! i); [|lia]. rewrite length_app. simpl. lia. }
  assert (Permutation (getMatchedSkills v1 v2) (getMatchedSkills v2 v1)) as Hperm.
  { apply NoDup_Permutation; [apply Hnd..|].
    intros k. rewrite !list_elem_of_In, !In_getMatchedSkills. tauto. }
  split; [apply Hnd|]. split; [apply In_getMatchedSkills|]. split; [exact Hperm|].
  apply Nat.min_glb; [apply Hlen|].
  rewrite (Permutation_length Hperm). apply Hlen.
Qed.

End GoVectors.

(* ================================================================== *)
(** ** Range of the SQL skill vectors *)

Section VectorRange.
Import Num Sql.
Open Scope R_scope.

Variable hashtext : string -> Z.

Lemma slot_value_range group x :
  Forall (fun y => 0 <= y <= 1) group -> Spec.slot_value group x -> 0 <= x <= 1.
Proof.
  intros Hall. destruct group as [|y group]; simpl.
  - intros ->. lra.
  - intros [Hin _]. rewrite List.Forall_forall in Hall. by apply Hall.
Qed.

Lemma all_positions_range sp D :
  Forall (fun p : Z * R => 0 <= p.2 <= 1) sp ->
  Forall (fun x => 0 <= x <= 1) (all_positions sp D).
Proof.
  intros Hall. unfold all_positions. apply List.Forall_forall. intros x Hx.
  apply in_map_iff in Hx as (i & <- & _).
  eapply slot_value_range; [|apply MAX_slot_value].
  apply List.Forall_forall. intros y Hy.
  apply in_map_iff in Hy as (p & <- & Hp). apply filter_In in Hp as [Hp _].
  rewrite List.Forall_forall in Hall. by apply Hall.
Qed.

Lemma vector_of_values_inv values v : vector_of_values values = Some v -> v = values.
Proof. destruct values; simpl; congruence. Qed.

(** X28.  When the scores of [volunteer_skills] and the weights of
    [project_skills] lie between 0 and 1 (their CHECK constraints), every
    entry of every vector built by [get_volunteer_skill_vector] and
    [get_project_skill_vector] lies between 0 and 1, for every dimension. *)
Theorem skill_vectors_stay_in_unit_cube db D :
  Forall (fun vs => 0 <= vs_score vs <= 1) (volunteer_skills db) ->
  Forall (fun ps => 0 <= ps_weight ps <= 1) (project_skills db) ->
  (forall vid v, get_volunteer_skill_vector hashtext db vid D = Some v ->
                 Forall (fun x => 0 <= x <= 1) v) /\
  (forall pid v, get_project_skill_vector hashtext db pid D = Some v ->
                 Forall (fun x => 0 <= x <= 1) v).
Proof.
  intros Hvs Hps. split.
  - intros vid v Hv. unfold get_volunteer_skill_vector in Hv.
    apply vector_of_values_inv in Hv as ->. apply all_positions_range.
    apply List.Forall_forall. intros p Hp.
    apply in_map_iff in Hp as (vs & <- & Hin). apply filter_In in Hin as [Hin _].
    rewrite List.Forall_forall in Hvs. simpl. by apply Hvs.
  - intros pid v Hv. unfold get_project_skill_vector in Hv.
    apply vector_of_values_inv in Hv as ->. apply all_positions_range.
    apply List.Forall_forall. intros p Hp.
    apply in_map_iff in Hp as (ps & <- & Hin). apply filter_In in Hin as [Hin _].
    rewrite List.Forall_forall in Hps. simpl. by apply Hps.
Qed.

(** Cauchy-Schwarz for the reference dot product. *)
Lemma ref_dot_nonneg v : 0 <= Ref.dot v v.
Proof. induction v as [|x v IH]; simpl; [lra|nra]. Qed.

Lemma ref_dot_cauchy_schwarz v1 v2 :
  Ref.dot v1 v2 * Ref.dot v1 v2 <= Ref.dot v1 v1 * Ref.dot v2 v2.
Proof.
  revert v2. induction v1 as [|x v1 IH]; intros [|y v2]; simpl;
    rewrite ?Rmult_0_l, ?Rmult_0_r; try lra.
  pose proof (IH v2) as IH2. pose proof (ref_dot_nonneg v1) as H1.
    pose proof (ref_dot_nonneg v2) as H2.
    assert (2 * (Ref.dot v1 v2 * (x * y)) <=
            Ref.dot v1 v1 * (y * y) + (x * x) * Ref.dot v2 v2) as H.
    { apply two_le_of_sqr_le.
      - apply Rmult_le_pos; [done|]. apply Rle_0_sqr.
      - apply Rmult_le_pos; [|done]. apply Rle_0_sqr.
      - replace (Ref.dot v1 v2 * (x * y) * (Ref.dot v1 v2 * (x * y)))
          with ((Ref.dot v1 v2 * Ref.dot v1 v2) * ((x * y) * (x * y))) by ring.
        replace (Ref.dot v1 v1 * (y * y) * (x * x * Ref.dot v2 v2))
          with ((Ref.dot v1 v1 * Ref.dot v2 v2) * ((x * y) * (x * y))) by ring.
        apply Rmult_le_compat_r; [apply Rle_0_sqr|done]. }
  nra.
Qed.

(** The reference cosine distance lies between 0 and 2. *)
Lemma ref_cosine_distance_range v1 v2 : 0 <= Ref.ref_cosine_distance v1 v2 <= 2.
Proof.
  unfold Ref.ref_cosine_distance.
  destruct (_ || _) eqn:Hz; [lra|].
  apply orb_false_iff in Hz as [H1 H2]. apply bool_decide_eq_false in H1, H2.
  pose proof (sqrt_pos (Ref.dot v1 v1)) as Hp1.
  pose proof (sqrt_pos (Ref.dot v2 v2)) as Hp2.
  set (n := sqrt (Ref.dot v1 v1) * sqrt (Ref.dot v2 v2)).
  assert (0 < n) as Hn by (unfold n; nra).
  assert (Ref.dot v1 v2 * Ref.dot v1 v2 <= n * n) as Hcs.
  { unfold n.
    replace (sqrt (Ref.dot v1 v1) * sqrt (Ref.dot v2 v2) *
             (sqrt (Ref.dot v1 v1) * sqrt (Ref.dot v2 v2)))
      with ((sqrt (Ref.dot v1 v1) * sqrt (Ref.dot v1 v1)) *
            (sqrt (Ref.dot v2 v2) * sqrt (Ref.dot v2 v2))) by ring.
    rewrite !sqrt_sqrt by apply ref_dot_nonneg. apply ref_dot_cauchy_schwarz. }
  assert (- n <= Ref.dot v1 v2 <= n) as [Hlo Hhi] by (split; nra).
  assert (-1 <= Ref.dot v1 v2 / n <= 1); [|lra].
  split.
  - apply Rmult_le_reg_r with n; [done|].
    replace (Ref.dot v1 v2 / n * n) with (Ref.dot v1 v2) by (field; lra). lra.
  - apply Rmult_le_reg_r with n; [done|].
    replace (Ref.dot v1 v2 / n * n) with (Ref.dot v1 v2) by (field; lra). lra.
Qed.

End VectorRange.

(* ================================================================== *)
(** ** The exchange sort of matches *)

Section SortFacts.
Import Num Cache SortMatches.
Open Scope R_scope.

Lemma length_swap l i j : length (swap l i j) = length l.
Proof.
  unfold swap. destruct (l !! i), (l !! j); try done. by rewrite !length_insert.
Qed.

Lemma lookup_swap l i j k :
  (i < length l)%nat -> (j < length l)%nat ->
  swap l i j !! k =
  l !! (if decide (k = i) then j else if decide (k = j) then i else k).
Proof.
  intros Hi Hj. unfold swap.
  destruct (lookup_lt_is_Some_2 l i Hi) as [mi Hmi].
  destruct (lookup_lt_is_Some_2 l j Hj) as [mj Hmj].
  rewrite Hmi, Hmj.
  destruct (decide (k = i)) as [->|Hki].
  - rewrite list_lookup_insert_eq by (by rewrite length_insert). done.
  - rewrite list_lookup_insert_ne by done.
    destruct (decide (k = j)) as [->|Hkj].
    + by rewrite list_lookup_insert_eq.
    + by rewrite list_lookup_insert_ne.
Qed.

Lemma swap_perm l i j : Permutation (swap l i j) l.
Proof.
  destruct (decide (i < length l)%nat) as [Hi|Hi].
  2:{ unfold swap. by rewrite (lookup_ge_None_2 l i) by lia. }
  destruct (decide (j < length l)%nat) as [Hj|Hj].
  2:{ unfold swap. rewrite (lookup_ge_None_2 l j) by lia. by destruct (l !! i). }
  apply Permutation_inj. split; [apply length_swap|].
  exists (fun k => if decide (k = i) then j else if decide (k = j) then i else k).
  split.
  - intros a b. repeat case_decide; intros; subst; congruence.
  - intros k. by apply lookup_swap.
Qed.

Lemma length_compare_and_swap i l j : length (compare_and_swap i l j) = length l.
Proof.
  unfold compare_and_swap. destruct (l !! j), (l !! i); try done.
  destruct (Rgt_dec _ _); [apply length_swap|done].
Qed.

Lemma compare_and_swap_perm i l j : Permutation (compare_and_swap i l j) l.
Proof.
  unfold compare_and_swap. destruct (l !! j), (l !! i); try done.
  destruct (Rgt_dec _ _); [apply swap_perm|done].
Qed.

(** One comparison keeps the settled positions before [i] and extends the
    stretch after [i] that position [i] dominates. *)
Lemma compare_and_swap_step i j l :
  (i < j)%nat -> (j < length l)%nat ->
  (forall a, (a < i)%nat -> settled l a) ->
  (forall b x y, (i < b < j)%nat -> l !! i = Some x -> l !! b = Some y ->
                 VM_CombinedScore y <= VM_CombinedScore x) ->
  (forall a, (a < i)%nat -> settled (compare_and_swap i l j) a) /\
  (forall b x y, (i < b < S j)%nat ->
                 compare_and_swap i l j !! i = Some x ->
                 compare_and_swap i l j !! b = Some y ->
                 VM_CombinedScore y <= VM_CombinedScore x).
Proof.
  intros Hij Hj Hpre Hdom. unfold compare_and_swap.
  destruct (lookup_lt_is_Some_2 l j Hj) as [mj Hmj].
  destruct (lookup_lt_is_Some_2 l i ltac:(lia)) as [mi Hmi].
  rewrite Hmj, Hmi.
  destruct (Rgt_dec (VM_CombinedScore mj) (VM_CombinedScore mi)) as [Hgt|Hle].
  - split.
    + intros a Ha b x y Hab Hx Hy.
      rewrite lookup_swap in Hx, Hy by lia.
      rewrite decide_False in Hx by lia. rewrite decide_False in Hx by lia.
      eapply (Hpre a Ha); [|exact Hx|exact Hy].
      repeat case_decide; lia.
    + intros b x y Hb Hx Hy.
      rewrite lookup_swap in Hx, Hy by lia.
      rewrite decide_True in Hx by done.
      rewrite decide_False in Hy by lia.
      assert (x = mj) as -> by congruence.
      destruct (decide (b = j)) as [->|Hbj].
      * assert (y = mi) as -> by congruence. lra.
      * pose proof (Hdom b mi y ltac:(lia) Hmi Hy). lra.
  - split; [exact Hpre|].
    intros b x y Hb Hx Hy. assert (x = mi) as -> by congruence.
    destruct (decide (b = j)) as [->|Hbj].
    + assert (y = mj) as -> by congruence. lra.
    + apply (Hdom b mi y); [lia|done|done].
Qed.

Lemma inner_loop_from i n : forall s l,
  (i < s)%nat -> (s + n = length l)%nat ->
  (forall a, (a < i)%nat -> settled l a) ->
  (forall b x y, (i < b < s)%nat -> l !! i = Some x -> l !! b = Some y ->
                 VM_CombinedScore y <= VM_CombinedScore x) ->
  let l' := foldl (compare_and_swap i) l (seq s n) in
  length l' = length l /\ Permutation l' l /\
  (forall a, (a < S i)%nat -> settled l' a).
Proof.
  induction n as [|n IH]; intros s l His Hlen Hpre Hdom; simpl.
  - split; [done|]. split; [done|].
    intros a Ha. destruct (decide (a = i)) as [->|Hne]; [|apply Hpre; lia].
    intros b x y Hb Hx Hy. apply (Hdom b x y); [|done|done].
    apply lookup_lt_Some in Hy. lia.
  - destruct (compare_and_swap_step i s l His ltac:(lia) Hpre Hdom) as [Hpre' Hdom'].
    destruct (IH (S s) (compare_and_swap i l s) ltac:(lia)
                ltac:(rewrite length_compare_and_swap; lia) Hpre' Hdom')
      as (Hl & Hp & Hs).
    split; [by rewrite Hl, length_compare_and_swap|].
    split; [by rewrite Hp, compare_and_swap_perm|exact Hs].
Qed.

Lemma inner_loop_spec l i :
  (i < length l)%nat ->
  (forall a, (a < i)%nat -> settled l a) ->
  length (inner_loop l i) = length l /\ Permutation (inner_loop l i) l /\
  (forall a, (a < S i)%nat -> settled (inner_loop l i) a).
Proof.
  intros Hi Hpre. unfold inner_loop.
  apply inner_loop_from; [lia|lia|done|]. intros b x y Hb. lia.
Qed.

Lemma outer_loop_from n : forall s l,
  (s + n <= length l)%nat ->
  (forall a, (a < s)%nat -> settled l a) ->
  let l' := foldl inner_loop l (seq s n) in
  length l' = length l /\ Permutation l' l /\
  (forall a, (a < s + n)%nat -> settled l' a).
Proof.
  induction n as [|n IH]; intros s l Hlen Hpre; simpl.
  - split; [done|]. split; [done|]. intros a Ha. apply Hpre. lia.
  - destruct (inner_loop_spec l s ltac:(lia) Hpre) as (Hl & Hp & Hs).
    destruct (IH (S s) (inner_loop l s) ltac:(lia) Hs) as (Hl' & Hp' & Hs').
    split; [by rewrite Hl', Hl|]. split; [by rewrite Hp', Hp|].
    intros a Ha. apply Hs'. lia.
Qed.

Lemma settled_ranked l : (forall a, settled l a) -> ranked VM_CombinedScore l.
Proof.
  induction l as [|x l IH]; intros Hall; [constructor|].
  constructor.
  - apply IH. intros a b y z Hab Hy Hz. apply (Hall (S a) (S b) y z); [lia|done|done].
  - apply List.Forall_forall. intros y Hy.
    apply list_elem_of_In, list_elem_of_lookup in Hy as [b Hb].
    apply (Hall 0%nat (S b) x y); [lia|done|done].
Qed.

(** X29.  [sortMatchesByScore], the exchange sort over the slice, leaves a
    rearrangement of the slice, of the same length, in which no match scores
    below one that follows it. *)
Theorem sortMatchesByScore_sorts matches :
  Permutation (sortMatchesByScore matches) matches /\
  ranked VM_CombinedScore (sortMatchesByScore matches) /\
  length (sortMatchesByScore matches) = length matches.
Proof.
  unfold sortMatchesByScore.
  destruct (outer_loop_from (length matches - 1) 0 matches ltac:(lia)
              ltac:(intros a Ha; lia)) as (Hl & Hp & Hs).
  split; [exact Hp|]. split; [|exact Hl].
  apply settled_ranked. intros a.
  destruct (decide (a < length matches - 1)%nat) as [Ha|Ha]; [by apply Hs|].
  intros b x y Hab Hx Hy.
  apply lookup_lt_Some in Hy. rewrite Hl in Hy. lia.
Qed.

End SortFacts.

(* ================================================================== *)
(** ** Further instances *)

Section MoreInstances.
Import Num Sql OnDemand Cache Constraints EnrollmentQueries Matching.
Open Scope R_scope.

Lemma ref_users_pkey rows : users_pkey (set_enrollments Ref.db_fresh rows).
Proof.
  unfold users_pkey. simpl. apply (bool_decide_unpack _). reflexivity.
Qed.

Lemma ref_projects_pkey rows : projects_pkey (set_enrollments Ref.db_fresh rows).
Proof.
  unfold projects_pkey. simpl. apply NoDup_singleton.
Qed.

Lemma ref_enrollment_constraints status :
  valid_status status = true ->
  enrollment_constraints (Ref.db_with status).
Proof.
  intros Hst. unfold enrollment_constraints. split; [|split; [|split]].
  - unfold enrollments_pkey. simpl. apply NoDup_singleton.
  - unfold enrollments_pair_key. simpl. apply NoDup_singleton.
  - unfold enrollments_fkeys. simpl. constructor; [|constructor].
    repeat split; reflexivity.
  - unfold chk_enrollment_status. simpl. constructor; [exact Hst|constructor].
Qed.

(** The table holding the requested row "e1" satisfies its constraints, and
    still does after a call that accepts "e1" and after a refused second
    request. *)
Lemma service_keeps_table_constraints_witness :
  enrollment_constraints (Ref.db_with "requested") /\
  enrollment_constraints
    (EnrollmentService.UpdateEnrollmentStatus Ref.ref_uuid_in
       (Ref.db_with "requested") 5 "e1" "accept" "").1 /\
  enrollment_constraints
    (EnrollmentService.CreateEnrollment (Ref.db_with "requested") 5 "e2" "v1" "p1"
       "request" "" "v1").1.
Proof.
  pose proof (ref_enrollment_constraints "requested" eq_refl) as H.
  split; [exact H|]. split.
  - exact (proj2 (service_keeps_table_constraints Ref.ref_uuid_in _ H) 5%Z "e1" "accept" "").
  - exact (proj1 (service_keeps_table_constraints Ref.ref_uuid_in _ H)
             5%Z "e2" "v1" "p1" "request" "" "v1").
Defined.

Lemma ref_approved_iff_enrolled : approved_iff_enrolled (Ref.db_with "requested").
Proof.
  unfold approved_iff_enrolled. simpl. constructor; [|constructor].
  simpl. split; [intros [? ?]; discriminate|discriminate].
Qed.

(** A call that accepts the requested row "e1" keeps the approval timestamp
    in step with the status. *)
Lemma service_keeps_approved_iff_enrolled_witness :
  approved_iff_enrolled (Ref.db_with "requested") /\
  approved_iff_enrolled
    (EnrollmentService.UpdateEnrollmentStatus Ref.ref_uuid_in
       (Ref.db_with "requested") 5 "e1" "accept" "").1.
Proof.
  split; [exact ref_approved_iff_enrolled|].
  apply (proj2 (service_keeps_approved_iff_enrolled Ref.ref_uuid_in (Ref.db_with "requested")
                  (proj1 (ref_enrollment_constraints "requested" eq_refl))
                  ref_approved_iff_enrolled) 5%Z "e1" "accept" "").
Defined.

(** The enrolled row "e1" survives an accept, a reject and a reject of an
    unknown id. *)
Lemma terminal_row_is_final_witness :
  EnrollmentService.find_enrollment
    (run_transitions Ref.ref_uuid_in (Ref.db_with "enrolled")
       [mkCall 5 "e1" "accept" ""; mkCall 6 "e1" "reject" "no"; mkCall 7 "e9" "reject" ""])
    "e1" = Some (Ref.enrollment_of "e1" "v1" "p1" "enrolled").
Proof.
  apply (terminal_row_is_final Ref.ref_uuid_in (Ref.db_with "enrolled") "e1"
           (Ref.enrollment_of "e1" "v1" "p1" "enrolled")); [reflexivity|].
  simpl; auto.
Defined.

(** The pair ("v1", "p1"), rejected by the team lead, is locked. *)
Lemma rejected_pair_is_locked_witness :
  EnrollmentService.IsVolunteerEnrolled (Ref.db_with "tl_rejected") "v1" "p1" = false /\
  (exists err,
      EnrollmentService.CreateEnrollment (Ref.db_with "tl_rejected") 5 "e2" "v1" "p1"
        "request" "" "v1" = (Ref.db_with "tl_rejected", inl err)) /\
  (exists err,
      EnrollmentService.UpdateEnrollmentStatus Ref.ref_uuid_in
        (Ref.db_with "tl_rejected") 5 "e1" "accept" ""
        = (Ref.db_with "tl_rejected", Some err)).
Proof.
  destruct (rejected_pair_is_locked Ref.ref_uuid_in (Ref.db_with "tl_rejected")
              (Ref.enrollment_of "e1" "v1" "p1" "tl_rejected")
              (proj1 (ref_enrollment_constraints "tl_rejected" eq_refl))
              (proj1 (proj2 (ref_enrollment_constraints "tl_rejected" eq_refl)))
              (or_introl eq_refl) (or_introl eq_refl)) as (H1 & H2 & H3).
  split; [exact H1|]. split.
  - exact (H2 5%Z "e2" "request" "" "v1").
  - exact (H3 5%Z "accept" "").
Defined.

(** The listing of project "p1" holds exactly the requested row "e1". *)
Lemma listings_lose_nothing_witness :
  Permutation
    (List.map d_Enrollment (GetProjectEnrollments (Ref.db_with "requested") "p1"))
    [Ref.enrollment_of "e1" "v1" "p1" "requested"].
Proof.
  exact (proj1 (proj2 (listings_lose_nothing (Ref.db_with "requested")
                         (ref_users_pkey _) (ref_projects_pkey _)
                         (proj1 (proj2 (proj2
                            (ref_enrollment_constraints "requested" eq_refl))))))
           "p1").
Defined.

(** The first request of "v1" for "p1" is listed under both. *)
Lemma created_enrollment_is_listed_witness :
  exists db' e,
    EnrollmentService.CreateEnrollment Ref.db_fresh 5 "e1" "v1" "p1" "request" "" "v1"
      = (db', inr e) /\
    (exists d, In d (GetProjectEnrollments db' "p1") /\ d_Enrollment d = e) /\
    (exists d, In d (GetVolunteerEnrollments db' "v1") /\ d_Enrollment d = e).
Proof.
  eexists _, _. split; [reflexivity|].
  apply (created_enrollment_is_listed Ref.db_fresh 5%Z "e1" "v1" "p1" "request" "" "v1").
  reflexivity.
Defined.

(** No pair is cached twice for the reference tables. *)
Lemma refresh_cache_key_unique_witness :
  NoDup (List.map match_key
           (project_volunteer_matches
              (refresh_all_matches Ref.ref_hashtext Ref.ref_cosine_distance
                 (Ref.db_with "requested")).1)).
Proof.
  apply refresh_cache_key_unique; [apply ref_users_pkey|apply ref_projects_pkey].
Defined.

(** The scores cached for the reference tables are bounded. *)
Lemma refresh_scores_are_bounded_witness :
  Forall (fun m =>
            -1 <= skill_score m <= 1 /\
            0 <= distance_km m <= 500 /\
            0.1 <= combined_score m <= 1)
    (project_volunteer_matches
       (refresh_all_matches Ref.ref_hashtext Ref.ref_cosine_distance
          (Ref.db_with "requested")).1).
Proof.
  apply refresh_scores_are_bounded. apply ref_cosine_distance_range.
Defined.

(** What is served for "p1" after a refresh is what was cached for it. *)
Lemma cached_rows_are_served_whole_witness :
  Permutation
    (List.map served_columns
       (project_matches_ranked
          (refresh_all_matches Ref.ref_hashtext Ref.ref_cosine_distance
             (Ref.db_with "requested")).1 "p1"))
    (List.map cached_columns
       (List.filter (fun m => bool_decide (project_id m = "p1"))
          (project_volunteer_matches
             (refresh_all_matches Ref.ref_hashtext Ref.ref_cosine_distance
                (Ref.db_with "requested")).1))).
Proof.
  apply cached_rows_are_served_whole.
  - apply (ref_users_pkey [Ref.enrollment_of "e1" "v1" "p1" "requested"]).
  - apply refresh_cache_fkey.
Defined.

Lemma magnitude_singleton (k : string) (x : R) : 0 < x -> magnitude {[ k := x ]} <> 0.
Proof.
  intros Hx. unfold magnitude, sum_squares. rewrite map_fold_singleton.
  assert (0 < sqrt (0 + x * x)) by (apply sqrt_lt_R0; nra). lra.
Qed.

(** A volunteer holding "ab" at 0.5 and a project demanding "ab" at 0.9. *)
Lemma cosine_clamp_is_idle_witness :
  exists s,
    CosineSimilarity {[ "ab" := 0.5 ]} {[ "ab" := 0.9 ]} = Some s /\
    (dot_and_magnitude {[ "ab" := 0.5 ]} {[ "ab" := 0.9 ]}).1 /
      (magnitude {[ "ab" := 0.5 ]} * magnitude {[ "ab" := 0.9 ]}) <= 1.
Proof.
  destruct (cosine_clamp_is_idle {[ "ab" := 0.5 ]} {[ "ab" := 0.9 ]})
    as (s & Hs & Hle & _).
  - apply magnitude_singleton. lra.
  - apply magnitude_singleton. lra.
  - exists s. split; [exact Hs|exact Hle].
Defined.

(** The vector of "v1" over the reference skills stays in the unit cube. *)
Lemma skill_vectors_stay_in_unit_cube_witness :
  exists v,
    get_volunteer_skill_vector Ref.ref_hashtext Ref.db_skilled "v1" 1000 = Some v /\
    Forall (fun x => 0 <= x <= 1) v.
Proof.
  destruct (built_vector Ref.ref_hashtext vs_skill_id vs_score
              (volunteer_claims Ref.db_skilled "v1") 1000 eq_refl) as (v & Hv & _).
  exists v. split; [exact Hv|].
  assert (Forall (fun vs => 0 <= vs_score vs <= 1) (volunteer_skills Ref.db_skilled)) as Hvs.
  { simpl. repeat constructor; simpl; lra. }
  assert (Forall (fun ps => 0 <= ps_weight ps <= 1) (project_skills Ref.db_skilled)) as Hps.
  { simpl. repeat constructor; simpl; lra. }
  exact (proj1 (skill_vectors_stay_in_unit_cube Ref.ref_hashtext Ref.db_skilled 1000
                  Hvs Hps) "v1" v Hv).
Defined.

(** The volunteer "v1" counts as enrolled in "p1" while the row "e1" is
    requested, and still does after a call that rejects "e1": the call
    returns the refusal of the UPDATE. *)
Lemma enrolled_flag_set_by_create_only_witness :
  EnrollmentService.IsVolunteerEnrolled (Ref.db_with "requested") "v1" "p1" = true /\
  EnrollmentService.IsVolunteerEnrolled
    (EnrollmentService.UpdateEnrollmentStatus Ref.ref_uuid_in
       (Ref.db_with "requested") 5 "e1" "reject" "").1
    "v1" "p1" = true /\
  exists err,
    EnrollmentService.UpdateEnrollmentStatus Ref.ref_uuid_in
      (Ref.db_with "requested") 5 "e1" "reject" "" = (Ref.db_with "requested", Some err).
Proof.
  destruct (proj2 (proj2 (enrolled_flag_set_by_create_only Ref.ref_uuid_in
                            (Ref.db_with "requested"))) 5%Z "e1" "reject" "")
    as (err & Heq & Hflag).
  split; [reflexivity|]. split.
  - rewrite Hflag. reflexivity.
  - exists err. exact Heq.
Defined.

End MoreInstances.

